(** * picotunnel: tunnel transport, registry and ingress proxy

    A shallow embedding of the Go sources
      - internal/tunnel/mux.go        (stream header framing, CopyBidirectional)
      - internal/tunnel (protocol)    (Connection, WebSocketConn)
      - internal/server/tunnel.go     (TunnelManager: the registry)
      - internal/server (proxy)       (ProxyManager: HTTP and TCP ingress)
    together with the properties the design document states about them.

    Conventions.  A Go [int] is a [Z]; a [byte] is a [Byte.byte]; a [[]byte]
    is a [list byte]; a Go [string] is a [string].  Pointers to [Connection]
    objects are indices into a heap, so that two goroutines holding the same
    pointer observe each other's [Close].  Go's [(T, error)] results are
    values of [result], with a third constructor for a run-time panic. *)

From Stdlib Require Import ZArith NArith List String Ascii Bool Lia.
From Stdlib Require Import Strings.Byte.
From stdpp Require Import base option list gmap strings fin_maps.

Import ListNotations.
Local Open Scope Z_scope.

(** ** Results of fallible calls *)

Inductive result (E A : Type) : Type :=
| Ok (a : A)
| Err (e : E)
| Panic.
Arguments Ok {E A} a.
Arguments Err {E A} e.
Arguments Panic {E A}.

Definition is_Ok {E A} (r : result E A) : bool :=
  match r with Ok _ => true | _ => false end.

(** ** Bytes and Go's integer/byte conversions *)

Definition Z_of_byte (b : byte) : Z := Z.of_N (Byte.to_N b).

(** [byte(x)] for a Go [int] [x]: the low eight bits. *)
Definition byte_of_Z (x : Z) : byte :=
  match Byte.of_N (Z.to_N (x mod 256)) with
  | Some b => b
  | None => x00
  end.

Definition newline : byte := x0a.

(** * Package [tunnel]: stream header, connections, framed transport *)

Module tunnel.

(** [type StreamHeader struct { Type, Target string }] *)
Record StreamHeader : Type := mkStreamHeader {
  Type_ : string;
  Target : string;
}.

(** The [fmt.Errorf] values of [OpenStream] and [handleStream], one
    constructor per message. *)
Inductive MuxError : Type :=
| ErrOpenStream                 (* "failed to open stream" *)
| ErrMarshalHeader              (* "failed to marshal header" *)
| ErrHeaderTooLarge (n : Z)     (* "header too large: %d bytes" *)
| ErrWriteHeader                (* "failed to write header" *)
| ErrReadHeaderLength           (* "failed to read header length" *)
| ErrInvalidHeaderLength (n : Z)(* "invalid header length: %d" *)
| ErrReadHeader                 (* "failed to read header" *)
| ErrNotNewlineTerminated       (* "header not terminated with newline" *)
| ErrUnmarshalHeader            (* "failed to unmarshal header" *)
| ErrNoHandler (ty : string).   (* "no handler for stream type: %s" *)

(** [io.ReadFull(stream, buf)] with [len(buf) = n], on a stream that will
    deliver [input] and then end: either exactly [n] bytes, or an error. *)
Definition ReadFull (n : nat) (input : list byte) : option (list byte * list byte) :=
  if (n <=? length input)%nat then Some (firstn n input, skipn n input) else None.

(** Lines 85-96 of [OpenStream]: the buffer written for a marshalled header. *)
Definition frameHeader (headerData : list byte) : result MuxError (list byte) :=
  let headerLen := Z.of_nat (length headerData) in
  if headerLen >? 65535 (* 0xFFFF *) then Err (ErrHeaderTooLarge headerLen)
  else Ok (byte_of_Z (Z.shiftr headerLen 8)
           :: byte_of_Z (Z.land headerLen 255)
           :: headerData ++ [newline]).

(** Lines 140-161 of [handleStream]: length prefix, body and newline. *)
Definition readHeaderBody (input : list byte)
  : result MuxError (list byte * list byte) :=
  match ReadFull 2 input with
  | Some ([b0; b1], rest) =>
      let headerLen := Z.lor (Z.shiftl (Z_of_byte b0) 8) (Z_of_byte b1) in
      if (headerLen =? 0) || (headerLen >? 65535) then
        Err (ErrInvalidHeaderLength headerLen)
      else
        match ReadFull (Z.to_nat headerLen + 1) rest with
        | Some (headerBuf, rest') =>
            match nth_error headerBuf (Z.to_nat headerLen) with
            | Some c =>
                if Byte.eqb c newline
                then Ok (firstn (Z.to_nat headerLen) headerBuf, rest')
                else Err ErrNotNewlineTerminated
            | None => Panic (* index out of range; headerBuf has headerLen+1 bytes *)
            end
        | None => Err ErrReadHeader
        end
  | _ => Err ErrReadHeaderLength
  end.

Section Codec.

(** [encoding/json] is a dependency, not part of the repository: the two
    calls the code makes are taken as parameters. *)
Variable json_Marshal : StreamHeader -> option (list byte).
Variable json_Unmarshal : list byte -> option StreamHeader.

(** [OpenStream], lines 79-96: the bytes to write on the opened stream. *)
Definition encodeHeader (header : StreamHeader) : result MuxError (list byte) :=
  match json_Marshal header with
  | None => Err ErrMarshalHeader
  | Some headerData => frameHeader headerData
  end.

(** [handleStream], lines 140-168: the header and the bytes that follow it. *)
Definition decodeHeader (input : list byte)
  : result MuxError (StreamHeader * list byte) :=
  match readHeaderBody input with
  | Ok (body, rest) =>
      match json_Unmarshal body with
      | Some header => Ok (header, rest)
      | None => Err ErrUnmarshalHeader
      end
  | Err e => Err e
  | Panic => Panic
  end.

(** [handleStream] as a whole: the registered handler types are a set; on
    success the handler for [header.Type] is invoked on the rest of the
    stream. *)
Definition handleStream (handlers : gset string) (input : list byte)
  : result MuxError (StreamHeader * list byte) :=
  match decodeHeader input with
  | Ok (header, rest) =>
      if decide (Type_ header ∈ handlers) then Ok (header, rest)
      else Err (ErrNoHandler (Type_ header))
  | r => r
  end.

End Codec.

(** ** Connections (a websocket with a yamux session on top) *)

(** Protocol constants; a [time.Duration] counts nanoseconds. *)
Definition Second : Z := 1000000000.
Definition PingInterval : Z := 30 * Second.

(** [models.TunnelMessage] *)
Record TunnelMessage : Type := mkTunnelMessage {
  msgType : string;
  msgTarget : string;
}.

(** A [*Connection] is an index into the heap of connection objects, a
    stream (a [net.Conn] handed out by yamux) an index into the stream table. *)
Definition ConnID : Type := nat.
Definition StreamID : Type := nat.

(** What the model keeps of a [*yamux.Session]: whether it has shut down. *)
Record Session : Type := mkSession {
  shutdown : bool;
}.

(** [type Connection struct { ws; session; token; mu; closed; lastPing }].
    Of the websocket the model keeps the text frames written so far
    ([outbox]) and the error, if any, with which its writes currently fail
    ([wsFault]); [session = None] is the nil pointer. *)
Record Connection : Type := mkConnection {
  session : option Session;
  token : string;
  closed : bool;
  lastPing : Z;
  outbox : list TunnelMessage;
  wsFault : option string;
}.

(** A stream of a session: the connection it was opened on, the bytes written
    to it so far (what the peer reads, in order) and whether it was closed. *)
Record Stream : Type := mkStream {
  parent : ConnID;
  written : list byte;
  streamClosed : bool;
}.

Record Net : Type := mkNet {
  conns : list Connection;
  streams : list Stream;
}.

Definition setConn (c : ConnID) (x : Connection) (n : Net) : Net :=
  {| conns := <[c := x]> (conns n); streams := streams n |}.

(** [&Connection{...}]: a new object, at a new address. *)
Definition allocConn (x : Connection) (n : Net) : ConnID * Net :=
  (length (conns n), {| conns := conns n ++ [x]; streams := streams n |}).

(** [NewConnection(ws, token, isServer)] when the yamux session is set up. *)
Definition newConnection (tok : string) (now : Z) : Connection :=
  {| session := Some {| shutdown := false |}; token := tok; closed := false;
     lastPing := now; outbox := []; wsFault := None |}.

(** [&tunnel.Connection{}]: every field has its zero value. *)
Definition zeroConnection : Connection :=
  {| session := None; token := ""; closed := false;
     lastPing := 0; outbox := []; wsFault := None |}.

Inductive ConnError : Type :=
| ErrConnectionClosed           (* "connection closed" *)
| ErrSessionShutdown            (* yamux.ErrSessionShutdown *)
| ErrStreamClosed               (* write on a closed stream *)
| ErrWebsocket (e : string).    (* an error of the websocket *)

(** [IsClosed]. Every pointer the program holds is to an allocated object
    (see [reachable_registered_allocated]); the default is never used there. *)
Definition IsClosed (c : ConnID) (n : Net) : bool :=
  match conns n !! c with
  | Some x => closed x
  | None => true
  end.

Definition LastPing (c : ConnID) (n : Net) : Z :=
  match conns n !! c with
  | Some x => lastPing x
  | None => 0
  end.

(** [Close]: idempotent; marks the connection closed and closes the session. *)
Definition Close (c : ConnID) (n : Net) : Net :=
  match conns n !! c with
  | Some x =>
      if closed x then n
      else setConn c {| session := (fun _ => {| shutdown := true |}) <$> session x;
                        token := token x; closed := true;
                        lastPing := lastPing x; outbox := outbox x;
                        wsFault := wsFault x |} n
  | None => n
  end.

(** [UpdateLastPing] *)
Definition UpdateLastPing (c : ConnID) (now : Z) (n : Net) : Net :=
  match conns n !! c with
  | Some x =>
      setConn c {| session := session x; token := token x; closed := closed x;
                   lastPing := now; outbox := outbox x; wsFault := wsFault x |} n
  | None => n
  end.

(** [SendMessage]: fails on a closed connection, otherwise writes one text
    frame, which succeeds unless the websocket is faulty. *)
Definition SendMessage (msg : TunnelMessage) (c : ConnID) (n : Net)
  : option ConnError * Net :=
  match conns n !! c with
  | Some x =>
      if closed x then (Some ErrConnectionClosed, n)
      else match wsFault x with
           | Some e => (Some (ErrWebsocket e), n)
           | None =>
               (None,
                setConn c {| session := session x; token := token x;
                             closed := closed x; lastPing := lastPing x;
                             outbox := outbox x ++ [msg];
                             wsFault := wsFault x |} n)
           end
  | None => (Some ErrConnectionClosed, n)
  end.

Definition Ping : ConnID -> Net -> option ConnError * Net :=
  SendMessage {| msgType := "ping"; msgTarget := "" |}.
Definition Pong : ConnID -> Net -> option ConnError * Net :=
  SendMessage {| msgType := "pong"; msgTarget := "" |}.

(** [err.Error()] *)
Definition ConnError_text (e : ConnError) : string :=
  match e with
  | ErrConnectionClosed => "connection closed"
  | ErrSessionShutdown => "session shutdown"
  | ErrStreamClosed => "stream closed"
  | ErrWebsocket s => s
  end.

(** [Open]: [c.session.Open()] unless the connection is closed.  On a nil
    session the call dereferences a nil [*yamux.Session] and panics. *)
Definition Open (c : ConnID) (n : Net) : result ConnError StreamID * Net :=
  match conns n !! c with
  | Some x =>
      if closed x then (Err ErrConnectionClosed, n)
      else match session x with
           | None => (Panic, n)
           | Some s =>
               if shutdown s then (Err ErrSessionShutdown, n)
               else (Ok (length (streams n)),
                     {| conns := conns n;
                        streams := streams n ++
                          [{| parent := c; written := []; streamClosed := false |}] |})
           end
  | None => (Panic, n)
  end.

(** [stream.Write(buf)] and [stream.Close()] on a yamux stream. *)
Definition streamWrite (s : StreamID) (buf : list byte) (n : Net)
  : option ConnError * Net :=
  match streams n !! s with
  | Some st =>
      if streamClosed st || IsClosed (parent st) n then (Some ErrStreamClosed, n)
      else (None,
            {| conns := conns n;
               streams := <[s := {| parent := parent st;
                                    written := written st ++ buf;
                                    streamClosed := false |}]> (streams n) |})
  | None => (Some ErrStreamClosed, n)
  end.

Definition streamClose (s : StreamID) (n : Net) : Net :=
  match streams n !! s with
  | Some st =>
      {| conns := conns n;
         streams := <[s := {| parent := parent st; written := written st;
                              streamClosed := true |}]> (streams n) |}
  | None => n
  end.

Definition streamWritten (s : StreamID) (n : Net) : list byte :=
  match streams n !! s with
  | Some st => written st
  | None => []
  end.

Section OpenStream.

Variable json_Marshal : StreamHeader -> option (list byte).

(** [StreamManager.OpenStream(header)] for the manager of connection [c]:
    open a stream on [sm.conn], then marshal, frame and write the header. *)
Definition OpenStream (c : ConnID) (header : StreamHeader) (n : Net)
  : result MuxError StreamID * Net :=
  match Open c n with
  | (Ok stream, n1) =>
      match json_Marshal header with
      | None => (Err ErrMarshalHeader, streamClose stream n1)
      | Some headerData =>
          match frameHeader headerData with
          | Ok buf =>
              match streamWrite stream buf n1 with
              | (None, n2) => (Ok stream, n2)
              | (Some _, n2) => (Err ErrWriteHeader, streamClose stream n2)
              end
          | Err e => (Err e, streamClose stream n1)
          | Panic => (Panic, n1)
          end
      end
  | (Err _, n1) => (Err ErrOpenStream, n1)
  | (Panic, n1) => (Panic, n1)
  end.

End OpenStream.

(** ** WebSocketConn: the framed channel as a byte stream *)

Inductive IOError : Type :=
| EOF                           (* io.EOF *)
| ErrChannelClosed              (* the websocket's read error *)
| ErrUseOfClosedConn            (* "use of closed network connection" *)
| ErrConnReset.                 (* an error reported by the peer's side *)

(** [type WebSocketConn struct { ws; reader; ... }].  Of [ws] the model keeps
    the binary frames that have arrived and were not yet handed out by
    [NextReader] ([inbound]) and whether the channel has failed or was closed
    ([wsDown]); [reader] is the unread rest of the current frame, [None] for
    a nil [w.reader]. *)
Record WebSocketConn : Type := mkWebSocketConn {
  inbound : list (list byte);
  wsDown : bool;
  reader : option (list byte);
}.

(** One call of [Read]: it returns [(n, err)] and the first [n] bytes of the
    buffer, or it blocks inside [NextReader]. *)
Inductive ReadOutcome : Type :=
| Returned (data : list byte) (err : option IOError)
| Blocked.

(** [Read] of a websocket message reader on a buffer of [buflen] bytes: bytes
    of the message while there are some, then [(0, io.EOF)]. *)
Definition messageRead (buflen : nat) (r : list byte)
  : list byte * option IOError * list byte :=
  match r with
  | [] => ([], Some EOF, [])
  | _ => (firstn buflen r, None, skipn buflen r)
  end.

(** [func (w *WebSocketConn) Read(b []byte) (int, error)] with [len(b) = buflen]. *)
Definition Read (buflen : nat) (w : WebSocketConn) : ReadOutcome * WebSocketConn :=
  let current :=
    match reader w with
    | Some r => inl (r, w)
    | None =>
        (* _, r, err := w.ws.NextReader() *)
        match inbound w with
        | f :: fs => inl (f, {| inbound := fs; wsDown := wsDown w; reader := Some f |})
        | [] => inr (if wsDown w then Returned [] (Some ErrChannelClosed) else Blocked)
        end
    end in
  match current with
  | inr out => (out, w)
  | inl (r, w1) =>
      let '(data, err, r') := messageRead buflen r in
      (Returned data err,
       {| inbound := inbound w1; wsDown := wsDown w1;
          reader := match err with Some EOF => None | _ => Some r' end |})
  end.

(** Successive [Read]s with the same buffer size. *)
Fixpoint Reads (k : nat) (buflen : nat) (w : WebSocketConn)
  : list ReadOutcome * WebSocketConn :=
  match k with
  | O => ([], w)
  | S k' =>
      let '(o, w1) := Read buflen w in
      let '(os, w2) := Reads k' buflen w1 in
      (o :: os, w2)
  end.

(** ** CopyBidirectional *)

(** What a [net.Conn] will still receive from its peer: data, the peer's
    end of stream, or a failure. *)
Inductive Chunk : Type :=
| Data (bs : list byte)
| FIN
| RST.

(** A [net.Conn] endpoint: pending input, the bytes written to it, and its
    two halves. [Close] shuts both; the interface has no half-close. *)
Record Conn : Type := mkConn {
  inbox : list Chunk;
  sent : list byte;
  rdClosed : bool;
  wrClosed : bool;
}.

Definition connClose (c : Conn) : Conn :=
  {| inbox := inbox c; sent := sent c; rdClosed := true; wrClosed := true |}.

Inductive GStatus : Type :=
| Running
| Done (err : option IOError).

(** The two goroutines of [CopyBidirectional(conn1, conn2)]:
    [G1] runs [io.Copy(conn1, conn2)], [G2] runs [io.Copy(conn2, conn1)]. *)
Inductive Goroutine : Type := G1 | G2.

Record CopyState : Type := mkCopyState {
  conn1 : Conn;
  conn2 : Conn;
  status1 : GStatus;
  status2 : GStatus;
}.

Inductive CopyStep : Type :=
| Copied (src dst : Conn)       (* one chunk moved; the loop continues *)
| Finished (err : option IOError) (src : Conn)  (* io.Copy returned *)
| Waiting.                      (* blocked in src.Read *)

(** One iteration of [io.Copy(dst, src)]. *)
Definition copyStep (src dst : Conn) : CopyStep :=
  if rdClosed src then Finished (Some ErrUseOfClosedConn) src
  else match inbox src with
       | [] => Waiting
       | FIN :: _ => Finished None src
       | RST :: rest =>
           Finished (Some ErrConnReset)
             {| inbox := rest; sent := sent src;
                rdClosed := rdClosed src; wrClosed := wrClosed src |}
       | Data bs :: rest =>
           let src' := {| inbox := rest; sent := sent src;
                          rdClosed := rdClosed src; wrClosed := wrClosed src |} in
           if wrClosed dst then Finished (Some ErrUseOfClosedConn) src'
           else Copied src' {| inbox := inbox dst; sent := sent dst ++ bs;
                               rdClosed := rdClosed dst; wrClosed := wrClosed dst |}
       end.

(** One scheduling step of goroutine [g]; when its [io.Copy] returns, the
    deferred [conn2.Close()] and [conn1.Close()] run.  [None]: [g] has
    finished or is blocked. *)
Definition step (g : Goroutine) (st : CopyState) : option CopyState :=
  match g with
  | G1 =>
      match status1 st with
      | Done _ => None
      | Running =>
          match copyStep (conn2 st) (conn1 st) with
          | Waiting => None
          | Copied src dst =>
              Some {| conn1 := dst; conn2 := src;
                      status1 := Running; status2 := status2 st |}
          | Finished err src =>
              Some {| conn1 := connClose (conn1 st); conn2 := connClose src;
                      status1 := Done err; status2 := status2 st |}
          end
      end
  | G2 =>
      match status2 st with
      | Done _ => None
      | Running =>
          match copyStep (conn1 st) (conn2 st) with
          | Waiting => None
          | Copied src dst =>
              Some {| conn1 := src; conn2 := dst;
                      status1 := status1 st; status2 := Running |}
          | Finished err src =>
              Some {| conn1 := connClose src; conn2 := connClose (conn2 st);
                      status1 := status1 st; status2 := Done err |}
          end
      end
  end.

Definition statusOf (g : Goroutine) (st : CopyState) : GStatus :=
  match g with G1 => status1 st | G2 => status2 st end.

Definition other (g : Goroutine) : Goroutine :=
  match g with G1 => G2 | G2 => G1 end.

Definition fullyClosed (c : Conn) : bool := rdClosed c && wrClosed c.

Definition startCopy (c1 c2 : Conn) : CopyState :=
  {| conn1 := c1; conn2 := c2; status1 := Running; status2 := Running |}.

(** A run under a schedule; a goroutine that cannot move is skipped. *)
Fixpoint run (schedule : list Goroutine) (st : CopyState) : CopyState :=
  match schedule with
  | [] => st
  | g :: rest =>
      match step g st with
      | Some st' => run rest st'
      | None => run rest st
      end
  end.

(** The value [CopyBidirectional] returns once [wg.Wait()] is over. *)
Definition CopyBidirectional_result (st : CopyState) : option (option IOError) :=
  match status1 st, status2 st with
  | Done err1, Done err2 =>
      Some (match err1 with Some e => Some e | None => err2 end)
  | _, _ => None
  end.

End tunnel.


(** * Package [models] *)

Module models.

Record Tunnel : Type := mkTunnel {
  ID : string;
  Name : string;
  Token : string;
}.

Record Service : Type := mkService {
  ServiceID : string;
  TunnelID : string;
  Type_ : string;               (* "http" or "tcp" *)
  Domain : string;
  PathPrefix : string;
  TLSMode : string;
  ListenAddr : string;
  TargetAddr : string;
  Enabled : bool;
}.

(** A row of the [checks] table; the row id is assigned by the database. *)
Record Check : Type := mkCheck {
  CheckTunnelID : string;
  Status : string;              (* "up" or "down" *)
  LatencyMs : option Z;
  Error : option string;
  CreatedAt : Z;
}.

End models.

(** * Package [server]: the store, the tunnel manager and the proxy manager *)

Module server.

Import models.
Import tunnel.

(** The state the server's goroutines share: the connection objects and
    streams, [TunnelManager.connections], and the three tables of the
    store.  [checks] lists the rows in insertion order; a failing INSERT is
    outside the model. *)
Record State : Type := mkState {
  net : Net;
  connections : gmap string ConnID;
  tunnels : list Tunnel;
  services : list Service;
  checks : list Check;
}.

Definition setNet (n : Net) (st : State) : State :=
  {| net := n; connections := connections st; tunnels := tunnels st;
     services := services st; checks := checks st |}.

Definition setConnections (m : gmap string ConnID) (st : State) : State :=
  {| net := net st; connections := m; tunnels := tunnels st;
     services := services st; checks := checks st |}.

(** [NewTunnelManager(store)]: an empty connection map over a given store. *)
Definition NewTunnelManager (ts : list Tunnel) (ss : list Service)
  (cs : list Check) : State :=
  {| net := {| conns := []; streams := [] |}; connections := ∅;
     tunnels := ts; services := ss; checks := cs |}.

(** ** Store *)

(** [SELECT ... FROM tunnels WHERE token = ?], first row. *)
Definition GetTunnelByToken (tok : string) (st : State) : option Tunnel :=
  find (fun t => String.eqb (Token t) tok) (tunnels st).

(** [SELECT ... FROM services WHERE type = 'http' AND domain = ? AND enabled = 1] *)
Definition GetServiceByDomain (domain : string) (st : State) : option Service :=
  find (fun s => String.eqb (models.Type_ s) "http"
                 && String.eqb (Domain s) domain && Enabled s) (services st).

(** What the schema makes an INSERT into [checks] fail with; the store is
    opened with [_foreign_keys=on]. *)
Inductive StoreError : Type :=
| ErrCheckConstraint    (* CHECK(status IN ('up', 'down')) *)
| ErrForeignKey.        (* tunnel_id ... REFERENCES tunnels(id) *)

(** Whether [tunnels] has a row with this id. *)
Definition tunnelExists (tunnelID : string) (st : State) : bool :=
  existsb (fun t => String.eqb (ID t) tunnelID) (tunnels st).

(** [INSERT INTO checks ...]: the row is added unless a constraint of the
    schema refuses it; then the error is returned and the table is as it
    was.  Failures of the database itself are outside the model. *)
Definition CreateCheck (chk : Check) (st : State) : option StoreError * State :=
  if negb (String.eqb (Status chk) "up" || String.eqb (Status chk) "down")
  then (Some ErrCheckConstraint, st)
  else if negb (tunnelExists (CheckTunnelID chk) st)
  then (Some ErrForeignKey, st)
  else (None,
        {| net := net st; connections := connections st; tunnels := tunnels st;
           services := services st; checks := checks st ++ [chk] |}).

(** [if err := tm.store.CreateCheck(check); err != nil { log.Printf(...) }]:
    every caller in the tunnel manager logs the error and goes on. *)
Definition recordCheck (chk : Check) (st : State) : State :=
  snd (CreateCheck chk st).

(** [DELETE FROM tunnels WHERE id = ?]; the services and the checks of the
    tunnel go with it (ON DELETE CASCADE).  The connection map is not the
    store's: a link of the tunnel stays registered. *)
Definition DeleteTunnel (id : string) (st : State) : State :=
  {| net := net st; connections := connections st;
     tunnels := List.filter (fun t => negb (String.eqb (ID t) id)) (tunnels st);
     services :=
       List.filter (fun s => negb (String.eqb (TunnelID s) id)) (services st);
     checks :=
       List.filter (fun c => negb (String.eqb (CheckTunnelID c) id)) (checks st) |}.

(** [DELETE FROM checks WHERE created_at < ?] *)
Definition CleanupOldChecks (cutoff : Z) (st : State) : State :=
  {| net := net st; connections := connections st; tunnels := tunnels st;
     services := services st;
     checks := List.filter (fun c => negb (CreatedAt c <? cutoff)) (checks st) |}.

(** The three shapes of check row the tunnel manager writes. *)
Definition upCheck (tunnelID : string) (now : Z) : Check :=
  {| CheckTunnelID := tunnelID; Status := "up"; LatencyMs := None;
     Error := None; CreatedAt := now |}.

Definition downCheck (tunnelID : string) (err : option string) (now : Z) : Check :=
  {| CheckTunnelID := tunnelID; Status := "down"; LatencyMs := None;
     Error := err; CreatedAt := now |}.

Definition pingCheck (tunnelID : string) (latency : Z) (now : Z) : Check :=
  {| CheckTunnelID := tunnelID; Status := "up"; LatencyMs := Some latency;
     Error := None; CreatedAt := now |}.

(** ** TunnelManager *)

(** [registerConnection]: close the existing connection if any, then store
    the new one under the tunnel ID. *)
Definition registerConnection (tunnelID : string) (conn : ConnID) (st : State)
  : State :=
  let n1 := match connections st !! tunnelID with
            | Some existing => Close existing (net st)
            | None => net st
            end in
  setConnections (<[tunnelID := conn]> (connections st)) (setNet n1 st).

(** [unregisterConnection]: delete the entry, then record the disconnection. *)
Definition unregisterConnection (tunnelID : string) (now : Z) (st : State)
  : State :=
  recordCheck (downCheck tunnelID None now)
    (setConnections (delete tunnelID (connections st)) st).

(** [GetConnection]: [(conn, exists && !conn.IsClosed())] *)
Definition GetConnection (tunnelID : string) (st : State) : option ConnID * bool :=
  match connections st !! tunnelID with
  | Some conn => (Some conn, negb (IsClosed conn (net st)))
  | None => (None, false)
  end.

Definition IsConnected (tunnelID : string) (st : State) : bool :=
  snd (GetConnection tunnelID st).

(** [HandleWebSocket] up to the call of [handleConnection]. [upgraded] and
    [sessionOk] say whether the websocket upgrade and the yamux handshake
    succeed. *)
Inductive AcceptResult : Type :=
| Rejected (status : Z)
| UpgradeFailed
| SessionFailed
| Accepted (tunnelID : string) (conn : ConnID).

Definition HandleWebSocket_accept (tok : string) (upgraded sessionOk : bool)
  (now : Z) (st : State) : AcceptResult * State :=
  if String.eqb tok "" then (Rejected 400, st)
  else match GetTunnelByToken tok st with
       | None => (Rejected 401, st)
       | Some tunnelObj =>
           if negb upgraded then (UpgradeFailed, st)
           else if negb sessionOk then (SessionFailed, st)
           else
             let '(conn, n1) := allocConn (newConnection tok now) (net st) in
             let st1 := registerConnection (ID tunnelObj) conn (setNet n1 st) in
             let st2 := recordCheck (upCheck (ID tunnelObj) now) st1 in
             (Accepted (ID tunnelObj) conn, st2)
       end.

(** [HandleWebSocket] from the return of [handleConnection] on: the deferred
    [conn.Close()] of [handleConnection], then the deferred
    [unregisterConnection(tunnelObj.ID)]. *)
Definition HandleWebSocket_exit (tunnelID : string) (conn : ConnID) (now : Z)
  (st : State) : State :=
  unregisterConnection tunnelID now (setNet (Close conn (net st)) st).

(** One message in [handleControlMessages]; [false]: the reader returns. *)
Definition handleControlMessage (tunnelID : string) (conn : ConnID)
  (msgType : string) (latency now : Z) (st : State) : bool * State :=
  if String.eqb msgType "ping" then
    match Pong conn (net st) with
    | (Some _, n1) => (false, setNet n1 st)
    | (None, n1) => (true, recordCheck (pingCheck tunnelID latency now) (setNet n1 st))
    end
  else if String.eqb msgType "pong" then
    (true, setNet (UpdateLastPing conn now (net st)) st)
  else (true, st).

(** The body of the loop of [performHealthChecks] for one snapshot entry,
    examined at time [now]. *)
Definition healthCheck (now : Z) (tunnelID : string) (conn : ConnID)
  (st : State) : State :=
  if IsClosed conn (net st) then st
  else if now - LastPing conn (net st) >? PingInterval * 3 then
    recordCheck (downCheck tunnelID (Some "Connection timeout"%string) now)
      (setNet (Close conn (net st)) st)
  else
    match Ping conn (net st) with
    | (Some err, n1) =>
        recordCheck (downCheck tunnelID (Some (ConnError_text err)) now)
          (setNet (Close conn n1) st)
    | (None, n1) => setNet n1 st
    end.

(** [performHealthChecks] over a snapshot of the map; Go ranges over a map in
    an unspecified order, and entry [tunnelID] is examined at [clock tunnelID]. *)
Definition performHealthChecks_over (clock : string -> Z)
  (snapshot : list (string * ConnID)) (st : State) : State :=
  fold_left (fun st e => healthCheck (clock (fst e)) (fst e) (snd e) st) snapshot st.

Definition performHealthChecks (clock : string -> Z) (st : State) : State :=
  performHealthChecks_over clock (map_to_list (connections st)) st.

(** [Stop]: close every registered connection. *)
Definition Stop (st : State) : State :=
  fold_left (fun st e => setNet (Close (snd e) (net st)) st)
    (map_to_list (connections st)) st.

(** ** ProxyManager *)

(** [strings.LastIndex(s, ":")] and [strings.HasPrefix]. *)
Fixpoint LastIndex (s : string) (c : ascii) : option nat :=
  match s with
  | EmptyString => None
  | String a s' =>
      match LastIndex s' c with
      | Some i => Some (S i)
      | None => if Ascii.eqb a c then Some O else None
      end
  end.

Definition HasPrefix (s prefix : string) : bool := String.prefix prefix s.

(** "Remove port if present": [host[:colonIndex]] when there is a colon. *)
Definition stripPort (host : string) : string :=
  match LastIndex host ":"%char with
  | Some colonIndex => substring 0 colonIndex host
  | None => host
  end.

(** What the handler reads of an [*http.Request]. *)
Record Request : Type := mkRequest {
  Host : string;
  URLPath : string;
}.

Inductive HTTPOutcome : Type :=
| HTTPError (status : Z) (msg : string)   (* http.Error(w, msg, status); return *)
| Proxying (streamWithHeader : StreamID)  (* proxy.ServeHTTP(w, r) is reached *)
| HandlerPanic.          (* the handler panics; net/http recovers and goes on *)

Inductive TCPOutcome : Type :=
| TCPClosed          (* the handler returned; the deferred clientConn.Close() ran *)
| TCPCopying (streamWithHeader : StreamID)  (* CopyBidirectional is reached *)
| TCPPanic.          (* the handler goroutine panics *)

(** What becomes of the server once a TCP handler has run.  The handler
    runs in a goroutine of its own ([go pm.handleTCPConnection(...)]) and
    nothing recovers a panic there: the deferred calls run and the process
    ends.  (A panic of [handleHTTP] is recovered by [net/http], which serves
    each connection under a [recover]; the server goes on.) *)
Inductive After : Type :=
| GoesOn (st : State)           (* the server continues in this state *)
| ProcessEnds (last : State).   (* the process has ended, leaving this state *)

Section Proxy.

Variable json_Marshal : StreamHeader -> option (list byte).

(** [wrapStreamWithHeader(stream, header)]: a stream manager over a new
    zero-valued connection, and [OpenStream] on that manager. *)
Definition wrapStreamWithHeader (stream : StreamID) (header : StreamHeader)
  (n : Net) : result MuxError StreamID * Net :=
  let '(dummy, n1) := allocConn zeroConnection n in
  OpenStream json_Marshal dummy header n1.

(** [handleHTTP] *)
Definition handleHTTP (r : Request) (st : State) : HTTPOutcome * State :=
  let host := Host r in
  if String.eqb host "" then (HTTPError 400 "Missing Host header", st)
  else
    let host := stripPort host in
    match GetServiceByDomain host st with
    | None => (HTTPError 404 "Service not found", st)
    | Some service =>
        if negb (Enabled service) then (HTTPError 503 "Service disabled", st)
        else if negb (String.eqb (PathPrefix service) "/")
                && negb (HasPrefix (URLPath r) (PathPrefix service))
        then (HTTPError 404 "Path not found", st)
        else
          match GetConnection (TunnelID service) st with
          | (Some conn, true) =>
              match Open conn (net st) with
              | (Ok stream, n1) =>
                  let header := {| tunnel.Type_ := "http";
                                   Target := TargetAddr service |} in
                  (* the deferred stream.Close() runs on every return below
                     and while panicking *)
                  match wrapStreamWithHeader stream header n1 with
                  | (Ok streamWithHeader, n2) =>
                      (Proxying streamWithHeader, setNet n2 st)
                  | (Err _, n2) =>
                      (HTTPError 503 "Service unavailable",
                       setNet (streamClose stream n2) st)
                  | (Panic, n2) =>
                      (HandlerPanic, setNet (streamClose stream n2) st)
                  end
              | (Err _, n1) =>
                  (HTTPError 503 "Service unavailable", setNet n1 st)
              | (Panic, n1) => (HandlerPanic, setNet n1 st)
              end
          | _ => (HTTPError 503 "Service unavailable", st)
          end
    end.

(** [handleTCPConnection(clientConn, service)] *)
Definition handleTCPConnection (service : Service) (st : State)
  : TCPOutcome * After :=
  match GetConnection (TunnelID service) st with
  | (Some conn, true) =>
      match Open conn (net st) with
      | (Ok stream, n1) =>
          let header := {| tunnel.Type_ := "tcp";
                           Target := TargetAddr service |} in
          match wrapStreamWithHeader stream header n1 with
          | (Ok streamWithHeader, n2) =>
              (TCPCopying streamWithHeader, GoesOn (setNet n2 st))
          | (Err _, n2) =>
              (TCPClosed, GoesOn (setNet (streamClose stream n2) st))
          | (Panic, n2) =>
              (TCPPanic, ProcessEnds (setNet (streamClose stream n2) st))
          end
      | (Err _, n1) => (TCPClosed, GoesOn (setNet n1 st))
      | (Panic, n1) => (TCPPanic, ProcessEnds (setNet n1 st))
      end
  | _ => (TCPClosed, GoesOn st)
  end.

End Proxy.

(** ** The server as a transition system *)

(** The atomic actions of the server's goroutines and of its environment.
    Every function above is a sequence of these; the goroutines interleave
    at their boundaries. *)
Inductive Event : Type :=
| EvRegister (tunnelID tok : string) (now : Z)
    (* NewConnection, then registerConnection under the lock *)
| EvUnregister (tunnelID : string) (now : Z)      (* unregisterConnection *)
| EvCreateCheck (chk : Check)                     (* store.CreateCheck *)
| EvDeleteTunnel (id : string)                    (* store.DeleteTunnel *)
| EvCleanup (cutoff : Z)                          (* store.CleanupOldChecks *)
| EvClose (conn : ConnID)                         (* conn.Close() *)
| EvUpdateLastPing (conn : ConnID) (now : Z)      (* conn.UpdateLastPing() *)
| EvSend (msg : TunnelMessage) (conn : ConnID)    (* conn.SendMessage(msg) *)
| EvHealthCheck (now : Z) (tunnelID : string) (conn : ConnID)
    (* one iteration of the loop of performHealthChecks *)
| EvWsFault (conn : ConnID) (e : option string)   (* the websocket breaks *)
| EvSessionShutdown (conn : ConnID)               (* yamux gives up *)
| EvAllocZero                                     (* &tunnel.Connection{} *)
| EvOpen (conn : ConnID)                          (* conn.Open() *)
| EvStreamWrite (s : StreamID) (buf : list byte)  (* stream.Write(buf) *)
| EvStreamClose (s : StreamID).                   (* stream.Close() *)

Definition setEnv (conn : ConnID) (f : Connection -> Connection) (n : Net) : Net :=
  match conns n !! conn with
  | Some x => setConn conn (f x) n
  | None => n
  end.

Definition apply_event (ev : Event) (st : State) : State :=
  match ev with
  | EvRegister tunnelID tok now =>
      let '(conn, n1) := allocConn (newConnection tok now) (net st) in
      registerConnection tunnelID conn (setNet n1 st)
  | EvUnregister tunnelID now => unregisterConnection tunnelID now st
  | EvCreateCheck chk => recordCheck chk st
  | EvDeleteTunnel id => DeleteTunnel id st
  | EvCleanup cutoff => CleanupOldChecks cutoff st
  | EvClose conn => setNet (Close conn (net st)) st
  | EvUpdateLastPing conn now => setNet (UpdateLastPing conn now (net st)) st
  | EvSend msg conn => setNet (snd (SendMessage msg conn (net st))) st
  | EvHealthCheck now tunnelID conn => healthCheck now tunnelID conn st
  | EvWsFault conn e =>
      setNet (setEnv conn (fun x =>
        {| session := session x; token := token x; closed := closed x;
           lastPing := lastPing x; outbox := outbox x; wsFault := e |}) (net st)) st
  | EvSessionShutdown conn =>
      setNet (setEnv conn (fun x =>
        {| session := (fun _ => {| shutdown := true |}) <$> session x;
           token := token x; closed := closed x; lastPing := lastPing x;
           outbox := outbox x; wsFault := wsFault x |}) (net st)) st
  | EvAllocZero => setNet (snd (allocConn zeroConnection (net st))) st
  | EvOpen conn => setNet (snd (Open conn (net st))) st
  | EvStreamWrite s buf => setNet (snd (streamWrite s buf (net st))) st
  | EvStreamClose s => setNet (streamClose s (net st)) st
  end.

Definition run_events (evs : list Event) (st : State) : State :=
  fold_left (fun st ev => apply_event ev st) evs st.

(** The states the server can be in: those reached from a fresh tunnel
    manager by any interleaving of the actions. *)
Inductive reachable : State -> Prop :=
| reachable_init ts ss cs : reachable (NewTunnelManager ts ss cs)
| reachable_step ev st : reachable st -> reachable (apply_event ev st).

(** The live links the registry holds for a tunnel: the entries of the
    connection map under that tunnel ID whose connection is not closed. *)
Definition liveLinks (tunnelID : string) (st : State) : list ConnID :=
  omap (fun e : string * ConnID =>
          if decide (fst e = tunnelID) then
            if IsClosed (snd e) (net st) then None else Some (snd e)
          else None)
       (map_to_list (connections st)).

End server.

(** * A JSON codec for headers whose fields need no escaping

    On strings made of printable ASCII other than the quote, the backslash
    and the three characters [encoding/json] escapes for HTML, Go emits the
    field bytes verbatim between quotes, in declaration order. *)

Module plainjson.

Import tunnel.

Definition quote : byte := x22.

Definition plainByte (b : byte) : bool :=
  let n := Byte.to_N b in
  (32 <=? n)%N && (n <=? 126)%N
  && negb (Byte.eqb b x22) && negb (Byte.eqb b x5c)
  && negb (Byte.eqb b x3c) && negb (Byte.eqb b x3e) && negb (Byte.eqb b x26).

(** The bytes [{"type":"] and [","target":"] and ["}]. *)
Definition openType : list byte :=
  [x7b; quote] ++ list_byte_of_string "type" ++ [quote; x3a; quote].
Definition openTarget : list byte :=
  [quote; x2c; quote] ++ list_byte_of_string "target" ++ [quote; x3a; quote].
Definition closeObject : list byte := [quote; x7d].

Definition Marshal (h : StreamHeader) : option (list byte) :=
  let ty := list_byte_of_string (Type_ h) in
  let tg := list_byte_of_string (Target h) in
  if forallb plainByte ty && forallb plainByte tg
  then Some (openType ++ ty ++ openTarget ++ tg ++ closeObject)
  else None.

Fixpoint stripPrefix (p l : list byte) : option (list byte) :=
  match p, l with
  | [], _ => Some l
  | a :: p', b :: l' => if Byte.eqb a b then stripPrefix p' l' else None
  | _ :: _, [] => None
  end.

(** The plain bytes up to the next quote, and the input from that quote on. *)
Fixpoint spanPlain (l : list byte) : list byte * list byte :=
  match l with
  | [] => ([], [])
  | b :: l' =>
      if plainByte b then let '(s, rest) := spanPlain l' in (b :: s, rest)
      else ([], l)
  end.

Definition Unmarshal (body : list byte) : option StreamHeader :=
  match stripPrefix openType body with
  | None => None
  | Some l1 =>
      let '(ty, l2) := spanPlain l1 in
      match stripPrefix openTarget l2 with
      | None => None
      | Some l3 =>
          let '(tg, l4) := spanPlain l3 in
          match stripPrefix closeObject l4 with
          | Some [] => Some {| Type_ := string_of_list_byte ty;
                               Target := string_of_list_byte tg |}
          | _ => None
          end
      end
  end.

End plainjson.

(** * The scenarios of the design document, as concrete states *)

Module scenario.

Import models.
Import tunnel.
Import server.

Definition T1 : Tunnel := {| ID := "T1"; Name := "app"; Token := "tok1" |}.

Definition appService : Service :=
  {| ServiceID := "S1"; TunnelID := "T1"; models.Type_ := "http";
     Domain := "app.example.com"; PathPrefix := "/"; TLSMode := "terminate";
     ListenAddr := ""; TargetAddr := "127.0.0.1:9000"; Enabled := true |}.

Definition sshService : Service :=
  {| ServiceID := "S2"; TunnelID := "T1"; models.Type_ := "tcp";
     Domain := ""; PathPrefix := "/"; TLSMode := "terminate";
     ListenAddr := "0.0.0.0:2222"; TargetAddr := "127.0.0.1:22"; Enabled := true |}.

(** A server with the catalog loaded and no agent connected. *)
Definition fresh : State := NewTunnelManager [T1] [appService; sshService] [].

(** Agent A has completed the handshake at time 1: connection object 0. *)
Definition connectedA : State :=
  run_events [EvRegister "T1" "tok1" 1; EvCreateCheck (upCheck "T1" 1)] fresh.

(** A second agent A' has completed the handshake with the same token at
    time 2: connection object 1. *)
Definition displaced : State :=
  run_events [EvRegister "T1" "tok1" 2; EvCreateCheck (upCheck "T1" 2)] connectedA.

(** The handler of A has noticed that its connection is closed and has
    returned, at time 3. *)
Definition afterExitA : State :=
  run_events [EvClose 0%nat; EvUnregister "T1" 3] displaced.

(** The tunnel has been deleted through the API while agent A is connected
    ([deleteTunnel] stops the listeners and deletes the row; it does not
    touch the connection map): its rows are gone, its link is still
    registered. *)
Definition deletedT1 : State := run_events [EvDeleteTunnel "T1"] connectedA.

(** Agent A has been silent until time [1 + 91 s]. *)
Definition staleTime : Z := 1 + 91 * Second.

Definition request : Request := {| Host := "app.example.com:80"; URLPath := "/" |}.

Definition header : StreamHeader :=
  {| tunnel.Type_ := "http"; Target := "127.0.0.1:9000" |}.

(** A websocket on which two binary frames have arrived. *)
Definition twoFrames : WebSocketConn :=
  {| inbound := [[x01; x02]; [x03]]; wsDown := false; reader := None |}.

(** An ingress connection whose client still has a byte to send, and a
    stream whose far end has finished sending. *)
Definition client : Conn :=
  {| inbox := [Data [x41]]; sent := []; rdClosed := false; wrClosed := false |}.
Definition finishedStream : Conn :=
  {| inbox := [FIN]; sent := []; rdClosed := false; wrClosed := false |}.

End scenario.

(** * What the design document asks of the bidirectional copy

    "A well-behaved proxy closes the write half of each side when the other
    side reports EOF, so that a remote peer observing EOF can flush and exit
    cleanly": after the copy from [conn2] to [conn1] has seen the end of
    [conn2], [conn1] can no longer be written but can still be read, and
    [conn2] can still be written. *)
Definition spec_half_close (st : tunnel.CopyState) : Prop :=
  tunnel.status1 st = tunnel.Done None ->
  tunnel.wrClosed (tunnel.conn1 st) = true /\
  tunnel.rdClosed (tunnel.conn1 st) = false /\
  tunnel.wrClosed (tunnel.conn2 st) = false.

(** * Invariants of the registry *)

(** Registered pointers are to allocated objects, and no connection object is
    registered under two tunnel IDs. *)
Definition registry_wf (st : server.State) : Prop :=
  (forall T c, server.connections st !! T = Some c ->
               (c < length (tunnel.conns (server.net st)))%nat) /\
  (forall T1 T2 c, server.connections st !! T1 = Some c ->
                   server.connections st !! T2 = Some c -> T1 = T2).

(** * What one probe does to one link

    The state of connection [c], open with contents [x] when the tick
    started, and the rows added for its tunnel [T], once entry [(T, c)] has
    been examined at time [now]. *)
Definition pingMessage : tunnel.TunnelMessage :=
  {| tunnel.msgType := "ping"; tunnel.msgTarget := "" |}.

Definition withPing (x : tunnel.Connection) : tunnel.Connection :=
  {| tunnel.session := tunnel.session x; tunnel.token := tunnel.token x;
     tunnel.closed := tunnel.closed x; tunnel.lastPing := tunnel.lastPing x;
     tunnel.outbox := tunnel.outbox x ++ [pingMessage];
     tunnel.wsFault := tunnel.wsFault x |}.

Definition probed (now : Z) (T : string) (c : tunnel.ConnID)
  (x : tunnel.Connection) (recorded : bool) (n' : tunnel.Net)
  (added : list models.Check) : Prop :=
  if now - tunnel.lastPing x >? tunnel.PingInterval * 3 then
    tunnel.IsClosed c n' = true /\
    (recorded = true ->
     server.downCheck T (Some "Connection timeout"%string) now ∈ added)
  else
    match tunnel.wsFault x with
    | Some e =>
        tunnel.IsClosed c n' = true /\
        (recorded = true -> server.downCheck T (Some e) now ∈ added)
    | None => tunnel.conns n' !! c = Some (withPing x)
    end.

(** * The rest of the tunnel manager, the listener table and the API *)

Module manager.

Import models.
Import tunnel.
Import server.

(** [ListConnectedTunnels]: the IDs whose registered connection is not
    closed, in the order the map is ranged over. *)
Definition ListConnectedTunnels (st : State) : list string :=
  omap (fun e : string * ConnID =>
          if IsClosed (snd e) (net st) then None else Some (fst e))
       (map_to_list (connections st)).

(** One firing of the ticker of [cleanupRoutine] at time [now]:
    [CleanupOldChecks(time.Hour * 24 * 30 * 6)]. *)
Definition Hour : Z := 3600 * Second.
Definition maxCheckAge : Z := Hour * 24 * 30 * 6.

Definition cleanupTick (now : Z) (st : State) : State :=
  CleanupOldChecks (now - maxCheckAge) st.

End manager.

Module proxy.

Import models.

(** [ProxyManager.tcpListeners]: listen address to listener.  A listener is
    known by the service record its accept loop was started with. *)
Inductive ListenError : Type :=
| ErrListenerExists (addr : string)   (* "TCP listener already exists for %s" *)
| ErrListenFailed (addr : string).    (* "failed to listen on %s" *)

Section Listen.

(** [net.Listen("tcp", addr)] succeeds or not as the operating system decides. *)
Variable canListen : string -> bool.

(** [startTCPListener] *)
Definition startTCPListener (service : Service) (ls : gmap string Service)
  : option ListenError * gmap string Service :=
  match ls !! ListenAddr service with
  | Some _ => (Some (ErrListenerExists (ListenAddr service)), ls)
  | None =>
      if canListen (ListenAddr service)
      then (None, <[ListenAddr service := service]> ls)
      else (Some (ErrListenFailed (ListenAddr service)), ls)
  end.

(** The test of [AddTCPService] and of [startTCPListeners]. *)
Definition wantsListener (service : Service) : bool :=
  String.eqb (models.Type_ service) "tcp" && Enabled service
  && negb (String.eqb (ListenAddr service) "").

(** [AddTCPService] *)
Definition AddTCPService (service : Service) (ls : gmap string Service)
  : option ListenError * gmap string Service :=
  if wantsListener service then startTCPListener service ls else (None, ls).

(** [RemoveTCPService]: close and forget the listener on the service's
    listen address, if there is one. *)
Definition RemoveTCPService (service : Service) (ls : gmap string Service)
  : gmap string Service :=
  match ls !! ListenAddr service with
  | Some _ => delete (ListenAddr service) ls
  | None => ls
  end.

(** [startTCPListeners] over the services in the order the two nested loops
    visit them; a listener that cannot be started is logged and skipped. *)
Definition startTCPListeners_over (svcs : list Service) (ls : gmap string Service)
  : gmap string Service :=
  fold_left (fun ls service =>
               if wantsListener service then snd (startTCPListener service ls)
               else ls) svcs ls.

End Listen.

End proxy.

Module api.

Import models.

(** [CreateServiceRequest] *)
Record CreateServiceRequest : Type := mkCreateServiceRequest {
  reqType : string;
  reqDomain : string;
  reqPathPrefix : string;
  reqTLSMode : string;
  reqListenAddr : string;
  reqTargetAddr : string;
  reqEnabled : bool;
}.

(** The validation of [createService]: the first failing test gives the
    message of the 400 response. *)
Definition validateCreateService (req : CreateServiceRequest) : option string :=
  if negb (String.eqb (reqType req) "http") && negb (String.eqb (reqType req) "tcp")
  then Some "Type must be 'http' or 'tcp'"%string
  else if String.eqb (reqTargetAddr req) ""
  then Some "Target address is required"%string
  else if String.eqb (reqType req) "http" && String.eqb (reqDomain req) ""
  then Some "Domain is required for HTTP services"%string
  else if String.eqb (reqType req) "tcp" && String.eqb (reqListenAddr req) ""
  then Some "Listen address is required for TCP services"%string
  else None.

(** The record [createService] stores for a valid request, with the two
    defaults filled in; [id] is the generated ID. *)
Definition newService (id tunnelID : string) (req : CreateServiceRequest) : Service :=
  {| ServiceID := id; TunnelID := tunnelID; models.Type_ := reqType req;
     Domain := reqDomain req;
     PathPrefix := if String.eqb (reqPathPrefix req) "" then "/"%string
                   else reqPathPrefix req;
     TLSMode := if String.eqb (reqTLSMode req) "" then "terminate"%string
                else reqTLSMode req;
     ListenAddr := reqListenAddr req; TargetAddr := reqTargetAddr req;
     Enabled := reqEnabled req |}.

Definition createService_record (id tunnelID : string) (req : CreateServiceRequest)
  : result string Service :=
  match validateCreateService req with
  | Some msg => Err msg
  | None => Ok (newService id tunnelID req)
  end.

(** [UpdateServiceRequest]: a nil pointer is [None]. *)
Record UpdateServiceRequest : Type := mkUpdateServiceRequest {
  updDomain : option string;
  updPathPrefix : option string;
  updTLSMode : option string;
  updListenAddr : option string;
  updTargetAddr : option string;
  updEnabled : option bool;
}.

(** The field updates of [updateService]: the updated record and
    [needsTCPRestart]. *)
Definition applyUpdate (service : Service) (req : UpdateServiceRequest)
  : Service * bool :=
  let isTCP := String.eqb (models.Type_ service) "tcp" in
  ({| ServiceID := ServiceID service; TunnelID := TunnelID service;
      models.Type_ := models.Type_ service;
      Domain := default (Domain service) (updDomain req);
      PathPrefix := default (PathPrefix service) (updPathPrefix req);
      TLSMode := default (TLSMode service) (updTLSMode req);
      ListenAddr := default (ListenAddr service) (updListenAddr req);
      TargetAddr := default (TargetAddr service) (updTargetAddr req);
      Enabled := default (Enabled service) (updEnabled req) |},
   match updEnabled req, updListenAddr req with
   | Some _, _ => isTCP
   | None, Some _ => isTCP
   | None, None => false
   end).

(** The listener changes of [updateService] for the record read from the
    store, once the store has taken the update: remove the listener on the
    old address, add one for the updated record. *)
Definition updateService_listeners (canListen : string -> bool)
  (service : Service) (req : UpdateServiceRequest) (ls : gmap string Service)
  : Service * gmap string Service :=
  let oldListenAddr := ListenAddr service in
  let '(updated, needsTCPRestart) := applyUpdate service req in
  if needsTCPRestart then
    let ls1 :=
      if negb (String.eqb oldListenAddr "") then
        proxy.RemoveTCPService
          {| ServiceID := ServiceID updated; TunnelID := TunnelID updated;
             models.Type_ := models.Type_ updated; Domain := Domain updated;
             PathPrefix := PathPrefix updated; TLSMode := TLSMode updated;
             ListenAddr := oldListenAddr; TargetAddr := TargetAddr updated;
             Enabled := Enabled updated |} ls
      else ls in
    (updated, snd (proxy.AddTCPService canListen updated ls1))
  else (updated, ls).

(** The [limit] of [getChecks]: [parsed] is the result of [strconv.Atoi] on
    the query parameter, [None] when the parameter is empty or not a number. *)
Definition checksLimit (parsed : option Z) : Z :=
  match parsed with
  | Some l => if (l >? 0) && (l <=? 1000) then l else 100
  | None => 100
  end.

End api.

(** The listener table is well formed when every listener is filed under
    the listen address of the service it serves, and that service is an
    enabled TCP service with a listen address. *)
Definition listeners_wf (ls : gmap string models.Service) : Prop :=
  forall addr service,
    ls !! addr = Some service ->
    models.ListenAddr service = addr /\ proxy.wantsListener service = true.

(** * Package [client]: the reconnect loop *)

Module client.

Import tunnel.

Definition Minute : Z := 60 * Second.
Definition maxBackoff : Z := Minute * 5.

(** An [int64] product wraps around. *)
Definition wrap64 (z : Z) : Z := (z + 2 ^ 63) mod 2 ^ 64 - 2 ^ 63.

(** [backoff *= 2; if backoff > maxBackoff { backoff = maxBackoff }] *)
Definition backoffAfterFailure (backoff : Z) : Z :=
  let backoff := wrap64 (backoff * 2) in
  if backoff >? maxBackoff then maxBackoff else backoff.

(** The backoff the loop holds after one reconnection attempt. *)
Definition afterAttempt (backoff : Z) (connected : bool) : Z :=
  if connected then Second else backoffAfterFailure backoff.

(** The backoff after a sequence of attempts, from the initial one second. *)
Definition backoffAfter (attempts : list bool) : Z :=
  fold_left afterAttempt attempts Second.

(** The handler types [connect] registers with the stream manager. *)
Definition registeredHandlers : gset string := {[ "http"%string; "tcp"%string ]}.

End client.

(** * Byte streams seen through the adapters *)

(** What a [WebSocketConn] still has to deliver: the rest of the current
    frame, then the frames that have arrived. *)
Definition pendingBytes (w : tunnel.WebSocketConn) : list byte :=
  default [] (tunnel.reader w) ++ concat (tunnel.inbound w).

Definition dataOf (o : tunnel.ReadOutcome) : list byte :=
  match o with
  | tunnel.Returned data _ => data
  | tunnel.Blocked => []
  end.

(** A bound on the number of [Read]s that still return something. *)
Definition readsLeft (w : tunnel.WebSocketConn) : nat :=
  match tunnel.reader w with
  | Some r => S (length r)
  | None => O
  end + list_sum (map (fun f => length f + 2)%nat (tunnel.inbound w)).

(** The payloads of the leading [Data] chunks of an inbox, as chunks. *)
Definition asData (chunks : list (list byte)) : list tunnel.Chunk :=
  map tunnel.Data chunks.

(** * Properties *)

(** ** Bytes and lengths *)

Lemma Z_of_byte_of_Z (x : Z) : Z_of_byte (byte_of_Z x) = x mod 256.
Proof.
  unfold Z_of_byte, byte_of_Z.
  assert (Hb : 0 <= x mod 256 < 256) by (apply Z.mod_pos_bound; lia).
  destruct (Byte.of_N (Z.to_N (x mod 256))) as [b|] eqn:E.
  - apply Byte.to_of_N in E. rewrite E. rewrite Z2N.id; lia.
  - apply Byte.of_N_None_iff in E. lia.
Qed.

Lemma Z_of_byte_range (b : byte) : 0 <= Z_of_byte b < 256.
Proof.
  unfold Z_of_byte. pose proof (Byte.to_N_bounded b). lia.
Qed.

(** The two length bytes [OpenStream] writes are read back by
    [handleStream] as the same length. *)
Lemma header_length_bytes (len : Z) :
  0 <= len <= 65535 ->
  Z.lor (Z.shiftl (Z_of_byte (byte_of_Z (Z.shiftr len 8))) 8)
        (Z_of_byte (byte_of_Z (Z.land len 255))) = len.
Proof.
  intros Hlen. rewrite !Z_of_byte_of_Z.
  change 255 with (Z.ones 8). rewrite Z.land_ones by lia.
  rewrite Z.shiftr_div_pow2 by lia.
  change (2 ^ 8) with 256.
  rewrite (Z.mod_small (len / 256) 256)
    by (split; [apply Z.div_pos; lia | apply Z.div_lt_upper_bound; lia]).
  rewrite Zmod_mod.
  rewrite Z.shiftl_mul_pow2 by lia. change (2 ^ 8) with 256.
  assert (Hland : Z.land (len / 256 * 256) (len mod 256) = 0).
  { apply Z.bits_inj'. intros n Hn. rewrite Z.land_spec, Z.bits_0.
    destruct (Z.ltb_spec n 8).
    - change (len / 256 * 256) with (len / 256 * 2 ^ 8).
      rewrite Z.mul_pow2_bits_low by lia. reflexivity.
    - change (len mod 256) with (len mod 2 ^ 8).
      rewrite Z.mod_pow2_bits_high by lia.
      apply andb_false_r. }
  pose proof (Z.add_lor_land (len / 256 * 256) (len mod 256)) as Hadd.
  rewrite Hland, Z.add_0_r in Hadd. rewrite Hadd.
  pose proof (Z.div_mod len 256). lia.
Qed.

(** ** Stream header framing *)

Lemma ReadFull_app (l rest : list byte) :
  tunnel.ReadFull (length l) (l ++ rest) = Some (l, rest).
Proof.
  unfold tunnel.ReadFull.
  rewrite length_app.
  destruct (Nat.leb_spec (length l) (length l + length rest)); [|lia].
  by rewrite take_app_length, drop_app_length.
Qed.

Lemma ReadFull_short (n : nat) (input : list byte) :
  (length input < n)%nat -> tunnel.ReadFull n input = None.
Proof.
  intros H. unfold tunnel.ReadFull.
  destruct (Nat.leb_spec n (length input)); [lia | done].
Qed.

(** What [frameHeader] produces, and when. *)
Lemma frameHeader_Ok (body : list byte) :
  Z.of_nat (length body) <= 65535 ->
  tunnel.frameHeader body =
    Ok (byte_of_Z (Z.shiftr (Z.of_nat (length body)) 8)
        :: byte_of_Z (Z.land (Z.of_nat (length body)) 255)
        :: body ++ [newline]).
Proof.
  intros H. unfold tunnel.frameHeader.
  destruct (Z.gtb_spec (Z.of_nat (length body)) 65535); [lia | done].
Qed.

Lemma frameHeader_too_large (body : list byte) :
  65535 < Z.of_nat (length body) ->
  tunnel.frameHeader body = Err (tunnel.ErrHeaderTooLarge (Z.of_nat (length body))).
Proof.
  intros H. unfold tunnel.frameHeader.
  destruct (Z.gtb_spec (Z.of_nat (length body)) 65535); [done | lia].
Qed.

(** The reader's view of an input that starts with two length bytes. *)
Lemma readHeaderBody_cons (b0 b1 : byte) (rest : list byte) :
  tunnel.readHeaderBody (b0 :: b1 :: rest) =
    let headerLen := Z.lor (Z.shiftl (Z_of_byte b0) 8) (Z_of_byte b1) in
    if (headerLen =? 0) || (headerLen >? 65535) then
      Err (tunnel.ErrInvalidHeaderLength headerLen)
    else
      match tunnel.ReadFull (Z.to_nat headerLen + 1) rest with
      | Some (headerBuf, rest') =>
          match nth_error headerBuf (Z.to_nat headerLen) with
          | Some c =>
              if Byte.eqb c newline
              then Ok (firstn (Z.to_nat headerLen) headerBuf, rest')
              else Err tunnel.ErrNotNewlineTerminated
          | None => Panic
          end
      | None => Err tunnel.ErrReadHeader
      end.
Proof. reflexivity. Qed.

(** A body followed by any terminator byte [c]: accepted exactly when [c]
    is the newline. *)
Lemma readHeaderBody_body (b0 b1 c : byte) (body payload : list byte) :
  Z.lor (Z.shiftl (Z_of_byte b0) 8) (Z_of_byte b1) = Z.of_nat (length body) ->
  1 <= Z.of_nat (length body) <= 65535 ->
  tunnel.readHeaderBody (b0 :: b1 :: body ++ c :: payload) =
    if Byte.eqb c newline then Ok (body, payload)
    else Err tunnel.ErrNotNewlineTerminated.
Proof.
  intros Hlen Hrange. rewrite readHeaderBody_cons. cbv zeta. rewrite Hlen.
  destruct (Z.eqb_spec (Z.of_nat (length body)) 0); [lia|].
  destruct (Z.gtb_spec (Z.of_nat (length body)) 65535); [lia|].
  cbn [orb]. rewrite Nat2Z.id.
  replace (body ++ c :: payload) with ((body ++ [c]) ++ payload)
    by (by rewrite <- app_assoc).
  replace (length body + 1)%nat with (length (body ++ [c]))
    by (rewrite length_app; reflexivity).
  rewrite ReadFull_app.
  rewrite nth_error_app2 by lia. rewrite Nat.sub_diag. cbn [nth_error].
  by rewrite take_app_length.
Qed.

(** The framing layer alone: every body of 1 to 65535 bytes, the two
    boundaries included, is read back unchanged, with the rest of the stream
    left for the handler. *)
Lemma frame_roundtrip (body payload : list byte) :
  1 <= Z.of_nat (length body) <= 65535 ->
  exists wire,
    tunnel.frameHeader body = Ok wire /\
    length wire = (2 + length body + 1)%nat /\
    tunnel.readHeaderBody (wire ++ payload) = Ok (body, payload).
Proof.
  intros Hrange. eexists. split; [apply frameHeader_Ok; lia|]. split.
  - cbn [length]. rewrite length_app. cbn [length]. lia.
  - cbn [app]. rewrite <- app_assoc. cbn [app].
    rewrite readHeaderBody_body; [reflexivity | | lia].
    apply header_length_bytes. lia.
Qed.

(** A length field of zero is refused before anything else is read. *)
Lemma readHeaderBody_zero_length (rest : list byte) :
  tunnel.readHeaderBody (x00 :: x00 :: rest) = Err (tunnel.ErrInvalidHeaderLength 0).
Proof. reflexivity. Qed.

(** The plain codec decodes what it encodes. *)
Lemma spanPlain_app (s rest : list byte) :
  forallb plainjson.plainByte s = true ->
  plainjson.spanPlain (s ++ plainjson.quote :: rest) = (s, plainjson.quote :: rest).
Proof.
  induction s as [|b s IH]; intros H.
  - reflexivity.
  - cbn [forallb] in H. apply andb_prop in H as [Hb Hs].
    cbn [app plainjson.spanPlain]. rewrite Hb, (IH Hs). reflexivity.
Qed.

Lemma stripPrefix_app (p l : list byte) :
  plainjson.stripPrefix p (p ++ l) = Some l.
Proof.
  induction p as [|a p IH]; [reflexivity|].
  cbn [app plainjson.stripPrefix]. by rewrite Byte.byte_dec_lb.
Qed.

Lemma plainjson_Unmarshal_plain (ty tg : list byte) :
  forallb plainjson.plainByte ty = true ->
  forallb plainjson.plainByte tg = true ->
  plainjson.Unmarshal
    (plainjson.openType ++ ty ++ plainjson.openTarget ++ tg ++ plainjson.closeObject)
  = Some {| tunnel.Type_ := string_of_list_byte ty;
            tunnel.Target := string_of_list_byte tg |}.
Proof.
  intros Hty Htg. unfold plainjson.Unmarshal.
  rewrite stripPrefix_app.
  assert (Hq : forall l : list byte,
             plainjson.openTarget ++ l
             = plainjson.quote :: (tl plainjson.openTarget ++ l)) by reflexivity.
  rewrite Hq at 1. rewrite (spanPlain_app _ _ Hty). rewrite <- Hq.
  rewrite stripPrefix_app.
  change (tg ++ plainjson.closeObject) with (tg ++ plainjson.quote :: [x7d]).
  rewrite (spanPlain_app _ _ Htg).
  reflexivity.
Qed.

Lemma plainjson_roundtrip (h : tunnel.StreamHeader) (body : list byte) :
  plainjson.Marshal h = Some body -> plainjson.Unmarshal body = Some h.
Proof.
  unfold plainjson.Marshal. intros H.
  destruct (forallb plainjson.plainByte (list_byte_of_string (tunnel.Type_ h))) eqn:Hty;
    [|discriminate].
  destruct (forallb plainjson.plainByte (list_byte_of_string (tunnel.Target h))) eqn:Htg;
    [|discriminate].
  cbn [andb] in H.
  assert (Hbody : body =
            plainjson.openType ++ list_byte_of_string (tunnel.Type_ h) ++
            plainjson.openTarget ++ list_byte_of_string (tunnel.Target h) ++
            plainjson.closeObject) by congruence.
  rewrite Hbody, (plainjson_Unmarshal_plain _ _ Hty Htg).
  rewrite !string_of_list_byte_of_string. by destruct h.
Qed.

(** C5. Encoding a stream header (two big-endian length bytes, the JSON
    body of [L] bytes, one newline) and decoding it again recovers the same
    [{type, target}] whenever [1 <= L <= 65535], the boundaries [L = 1] and
    [L = 65535] included; a body of length 0 is refused by the decoder and a
    body of length 65536 by the encoder; a frame whose byte after the body
    is not a newline is refused.  The JSON codec is any pair of functions
    that agree on the header at hand. *)
Theorem stream_header_roundtrip
  (json_Marshal : tunnel.StreamHeader -> option (list byte))
  (json_Unmarshal : list byte -> option tunnel.StreamHeader)
  (header : tunnel.StreamHeader) (body : list byte) :
  json_Marshal header = Some body ->
  (1 <= Z.of_nat (length body) <= 65535 ->
   json_Unmarshal body = Some header ->
   exists b0 b1,
     tunnel.encodeHeader json_Marshal header = Ok (b0 :: b1 :: body ++ [newline]) /\
     Z_of_byte b0 * 256 + Z_of_byte b1 = Z.of_nat (length body) /\
     forall payload,
       tunnel.decodeHeader json_Unmarshal ((b0 :: b1 :: body ++ [newline]) ++ payload)
       = Ok (header, payload)) /\
  (Z.of_nat (length body) = 0 ->
   exists wire,
     tunnel.encodeHeader json_Marshal header = Ok wire /\
     forall payload,
       tunnel.decodeHeader json_Unmarshal (wire ++ payload)
       = Err (tunnel.ErrInvalidHeaderLength 0)) /\
  (Z.of_nat (length body) = 65536 ->
   tunnel.encodeHeader json_Marshal header = Err (tunnel.ErrHeaderTooLarge 65536)) /\
  (1 <= Z.of_nat (length body) <= 65535 ->
   forall b0 b1 c payload,
     tunnel.encodeHeader json_Marshal header = Ok (b0 :: b1 :: body ++ [newline]) ->
     c <> newline ->
     tunnel.decodeHeader json_Unmarshal (b0 :: b1 :: body ++ c :: payload)
     = Err tunnel.ErrNotNewlineTerminated).
Proof.
  intros Hm. unfold tunnel.encodeHeader, tunnel.decodeHeader. rewrite Hm.
  repeat split.
  - intros Hrange Hu. do 2 eexists. split; [apply frameHeader_Ok; lia|].
    pose proof (header_length_bytes (Z.of_nat (length body))) as Hlen.
    split.
    + rewrite !Z_of_byte_of_Z.
      change 255 with (Z.ones 8). rewrite Z.land_ones, Z.shiftr_div_pow2 by lia.
      change (2 ^ 8) with 256. rewrite Zmod_mod.
      rewrite (Z.mod_small (_ / 256) 256)
        by (split; [apply Z.div_pos; lia | apply Z.div_lt_upper_bound; lia]).
      pose proof (Z.div_mod (Z.of_nat (length body)) 256). lia.
    + intros payload. cbn [app]. rewrite <- app_assoc. cbn [app].
      rewrite readHeaderBody_body by (try apply Hlen; lia).
      cbn. by rewrite Hu.
  - intros H0. destruct body; [|cbn in H0; lia].
    eexists. split; [reflexivity|]. intros payload. reflexivity.
  - intros H. rewrite frameHeader_too_large by lia. by rewrite H.
  - intros Hrange b0 b1 c payload He Hc.
    rewrite frameHeader_Ok in He by lia. injection He as Hb0 Hb1.
    rewrite readHeaderBody_body; [| |lia].
    + destruct (Byte.eqb c newline) eqn:E; [|reflexivity].
      apply Byte.byte_dec_bl in E. contradiction.
    + subst b0 b1. apply header_length_bytes. lia.
Qed.

Lemma stream_header_roundtrip_witness :
  exists b0 b1 body,
    plainjson.Marshal scenario.header = Some body /\
    tunnel.encodeHeader plainjson.Marshal scenario.header
    = Ok (b0 :: b1 :: body ++ [newline]) /\
    tunnel.decodeHeader plainjson.Unmarshal
      ((b0 :: b1 :: body ++ [newline]) ++ [x47; x45; x54])
    = Ok (scenario.header, [x47; x45; x54]).
Proof.
  destruct (stream_header_roundtrip plainjson.Marshal plainjson.Unmarshal
              scenario.header _ eq_refl) as [Hrt _].
  destruct Hrt as (b0 & b1 & He & _ & Hd).
  - vm_compute. split; discriminate.
  - reflexivity.
  - exists b0, b1. eexists. split; [reflexivity|]. split; [exact He | apply Hd].
Defined.

(** The boundaries of the framing layer, computed: a one-byte body and a
    body of 65535 bytes are read back, 65536 bytes are refused by the writer,
    and the ten-byte body followed by ['X'] of the design's sixth scenario is
    refused by the reader. *)
Example frame_boundary_1 :
  tunnel.frameHeader [x31] = Ok [x00; x01; x31; x0a] /\
  tunnel.readHeaderBody [x00; x01; x31; x0a; x47] = Ok ([x31], [x47]).
Proof. split; reflexivity. Qed.

Example frame_boundary_65535 :
  exists wire,
    tunnel.frameHeader (repeat x20 (Z.to_nat 65535)) = Ok wire /\
    length wire = (2 + Z.to_nat 65535 + 1)%nat /\
    tunnel.readHeaderBody (wire ++ [x47]) = Ok (repeat x20 (Z.to_nat 65535), [x47]).
Proof.
  destruct (frame_roundtrip (repeat x20 (Z.to_nat 65535)) [x47])
    as (wire & Hf & Hl & Hr).
  - rewrite repeat_length. lia.
  - exists wire. rewrite repeat_length in Hl. auto.
Qed.

Example frame_boundary_65536 :
  tunnel.frameHeader (repeat x20 (Z.to_nat 65536))
  = Err (tunnel.ErrHeaderTooLarge 65536).
Proof.
  rewrite frameHeader_too_large by (rewrite repeat_length; lia).
  rewrite repeat_length. reflexivity.
Qed.

Example frame_missing_newline :
  tunnel.readHeaderBody ([x00; x0a] ++ repeat x20 10 ++ [x58])
  = Err tunnel.ErrNotNewlineTerminated.
Proof. reflexivity. Qed.

(** ** Connection objects *)

Lemma length_conns_setConn c x n :
  length (tunnel.conns (tunnel.setConn c x n)) = length (tunnel.conns n).
Proof. apply length_insert. Qed.

Lemma length_conns_Close c n :
  length (tunnel.conns (tunnel.Close c n)) = length (tunnel.conns n).
Proof.
  unfold tunnel.Close. destruct (tunnel.conns n !! c) as [x|]; [|done].
  destruct (tunnel.closed x); [done | apply length_conns_setConn].
Qed.

Lemma length_conns_UpdateLastPing c now n :
  length (tunnel.conns (tunnel.UpdateLastPing c now n)) = length (tunnel.conns n).
Proof.
  unfold tunnel.UpdateLastPing. destruct (tunnel.conns n !! c); [|done].
  apply length_conns_setConn.
Qed.

Lemma length_conns_SendMessage msg c n :
  length (tunnel.conns (tunnel.SendMessage msg c n).2) = length (tunnel.conns n).
Proof.
  unfold tunnel.SendMessage. destruct (tunnel.conns n !! c) as [x|]; [|done].
  destruct (tunnel.closed x); [done|]. destruct (tunnel.wsFault x); [done|].
  apply length_conns_setConn.
Qed.

Lemma length_conns_setEnv c f n :
  length (tunnel.conns (server.setEnv c f n)) = length (tunnel.conns n).
Proof.
  unfold server.setEnv. destruct (tunnel.conns n !! c); [|done].
  apply length_conns_setConn.
Qed.

Lemma conns_Open c n : tunnel.conns (tunnel.Open c n).2 = tunnel.conns n.
Proof.
  unfold tunnel.Open. destruct (tunnel.conns n !! c) as [x|]; [|done].
  destruct (tunnel.closed x); [done|]. destruct (tunnel.session x) as [s|]; [|done].
  by destruct (tunnel.shutdown s).
Qed.

Lemma conns_streamWrite s buf n :
  tunnel.conns (tunnel.streamWrite s buf n).2 = tunnel.conns n.
Proof.
  unfold tunnel.streamWrite. destruct (tunnel.streams n !! s) as [st|]; [|done].
  by destruct (tunnel.streamClosed st || tunnel.IsClosed (tunnel.parent st) n).
Qed.

Lemma conns_streamClose s n : tunnel.conns (tunnel.streamClose s n) = tunnel.conns n.
Proof. unfold tunnel.streamClose. by destruct (tunnel.streams n !! s). Qed.

(** [Close] closes its connection and no other; closed connections stay closed. *)
Lemma IsClosed_Close c n : tunnel.IsClosed c (tunnel.Close c n) = true.
Proof.
  unfold tunnel.Close, tunnel.IsClosed.
  destruct (tunnel.conns n !! c) as [x|] eqn:E; [|by rewrite E].
  destruct (tunnel.closed x) eqn:Ec; [by rewrite E|].
  cbn. rewrite list_lookup_insert_eq; [done|]. by eapply lookup_lt_Some.
Qed.

Lemma IsClosed_Close_ne c c' n :
  c <> c' -> tunnel.IsClosed c' (tunnel.Close c n) = tunnel.IsClosed c' n.
Proof.
  intros Hne. unfold tunnel.Close, tunnel.IsClosed.
  destruct (tunnel.conns n !! c) as [x|]; [|done].
  destruct (tunnel.closed x); [done|].
  cbn. by rewrite list_lookup_insert_ne.
Qed.

Lemma IsClosed_Close_mono c c' n :
  tunnel.IsClosed c' n = true -> tunnel.IsClosed c' (tunnel.Close c n) = true.
Proof.
  intros H. destruct (decide (c = c')) as [->|Hne].
  - apply IsClosed_Close.
  - by rewrite IsClosed_Close_ne.
Qed.

Lemma IsClosed_SendMessage msg c c' n :
  tunnel.IsClosed c' (tunnel.SendMessage msg c n).2 = tunnel.IsClosed c' n.
Proof.
  unfold tunnel.SendMessage.
  destruct (tunnel.conns n !! c) as [x|] eqn:E; [|done].
  destruct (tunnel.closed x) eqn:Ec; [done|]. destruct (tunnel.wsFault x); [done|].
  unfold tunnel.IsClosed. cbn.
  destruct (decide (c = c')) as [<-|Hne].
  - rewrite list_lookup_insert_eq by (by eapply lookup_lt_Some). by rewrite E.
  - by rewrite list_lookup_insert_ne.
Qed.

(** A newly allocated connection is open, and allocation leaves the others
    as they are. *)
Lemma IsClosed_allocConn_new tok now n :
  tunnel.IsClosed (length (tunnel.conns n))
    (tunnel.allocConn (tunnel.newConnection tok now) n).2 = false.
Proof.
  unfold tunnel.IsClosed, tunnel.allocConn. cbn.
  rewrite lookup_app_r by lia. by rewrite Nat.sub_diag.
Qed.

Lemma IsClosed_allocConn_old x c n :
  (c < length (tunnel.conns n))%nat ->
  tunnel.IsClosed c (tunnel.allocConn x n).2 = tunnel.IsClosed c n.
Proof.
  intros H. unfold tunnel.IsClosed, tunnel.allocConn. cbn.
  by rewrite lookup_app_l.
Qed.

(** ** Recording a check *)

Lemma recordCheck_net chk st :
  server.net (server.recordCheck chk st) = server.net st.
Proof.
  unfold server.recordCheck, server.CreateCheck.
  destruct (negb _); [done|]. by destruct (negb _).
Qed.

Lemma recordCheck_connections chk st :
  server.connections (server.recordCheck chk st) = server.connections st.
Proof.
  unfold server.recordCheck, server.CreateCheck.
  destruct (negb _); [done|]. by destruct (negb _).
Qed.

Lemma recordCheck_tunnels chk st :
  server.tunnels (server.recordCheck chk st) = server.tunnels st.
Proof.
  unfold server.recordCheck, server.CreateCheck.
  destruct (negb _); [done|]. by destruct (negb _).
Qed.

Lemma recordCheck_services chk st :
  server.services (server.recordCheck chk st) = server.services st.
Proof.
  unfold server.recordCheck, server.CreateCheck.
  destruct (negb _); [done|]. by destruct (negb _).
Qed.

(** The row is written exactly when its status is one of the two the schema
    allows and its tunnel has a row. *)
Lemma recordCheck_checks chk st :
  server.checks (server.recordCheck chk st)
  = if (String.eqb (models.Status chk) "up" || String.eqb (models.Status chk) "down")
       && server.tunnelExists (models.CheckTunnelID chk) st
    then server.checks st ++ [chk] else server.checks st.
Proof.
  unfold server.recordCheck, server.CreateCheck.
  destruct (String.eqb (models.Status chk) "up" || String.eqb (models.Status chk) "down");
    cbn; [|done].
  by destruct (server.tunnelExists (models.CheckTunnelID chk) st).
Qed.

Lemma tunnelExists_tunnels T st st' :
  server.tunnels st' = server.tunnels st ->
  server.tunnelExists T st' = server.tunnelExists T st.
Proof. unfold server.tunnelExists. by intros ->. Qed.

(** The error the store returns: a row for a tunnel without a row is refused
    by the foreign key, and a refused insert leaves the state as it is. *)
Lemma CreateCheck_refused chk st e :
  (server.CreateCheck chk st).1 = Some e ->
  (server.CreateCheck chk st).2 = st /\
  (e = server.ErrForeignKey ->
   server.tunnelExists (models.CheckTunnelID chk) st = false).
Proof.
  unfold server.CreateCheck.
  destruct (negb (_ || _)); [by intros [= <-]|].
  destruct (server.tunnelExists (models.CheckTunnelID chk) st); [done|].
  by intros [= <-].
Qed.

Lemma CreateCheck_written chk st :
  (server.CreateCheck chk st).1 = None ->
  server.checks (server.CreateCheck chk st).2 = server.checks st ++ [chk] /\
  server.tunnelExists (models.CheckTunnelID chk) st = true.
Proof.
  unfold server.CreateCheck.
  destruct (negb (_ || _)); [done|].
  by destruct (server.tunnelExists (models.CheckTunnelID chk) st).
Qed.

(** The insert of a down row for the deleted tunnel of the scenario. *)
Example CreateCheck_deleted_tunnel :
  server.CreateCheck (server.downCheck "T1" None 3) scenario.deletedT1
  = (Some server.ErrForeignKey, scenario.deletedT1).
Proof. reflexivity. Qed.

(** A tunnel found by its token has a row. *)
Lemma GetTunnelByToken_exists tok st t :
  server.GetTunnelByToken tok st = Some t ->
  server.tunnelExists (models.ID t) st = true.
Proof.
  unfold server.GetTunnelByToken, server.tunnelExists. intros H.
  apply find_some in H as [Hin _].
  apply existsb_exists. exists t. split; [done|]. apply String.eqb_refl.
Qed.

(** The three rows the manager writes pass the status constraint; whether
    they are written is whether the tunnel still has its row. *)
Lemma recordCheck_upCheck T now st :
  server.checks (server.recordCheck (server.upCheck T now) st)
  = if server.tunnelExists T st
    then server.checks st ++ [server.upCheck T now] else server.checks st.
Proof. by rewrite recordCheck_checks. Qed.

Lemma recordCheck_downCheck T err now st :
  server.checks (server.recordCheck (server.downCheck T err now) st)
  = if server.tunnelExists T st
    then server.checks st ++ [server.downCheck T err now] else server.checks st.
Proof. by rewrite recordCheck_checks. Qed.

Lemma recordCheck_pingCheck T latency now st :
  server.checks (server.recordCheck (server.pingCheck T latency now) st)
  = if server.tunnelExists T st
    then server.checks st ++ [server.pingCheck T latency now] else server.checks st.
Proof. by rewrite recordCheck_checks. Qed.

Lemma unregisterConnection_checks T now st :
  server.checks (server.unregisterConnection T now st)
  = if server.tunnelExists T st
    then server.checks st ++ [server.downCheck T None now] else server.checks st.
Proof. unfold server.unregisterConnection. by rewrite recordCheck_downCheck. Qed.

Lemma HandleWebSocket_exit_checks T conn now st :
  server.checks (server.HandleWebSocket_exit T conn now st)
  = if server.tunnelExists T st
    then server.checks st ++ [server.downCheck T None now] else server.checks st.
Proof. unfold server.HandleWebSocket_exit. by rewrite unregisterConnection_checks. Qed.

(** ** The registry *)

Lemma healthCheck_connections now T c st :
  server.connections (server.healthCheck now T c st) = server.connections st.
Proof.
  unfold server.healthCheck.
  destruct (tunnel.IsClosed c (server.net st)); [done|].
  destruct (_ >? _); [by rewrite recordCheck_connections|].
  destruct (tunnel.Ping c (server.net st)) as [[e|] n1]; [|done].
  by rewrite recordCheck_connections.
Qed.

Lemma healthCheck_length_conns now T c st :
  length (tunnel.conns (server.net (server.healthCheck now T c st)))
  = length (tunnel.conns (server.net st)).
Proof.
  unfold server.healthCheck.
  destruct (tunnel.IsClosed c (server.net st)); [done|].
  destruct (_ >? _); [rewrite recordCheck_net; cbn; apply length_conns_Close|].
  pose proof (length_conns_SendMessage
                {| tunnel.msgType := "ping"; tunnel.msgTarget := "" |} c (server.net st)) as H.
  unfold tunnel.Ping.
  destruct (tunnel.SendMessage _ c (server.net st)) as [[e|] n1]; cbn in *.
  - rewrite recordCheck_net. cbn. by rewrite length_conns_Close.
  - done.
Qed.

Lemma registerConnection_length_conns T c st :
  length (tunnel.conns (server.net (server.registerConnection T c st)))
  = length (tunnel.conns (server.net st)).
Proof.
  unfold server.registerConnection.
  destruct (server.connections st !! T); cbn; [apply length_conns_Close | done].
Qed.

(** How one action changes the map and the heap: the map is left alone, or
    gets a newly allocated connection, or loses an entry. *)
Lemma apply_event_registry ev st :
  let st' := server.apply_event ev st in
  (server.connections st' = server.connections st /\
   (length (tunnel.conns (server.net st))
    <= length (tunnel.conns (server.net st')))%nat) \/
  (exists T, server.connections st'
             = <[T := length (tunnel.conns (server.net st))]> (server.connections st) /\
             length (tunnel.conns (server.net st'))
             = S (length (tunnel.conns (server.net st)))) \/
  (exists T, server.connections st' = delete T (server.connections st) /\
             length (tunnel.conns (server.net st'))
             = length (tunnel.conns (server.net st))).
Proof.
  destruct ev;
    cbn [server.apply_event tunnel.allocConn server.setNet server.net
         server.connections server.unregisterConnection server.DeleteTunnel
         server.CleanupOldChecks server.setConnections tunnel.conns snd].
  - right; left. exists tunnelID. split; [done|].
    rewrite registerConnection_length_conns. cbn. rewrite length_app. cbn. lia.
  - right; right. exists tunnelID. unfold server.unregisterConnection.
    by rewrite recordCheck_connections, recordCheck_net.
  - left. by rewrite recordCheck_connections, recordCheck_net.
  - left. done.
  - left. done.
  - left. by rewrite length_conns_Close.
  - left. by rewrite length_conns_UpdateLastPing.
  - left. by rewrite length_conns_SendMessage.
  - left. by rewrite healthCheck_connections, healthCheck_length_conns.
  - left. by rewrite length_conns_setEnv.
  - left. by rewrite length_conns_setEnv.
  - left. split; [done|]. rewrite length_app. lia.
  - left. by rewrite conns_Open.
  - left. by rewrite conns_streamWrite.
  - left. by rewrite conns_streamClose.
Qed.

Lemma apply_event_wf ev st :
  registry_wf st -> registry_wf (server.apply_event ev st).
Proof.
  intros [Halloc Hinj].
  destruct (apply_event_registry ev st) as [[Hc Hl]|[(T & Hc & Hl)|(T & Hc & Hl)]];
    cbv zeta in *; unfold registry_wf; rewrite Hc.
  - split; [|done]. intros T c H. specialize (Halloc T c H). lia.
  - split.
    + intros T' c. rewrite lookup_insert. case_decide.
      * intros [= <-]. lia.
      * intros H'. specialize (Halloc T' c H'). lia.
    + intros T1 T2 c. rewrite !lookup_insert. repeat case_decide; subst.
      * done.
      * intros [= <-] H2. specialize (Halloc _ _ H2). lia.
      * intros H1 [= <-]. specialize (Halloc _ _ H1). lia.
      * apply Hinj.
  - split.
    + intros T' c. rewrite lookup_delete. case_decide; [done|].
      rewrite Hl. apply Halloc.
    + intros T1 T2 c. rewrite !lookup_delete. repeat case_decide; try done.
      apply Hinj.
Qed.

Lemma reachable_wf st : server.reachable st -> registry_wf st.
Proof.
  induction 1 as [ts ss cs|ev st _ IH].
  - split; intros *; cbn; by rewrite lookup_empty.
  - by apply apply_event_wf.
Qed.

Lemma reachable_registered_allocated st T c :
  server.reachable st -> server.connections st !! T = Some c ->
  (c < length (tunnel.conns (server.net st)))%nat.
Proof. intros Hr. by apply (reachable_wf st Hr). Qed.

(** The live links of a tunnel are read off the map entry of its ID. *)
Lemma elem_of_liveLinks T c st :
  c ∈ server.liveLinks T st <->
  server.connections st !! T = Some c /\ tunnel.IsClosed c (server.net st) = false.
Proof.
  unfold server.liveLinks. rewrite list_elem_of_omap. split.
  - intros ([k v] & Hin & Hf). apply elem_of_map_to_list in Hin. cbn in Hf.
    case_decide; [subst k|done].
    destruct (tunnel.IsClosed v (server.net st)) eqn:E; [done|].
    by injection Hf as <-.
  - intros [Hl Hc]. exists (T, c). split; [by apply elem_of_map_to_list|].
    cbn. rewrite decide_True by done. by rewrite Hc.
Qed.

Lemma omap_key_length {A B} (f : string * A -> option B) (T : string)
  (l : list (string * A)) :
  NoDup l.*1 -> (forall e, e.1 <> T -> f e = None) ->
  (length (omap f l) <= 1)%nat.
Proof.
  intros Hnd Hf. induction l as [|[k v] l IH]; [cbn; lia|].
  cbn in Hnd. apply NoDup_cons in Hnd as [Hk Hnd].
  cbn [omap list_omap]. destruct (decide (k = T)) as [->|Hne].
  - assert (Hnil : omap f l = []).
    { clear IH Hnd. induction l as [|[k' v'] l IHl]; [done|].
      cbn in Hk. apply not_elem_of_cons in Hk as [Hk1 Hk2].
      cbn [omap list_omap]. rewrite (Hf (k', v')) by (cbn; congruence).
      by apply IHl. }
    cbn in Hnil. rewrite Hnil. destruct (f (T, v)); cbn; lia.
  - rewrite (Hf (k, v)) by done. by apply IH.
Qed.

Lemma liveLinks_length T st : (length (server.liveLinks T st) <= 1)%nat.
Proof.
  unfold server.liveLinks. apply (omap_key_length _ T).
  - apply NoDup_fst_map_to_list.
  - intros e He. by rewrite decide_False.
Qed.

Lemma liveLinks_singleton T c st :
  server.connections st !! T = Some c ->
  tunnel.IsClosed c (server.net st) = false ->
  server.liveLinks T st = [c].
Proof.
  intros Hl Hc. pose proof (liveLinks_length T st) as Hlen.
  assert (Hin : c ∈ server.liveLinks T st) by (by apply elem_of_liveLinks).
  destruct (server.liveLinks T st) as [|a [|b l]]; cbn in Hlen; try lia.
  - by apply elem_of_nil in Hin.
  - apply list_elem_of_singleton in Hin. by subst.
Qed.

Lemma registerConnection_lookup T conn st :
  server.connections (server.registerConnection T conn st) !! T = Some conn.
Proof. unfold server.registerConnection. cbn. apply lookup_insert_eq. Qed.

Lemma registerConnection_closes_existing T conn existing st :
  server.connections st !! T = Some existing ->
  tunnel.IsClosed existing (server.net (server.registerConnection T conn st)) = true.
Proof.
  intros H. unfold server.registerConnection. rewrite H. cbn. apply IsClosed_Close.
Qed.

(** Registering a newly allocated connection leaves it open. *)
Lemma register_new_open T tok now st :
  registry_wf st ->
  tunnel.IsClosed (length (tunnel.conns (server.net st)))
    (server.net (server.apply_event (server.EvRegister T tok now) st)) = false.
Proof.
  intros [Halloc _]. cbn [server.apply_event tunnel.allocConn].
  unfold server.registerConnection. cbn [server.connections server.setNet server.net
                                         server.setConnections].
  destruct (server.connections st !! T) as [existing|] eqn:E.
  - specialize (Halloc _ _ E). rewrite IsClosed_Close_ne by lia.
    apply (IsClosed_allocConn_new tok now).
  - apply (IsClosed_allocConn_new tok now).
Qed.

(** C4. In every reachable state the connection map holds at most one
    non-closed link for any tunnel ID; [registerConnection] closes the
    connection registered so far before it stores the new one, and after a
    handshake has registered its new connection, that connection is the one
    live link of the tunnel. *)
Theorem registry_at_most_one_live_link (st : server.State) (T : string) :
  server.reachable st ->
  (length (server.liveLinks T st) <= 1)%nat /\
  (forall conn existing,
     server.connections st !! T = Some existing ->
     tunnel.IsClosed existing (server.net (server.registerConnection T conn st)) = true /\
     server.connections (server.registerConnection T conn st) !! T = Some conn /\
     (length (server.liveLinks T (server.registerConnection T conn st)) <= 1)%nat) /\
  (forall tok now,
     server.liveLinks T (server.apply_event (server.EvRegister T tok now) st)
     = [length (tunnel.conns (server.net st))]).
Proof.
  intros Hr. split; [apply liveLinks_length|]. split.
  - intros conn existing H. split; [by apply registerConnection_closes_existing|].
    split; [apply registerConnection_lookup | apply liveLinks_length].
  - intros tok now. apply liveLinks_singleton.
    + cbn [server.apply_event tunnel.allocConn]. apply registerConnection_lookup.
    + apply register_new_open. by apply reachable_wf.
Qed.

Lemma registry_at_most_one_live_link_witness :
  (length (server.liveLinks "T1" scenario.connectedA) <= 1)%nat /\
  server.liveLinks "T1"
    (server.apply_event (server.EvRegister "T1" "tok1" 2) scenario.connectedA)
  = [length (tunnel.conns (server.net scenario.connectedA))].
Proof.
  assert (Hr : server.reachable scenario.connectedA).
  { apply server.reachable_step, server.reachable_step, server.reachable_init. }
  destruct (registry_at_most_one_live_link scenario.connectedA "T1" Hr)
    as (Hlen & _ & Hnew).
  split; [exact Hlen | apply Hnew].
Defined.

(** ** Handshake and handler exit *)

Lemma reachable_run_events evs st :
  server.reachable st -> server.reachable (server.run_events evs st).
Proof.
  revert st. induction evs as [|ev evs IH]; intros st Hr; [done|].
  cbn. apply IH. by apply server.reachable_step.
Qed.

(** A successful handshake is the registration of a new connection followed
    by the insertion of one up row. *)
Lemma HandleWebSocket_accept_events tok now st tunnelObj :
  tok <> "" ->
  server.GetTunnelByToken tok st = Some tunnelObj ->
  server.HandleWebSocket_accept tok true true now st =
    (server.Accepted (models.ID tunnelObj) (length (tunnel.conns (server.net st))),
     server.run_events
       [server.EvRegister (models.ID tunnelObj) tok now;
        server.EvCreateCheck (server.upCheck (models.ID tunnelObj) now)] st).
Proof.
  intros Htok Hget. unfold server.HandleWebSocket_accept.
  destruct (String.eqb_spec tok ""); [done|]. by rewrite Hget.
Qed.

Lemma HandleWebSocket_exit_events T conn now st :
  server.HandleWebSocket_exit T conn now st
  = server.run_events [server.EvClose conn; server.EvUnregister T now] st.
Proof. reflexivity. Qed.

Lemma registerConnection_checks T conn st :
  server.checks (server.registerConnection T conn st) = server.checks st.
Proof. reflexivity. Qed.

(** C3, as the code has it.  When a second agent completes the handshake with
    the token of a tunnel that has a live registered link [A], the handshake
    closes [A], registers the new connection [A'], which is then the one live
    link of the tunnel, and appends exactly one check row: the up row of
    [A'].  It writes no down row; the down row of the displaced link is
    written by the handler of [A] when it returns, hence after the up row
    when that handler runs next. *)
Theorem displacement_handshake (st : server.State) (tok : string) (now : Z)
  (tunnelObj : models.Tunnel) (A : tunnel.ConnID) :
  server.reachable st ->
  tok <> "" ->
  server.GetTunnelByToken tok st = Some tunnelObj ->
  server.connections st !! models.ID tunnelObj = Some A ->
  tunnel.IsClosed A (server.net st) = false ->
  let T := models.ID tunnelObj in
  let A' := length (tunnel.conns (server.net st)) in
  exists st',
    server.HandleWebSocket_accept tok true true now st = (server.Accepted T A', st') /\
    A' <> A /\
    tunnel.IsClosed A (server.net st') = true /\
    server.liveLinks T st' = [A'] /\
    server.checks st' = server.checks st ++ [server.upCheck T now] /\
    forall later,
      server.checks (server.HandleWebSocket_exit T A later st')
      = server.checks st ++ [server.upCheck T now; server.downCheck T None later].
Proof.
  intros Hr Htok Hget HA Hopen T A'.
  eexists. split; [by apply HandleWebSocket_accept_events|].
  pose proof (reachable_wf st Hr) as Hwf.
  pose proof (proj1 Hwf _ _ HA) as HAlt.
  split; [subst A'; lia|].
  cbn [server.run_events fold_left].
  pose proof (GetTunnelByToken_exists tok st tunnelObj Hget) as Hrow.
  subst T. cbn [server.apply_event tunnel.allocConn].
  split; [|split; [|split]].
  - rewrite recordCheck_net. by apply registerConnection_closes_existing.
  - apply liveLinks_singleton.
    + rewrite recordCheck_connections. apply registerConnection_lookup.
    + rewrite recordCheck_net.
      apply (register_new_open (models.ID tunnelObj) tok now st Hwf).
  - rewrite recordCheck_upCheck.
    rewrite (tunnelExists_tunnels _ st) by reflexivity. by rewrite Hrow.
  - intros later. rewrite HandleWebSocket_exit_checks.
    rewrite (tunnelExists_tunnels _ st)
      by (by rewrite recordCheck_tunnels).
    rewrite Hrow, recordCheck_upCheck.
    rewrite (tunnelExists_tunnels _ st) by reflexivity.
    rewrite Hrow. cbn. by rewrite <- app_assoc.
Qed.

Lemma displacement_handshake_witness :
  exists st',
    server.HandleWebSocket_accept "tok1" true true 2 scenario.connectedA
    = (server.Accepted "T1" 1%nat, st') /\
    server.liveLinks "T1" st' = [1%nat] /\
    server.checks st' = [server.upCheck "T1" 1; server.upCheck "T1" 2].
Proof.
  assert (Hr : server.reachable scenario.connectedA).
  { apply server.reachable_step, server.reachable_step, server.reachable_init. }
  destruct (displacement_handshake scenario.connectedA "tok1" 2 scenario.T1 0%nat Hr)
    as (st' & Hacc & _ & _ & Hlive & Hchk & _).
  - discriminate.
  - reflexivity.
  - reflexivity.
  - reflexivity.
  - exists st'. split; [exact Hacc|]. split; [exact Hlive | exact Hchk].
Defined.

(** C3, as stated, at the design's fourth scenario: the second handshake
    appends the single row [up]; with the exit of the displaced handler the
    rows are [up; down]; neither is [down; up], and after that exit the
    registry holds no link for the tunnel. *)
Lemma displacement_rows_counterexample :
  server.HandleWebSocket_accept "tok1" true true 2 scenario.connectedA
  = (server.Accepted "T1" 1%nat, scenario.displaced) /\
  server.checks scenario.displaced
  = server.checks scenario.connectedA ++ [server.upCheck "T1" 2] /\
  ~ (exists down up,
       server.checks scenario.displaced
       = server.checks scenario.connectedA ++ [down; up] /\
       models.Status down = "down" /\ models.Status up = "up") /\
  scenario.afterExitA = server.HandleWebSocket_exit "T1" 0%nat 3 scenario.displaced /\
  server.checks scenario.afterExitA
  = server.checks scenario.connectedA
    ++ [server.upCheck "T1" 2; server.downCheck "T1" None 3] /\
  ~ (exists down up,
       server.checks scenario.afterExitA
       = server.checks scenario.connectedA ++ [down; up] /\
       models.Status down = "down" /\ models.Status up = "up") /\
  server.liveLinks "T1" scenario.afterExitA = [].
Proof.
  split; [reflexivity|]. split; [reflexivity|]. split.
  { intros (d & u & H & _). cbn in H. discriminate H. }
  split; [reflexivity|]. split; [reflexivity|]. split.
  { intros (d & u & H & Hd & _). cbn in H. injection H as <- <-.
    cbn in Hd. discriminate Hd. }
  vm_compute. reflexivity.
Qed.

(** ** Handler exit *)




(** The design's fourth scenario, continued: after the handler of the
    displaced agent A has returned, the connection of A' is open and
    unregistered. *)
Example displaced_survivor_unregistered :
  tunnel.IsClosed 1%nat (server.net scenario.afterExitA) = false /\
  server.connections scenario.displaced !! "T1" = Some 1%nat /\
  server.connections scenario.afterExitA !! "T1" = None /\
  server.IsConnected "T1" scenario.afterExitA = false.
Proof. repeat split; reflexivity. Qed.

(** ** The liveness probe *)

Lemma conns_Close_ne c c' n :
  c <> c' -> tunnel.conns (tunnel.Close c n) !! c' = tunnel.conns n !! c'.
Proof.
  intros Hne. unfold tunnel.Close.
  destruct (tunnel.conns n !! c) as [x|]; [|done].
  destruct (tunnel.closed x); [done|]. cbn. by rewrite list_lookup_insert_ne.
Qed.

Lemma conns_SendMessage_ne msg c c' n :
  c <> c' ->
  tunnel.conns (tunnel.SendMessage msg c n).2 !! c' = tunnel.conns n !! c'.
Proof.
  intros Hne. unfold tunnel.SendMessage.
  destruct (tunnel.conns n !! c) as [x|]; [|done].
  destruct (tunnel.closed x); [done|]. destruct (tunnel.wsFault x); [done|].
  cbn. by rewrite list_lookup_insert_ne.
Qed.

(** What recording a check adds to the ledger: nothing or the row itself,
    and the row only for a tunnel that has its row. *)
Lemma recordCheck_added chk st :
  exists added,
    server.checks (server.recordCheck chk st) = server.checks st ++ added /\
    (forall c, c ∈ added ->
       c = chk /\ server.tunnelExists (models.CheckTunnelID chk) st = true) /\
    ((String.eqb (models.Status chk) "up" || String.eqb (models.Status chk) "down")
     = true ->
     server.tunnelExists (models.CheckTunnelID chk) st = true -> added = [chk]).
Proof.
  rewrite recordCheck_checks.
  destruct (String.eqb (models.Status chk) "up" || String.eqb (models.Status chk) "down");
    cbn [andb].
  - destruct (server.tunnelExists (models.CheckTunnelID chk) st) eqn:E.
    + exists [chk]. split; [done|]. split; [|done].
      by intros c ->%list_elem_of_singleton.
    + exists []. split; [by rewrite app_nil_r|]. split; [|done].
      by intros c ?%elem_of_nil.
  - exists []. split; [by rewrite app_nil_r|]. split; [|done].
    by intros c ?%elem_of_nil.
Qed.

(** One iteration touches the connection of its entry only, leaves the
    catalog alone, and only adds rows, each for a tunnel that has its row. *)
Lemma healthCheck_frame now T c c' st :
  c <> c' ->
  tunnel.conns (server.net (server.healthCheck now T c st)) !! c'
  = tunnel.conns (server.net st) !! c'.
Proof.
  intros Hne. unfold server.healthCheck.
  destruct (tunnel.IsClosed c (server.net st)); [done|].
  destruct (_ >? _); [rewrite recordCheck_net; cbn; by apply conns_Close_ne|].
  pose proof (conns_SendMessage_ne pingMessage c c' (server.net st) Hne) as H.
  unfold tunnel.Ping. fold pingMessage.
  destruct (tunnel.SendMessage pingMessage c (server.net st)) as [[e|] n1]; cbn in *.
  - rewrite recordCheck_net. cbn. by rewrite conns_Close_ne.
  - done.
Qed.

Lemma healthCheck_tunnels now T c st :
  server.tunnels (server.healthCheck now T c st) = server.tunnels st.
Proof.
  unfold server.healthCheck.
  destruct (tunnel.IsClosed c (server.net st)); [done|].
  destruct (_ >? _); [by rewrite recordCheck_tunnels|].
  destruct (tunnel.Ping c (server.net st)) as [[e|] n1]; [|done].
  by rewrite recordCheck_tunnels.
Qed.

Lemma healthCheck_checks now T c st :
  exists added,
    server.checks (server.healthCheck now T c st) = server.checks st ++ added /\
    forall chk, chk ∈ added ->
      server.tunnelExists (models.CheckTunnelID chk) st = true.
Proof.
  unfold server.healthCheck.
  destruct (tunnel.IsClosed c (server.net st)).
  { exists []. split; [by rewrite app_nil_r | by intros chk ?%elem_of_nil]. }
  destruct (_ >? _).
  { destruct (recordCheck_added
                (server.downCheck T (Some "Connection timeout"%string) now)
                (server.setNet (tunnel.Close c (server.net st)) st))
      as (added & Hchk & Hall & _).
    exists added. split; [exact Hchk|].
    intros chk Hin. destruct (Hall chk Hin) as [-> H]. exact H. }
  destruct (tunnel.Ping c (server.net st)) as [[e|] n1].
  - destruct (recordCheck_added
                (server.downCheck T (Some (tunnel.ConnError_text e)) now)
                (server.setNet (tunnel.Close c n1) st))
      as (added & Hchk & Hall & _).
    exists added. split; [exact Hchk|].
    intros chk Hin. destruct (Hall chk Hin) as [-> H]. exact H.
  - exists []. split; [by rewrite app_nil_r | by intros chk ?%elem_of_nil].
Qed.

Lemma performHealthChecks_over_frame clock l c st :
  c ∉ l.*2 ->
  tunnel.conns (server.net (server.performHealthChecks_over clock l st)) !! c
  = tunnel.conns (server.net st) !! c.
Proof.
  revert st. induction l as [|[T1 c1] l IH]; intros st Hc; [done|].
  cbn in Hc. apply not_elem_of_cons in Hc as [Hne Hc].
  cbn. unfold server.performHealthChecks_over in IH. rewrite IH by done.
  by apply healthCheck_frame.
Qed.

Lemma performHealthChecks_over_tunnels clock l st :
  server.tunnels (server.performHealthChecks_over clock l st) = server.tunnels st.
Proof.
  revert st. induction l as [|[T1 c1] l IH]; intros st; [done|].
  cbn. unfold server.performHealthChecks_over in IH.
  by rewrite IH, healthCheck_tunnels.
Qed.

Lemma performHealthChecks_over_checks clock l st :
  exists added,
    server.checks (server.performHealthChecks_over clock l st)
    = server.checks st ++ added /\
    forall chk, chk ∈ added ->
      server.tunnelExists (models.CheckTunnelID chk) st = true.
Proof.
  revert st. induction l as [|[T1 c1] l IH]; intros st.
  { exists []. split; [by rewrite app_nil_r | by intros chk ?%elem_of_nil]. }
  cbn. destruct (healthCheck_checks (clock T1) T1 c1 st) as (a1 & H1 & Hr1).
  destruct (IH (server.healthCheck (clock T1) T1 c1 st)) as (a2 & H2 & Hr2).
  exists (a1 ++ a2). unfold server.performHealthChecks_over in H2. split.
  - by rewrite H2, H1, app_assoc.
  - intros chk [Hin|Hin]%elem_of_app; [by apply Hr1|].
    rewrite <- (tunnelExists_tunnels _ st (server.healthCheck (clock T1) T1 c1 st))
      by apply healthCheck_tunnels.
    by apply Hr2.
Qed.

Lemma IsClosed_lookup c n x :
  tunnel.conns n !! c = Some x -> tunnel.IsClosed c n = tunnel.closed x.
Proof. intros H. unfold tunnel.IsClosed. by rewrite H. Qed.

(** The iteration for an open link [c]: the state of [c] afterwards and the
    rows added. *)
Lemma healthCheck_self now T c x st :
  tunnel.conns (server.net st) !! c = Some x ->
  tunnel.closed x = false ->
  exists added x',
    server.checks (server.healthCheck now T c st) = server.checks st ++ added /\
    tunnel.conns (server.net (server.healthCheck now T c st)) !! c = Some x' /\
    forall n', tunnel.conns n' !! c = Some x' ->
      probed now T c x (server.tunnelExists T st) n' added.
Proof.
  intros Hx Hopen. unfold server.healthCheck, probed, tunnel.LastPing.
  rewrite (IsClosed_lookup _ _ _ Hx), Hopen, Hx.
  assert (Hlt : (c < length (tunnel.conns (server.net st)))%nat)
    by (by eapply lookup_lt_Some).
  destruct (_ >? _).
  - destruct (recordCheck_added
                (server.downCheck T (Some "Connection timeout"%string) now)
                (server.setNet (tunnel.Close c (server.net st)) st))
      as (added & Hchk & _ & Hone).
    exists added. eexists. split; [exact Hchk|]. split.
    + rewrite recordCheck_net. cbn. unfold tunnel.Close. rewrite Hx, Hopen. cbn.
      by rewrite list_lookup_insert_eq.
    + intros n' Hn'. split; [by rewrite (IsClosed_lookup _ _ _ Hn')|].
      intros Hrec. rewrite (Hone eq_refl Hrec). apply list_elem_of_here.
  - unfold tunnel.Ping, tunnel.SendMessage. rewrite Hx, Hopen.
    destruct (tunnel.wsFault x) as [e|] eqn:Hf.
    + destruct (recordCheck_added
                  (server.downCheck T (Some e) now)
                  (server.setNet (tunnel.Close c (server.net st)) st))
        as (added & Hchk & _ & Hone).
      exists added. eexists. split; [exact Hchk|]. split.
      * rewrite recordCheck_net. cbn. unfold tunnel.Close. rewrite Hx, Hopen. cbn.
        by rewrite list_lookup_insert_eq.
      * intros n' Hn'. split; [by rewrite (IsClosed_lookup _ _ _ Hn')|].
        intros Hrec. rewrite (Hone eq_refl Hrec). apply list_elem_of_here.
    + exists [], (withPing x). split; [by rewrite app_nil_r|]. split.
      * cbn [server.net server.setNet tunnel.setConn tunnel.conns].
        rewrite list_lookup_insert_eq by done.
        unfold withPing, pingMessage. by rewrite Hopen, Hf.
      * done.
Qed.

Lemma probed_more now T c x recorded n' pre added post :
  probed now T c x recorded n' added ->
  probed now T c x recorded n' (pre ++ added ++ post).
Proof.
  unfold probed. destruct (_ >? _); [|destruct (tunnel.wsFault x)]; try done;
    intros [Hc Hin]; (split; [done|]); intros Hrec;
    apply elem_of_app; right; apply elem_of_app; left; by apply Hin.
Qed.

Lemma performHealthChecks_over_entry clock l T c x st :
  NoDup l.*2 ->
  (T, c) ∈ l ->
  tunnel.conns (server.net st) !! c = Some x ->
  tunnel.closed x = false ->
  exists added,
    server.checks (server.performHealthChecks_over clock l st)
    = server.checks st ++ added /\
    (forall chk, chk ∈ added ->
       server.tunnelExists (models.CheckTunnelID chk) st = true) /\
    probed (clock T) T c x (server.tunnelExists T st)
      (server.net (server.performHealthChecks_over clock l st)) added.
Proof.
  intros Hnd Hin Hx Hopen.
  destruct (performHealthChecks_over_checks clock l st) as (added & Hchk & Hrec).
  exists added. split; [exact Hchk|]. split; [exact Hrec|].
  clear Hrec. revert st added Hnd Hin Hx Hopen Hchk.
  induction l as [|[T1 c1] l IH]; intros st added Hnd Hin Hx Hopen Hchk.
  { by apply elem_of_nil in Hin. }
  cbn in Hnd. apply NoDup_cons in Hnd as [Hc1 Hnd].
  change (server.performHealthChecks_over clock ((T1, c1) :: l) st)
    with (server.performHealthChecks_over clock l
            (server.healthCheck (clock T1) T1 c1 st)) in *.
  apply elem_of_cons in Hin as [[= <- <-]|Hin].
  - destruct (healthCheck_self (clock T) T c x st Hx Hopen)
      as (a1 & x' & Ha1 & Hx' & Hp).
    destruct (performHealthChecks_over_checks clock l
                (server.healthCheck (clock T) T c st)) as (a2 & Ha2 & _).
    assert (added = a1 ++ a2) as ->.
    { rewrite Ha2, Ha1, <- app_assoc in Hchk. by apply app_inv_head in Hchk. }
    apply (probed_more _ _ _ _ _ _ [] a1 a2), Hp.
    by rewrite performHealthChecks_over_frame.
  - assert (Hne : c1 <> c).
    { intros ->. apply Hc1. apply list_elem_of_fmap. by exists (T, c). }
    destruct (healthCheck_checks (clock T1) T1 c1 st) as (a1 & Ha1 & _).
    destruct (performHealthChecks_over_checks clock l
                (server.healthCheck (clock T1) T1 c1 st)) as (a2 & Ha2 & _).
    assert (added = a1 ++ a2) as ->.
    { rewrite Ha2, Ha1, <- app_assoc in Hchk. by apply app_inv_head in Hchk. }
    rewrite <- (app_nil_r a2).
    rewrite <- (tunnelExists_tunnels T st (server.healthCheck (clock T1) T1 c1 st))
      by apply healthCheck_tunnels.
    apply probed_more.
    apply (IH (server.healthCheck (clock T1) T1 c1 st)); try done.
    by rewrite healthCheck_frame.
Qed.

Lemma registry_values_NoDup st :
  registry_wf st -> NoDup (map_to_list (server.connections st)).*2.
Proof.
  intros [_ Hinj]. apply NoDup_fmap_2_strong; [|apply NoDup_map_to_list].
  intros [T1 c1] [T2 c2] H1 H2 Heq. cbn in Heq. subst c2.
  apply elem_of_map_to_list in H1, H2. by rewrite (Hinj T1 T2 c1).
Qed.

(** C8, as the code has it.  On a tick at a reachable state, whatever the
    order in which the snapshot is ranged over, every registered link that was
    open when the tick started and whose last pong lies more than
    [3 * PingInterval] before the time it is examined is closed, and a down
    row of reason ["Connection timeout"] is appended for its tunnel when the
    tunnel still has its row in the tunnels table; every other such link is
    sent a ping, which either goes out, the link staying as it was, or fails,
    in which case the link is closed and a down row carrying the error text
    is appended, again when the tunnel has its row.  The tick appends no row
    for a tunnel that has been deleted: the insert is refused by the foreign
    key and the error is only logged. *)
Theorem health_check_tick (st : server.State) (clock : string -> Z)
  (snapshot : list (string * tunnel.ConnID)) (T : string) (c : tunnel.ConnID)
  (x : tunnel.Connection) :
  server.reachable st ->
  snapshot ≡ₚ map_to_list (server.connections st) ->
  server.connections st !! T = Some c ->
  tunnel.conns (server.net st) !! c = Some x ->
  tunnel.closed x = false ->
  let st' := server.performHealthChecks_over clock snapshot st in
  exists added,
    server.checks st' = server.checks st ++ added /\
    (forall chk, chk ∈ added ->
       server.tunnelExists (models.CheckTunnelID chk) st = true) /\
    (clock T - tunnel.lastPing x > tunnel.PingInterval * 3 ->
     tunnel.IsClosed c (server.net st') = true /\
     (server.tunnelExists T st = true ->
      server.downCheck T (Some "Connection timeout"%string) (clock T) ∈ added)) /\
    (clock T - tunnel.lastPing x <= tunnel.PingInterval * 3 ->
     forall e, tunnel.wsFault x = Some e ->
       tunnel.IsClosed c (server.net st') = true /\
       (server.tunnelExists T st = true ->
        server.downCheck T (Some e) (clock T) ∈ added)) /\
    (clock T - tunnel.lastPing x <= tunnel.PingInterval * 3 ->
     tunnel.wsFault x = None ->
     tunnel.conns (server.net st') !! c = Some (withPing x)).
Proof.
  intros Hr Hperm HT Hx Hopen st'.
  destruct (performHealthChecks_over_entry clock snapshot T c x st)
    as (added & Hchk & Hrec & Hp); try done.
  - rewrite Hperm. apply registry_values_NoDup. by apply reachable_wf.
  - rewrite Hperm. by apply elem_of_map_to_list.
  - exists added. split; [exact Hchk|]. split; [exact Hrec|].
    unfold probed in Hp. fold st' in Hp.
    destruct (Z.gtb_spec (clock T - tunnel.lastPing x) (tunnel.PingInterval * 3)).
    + split; [done|]. split; intros; lia.
    + split; [intros; lia|]. split.
      * intros _ e He. by rewrite He in Hp.
      * intros _ He. by rewrite He in Hp.
Qed.

Lemma health_check_tick_witness :
  let st' := server.performHealthChecks_over (fun _ => scenario.staleTime)
               (map_to_list (server.connections scenario.connectedA))
               scenario.connectedA in
  exists added,
    server.checks st' = server.checks scenario.connectedA ++ added /\
    tunnel.IsClosed 0%nat (server.net st') = true /\
    server.downCheck "T1" (Some "Connection timeout"%string) scenario.staleTime ∈ added.
Proof.
  assert (Hr : server.reachable scenario.connectedA).
  { apply server.reachable_step, server.reachable_step, server.reachable_init. }
  destruct (health_check_tick scenario.connectedA (fun _ => scenario.staleTime)
              (map_to_list (server.connections scenario.connectedA))
              "T1" 0%nat (tunnel.newConnection "tok1" 1) Hr)
    as (added & Hchk & _ & Hstale & _).
  - reflexivity.
  - reflexivity.
  - reflexivity.
  - reflexivity.
  - exists added. split; [exact Hchk|].
    destruct Hstale as [Hclosed Hrow]; [vm_compute; reflexivity|].
    split; [exact Hclosed | apply Hrow; reflexivity].
Defined.

(** C8, as stated.  At the design's fifth scenario the row the probe writes
    for the silent link carries the reason ["Connection timeout"]; no row
    with the reason ["connection timeout"] is written.  And once the tunnel
    has been deleted through the API while its agent is connected, a state
    the server reaches with the link still registered and open, the probe
    closes the silent link and records no down check at all. *)
Lemma health_check_reason_counterexample :
  (let st' := server.performHealthChecks (fun _ => scenario.staleTime)
                scenario.connectedA in
   server.checks st'
   = [server.upCheck "T1" 1;
      server.downCheck "T1" (Some "Connection timeout"%string) scenario.staleTime] /\
   ~ (exists chk, chk ∈ server.checks st' /\
                  models.Status chk = "down" /\
                  models.Error chk = Some "connection timeout"%string)) /\
  (let st' := server.performHealthChecks (fun _ => scenario.staleTime)
                scenario.deletedT1 in
   server.reachable scenario.deletedT1 /\
   server.liveLinks "T1" scenario.deletedT1 = [0%nat] /\
   scenario.staleTime - tunnel.LastPing 0%nat (server.net scenario.deletedT1)
   > tunnel.PingInterval * 3 /\
   tunnel.IsClosed 0%nat (server.net st') = true /\
   server.checks st' = server.checks scenario.deletedT1 /\
   ~ (exists chk, chk ∈ server.checks st' /\ models.Status chk = "down")).
Proof.
  split.
  - assert (H : server.checks
                  (server.performHealthChecks (fun _ => scenario.staleTime)
                     scenario.connectedA)
                = [server.upCheck "T1" 1;
                   server.downCheck "T1" (Some "Connection timeout"%string)
                     scenario.staleTime])
      by (vm_compute; reflexivity).
    cbv zeta. split; [exact H|]. rewrite H.
    intros (chk & Hin & Hs & He).
    apply elem_of_cons in Hin as [->|Hin]; [discriminate Hs|].
    apply list_elem_of_singleton in Hin as ->. discriminate He.
  - assert (H : server.checks
                  (server.performHealthChecks (fun _ => scenario.staleTime)
                     scenario.deletedT1) = [])
      by (vm_compute; reflexivity).
    cbv zeta. split.
    { apply (server.reachable_step (server.EvDeleteTunnel "T1")),
        server.reachable_step, server.reachable_step, server.reachable_init. }
    split; [by vm_compute|]. split; [by vm_compute|].
    split; [by vm_compute|]. split; [by rewrite H|]. rewrite H.
    intros (chk & Hin & _). by apply elem_of_nil in Hin.
Qed.

(** ** Ingress *)

Lemma GetServiceByDomain_enabled host st service :
  server.GetServiceByDomain host st = Some service -> models.Enabled service = true.
Proof.
  unfold server.GetServiceByDomain. intros H. apply find_some in H as [_ H].
  by apply andb_prop in H as [_ H].
Qed.

(** [handleHTTP] for a request that passes the host, catalog and path checks. *)
Lemma handleHTTP_resolved json_Marshal r st service :
  server.Host r <> "" ->
  server.GetServiceByDomain (server.stripPort (server.Host r)) st = Some service ->
  models.PathPrefix service = "/"
  \/ server.HasPrefix (server.URLPath r) (models.PathPrefix service) = true ->
  server.handleHTTP json_Marshal r st =
    match server.GetConnection (models.TunnelID service) st with
    | (Some conn, true) =>
        match tunnel.Open conn (server.net st) with
        | (Ok stream, n1) =>
            match server.wrapStreamWithHeader json_Marshal stream
                    {| tunnel.Type_ := "http";
                       tunnel.Target := models.TargetAddr service |} n1 with
            | (Ok streamWithHeader, n2) =>
                (server.Proxying streamWithHeader, server.setNet n2 st)
            | (Err _, n2) =>
                (server.HTTPError 503 "Service unavailable",
                 server.setNet (tunnel.streamClose stream n2) st)
            | (Panic, n2) =>
                (server.HandlerPanic, server.setNet (tunnel.streamClose stream n2) st)
            end
        | (Err _, n1) =>
            (server.HTTPError 503 "Service unavailable", server.setNet n1 st)
        | (Panic, n1) => (server.HandlerPanic, server.setNet n1 st)
        end
    | _ => (server.HTTPError 503 "Service unavailable", st)
    end.
Proof.
  intros Hhost Hsvc Hpath. unfold server.handleHTTP.
  destruct (String.eqb_spec (server.Host r) ""); [done|].
  rewrite Hsvc, (GetServiceByDomain_enabled _ _ _ Hsvc). cbn [negb].
  destruct Hpath as [-> | ->]; [|by rewrite andb_false_r].
  reflexivity.
Qed.

Lemma GetConnection_not_live T st :
  server.connections st !! T = None
  \/ (exists c, server.connections st !! T = Some c /\
                tunnel.IsClosed c (server.net st) = true) ->
  (server.GetConnection T st).2 = false.
Proof.
  unfold server.GetConnection. intros [-> | (c & -> & Hc)]; [done|].
  cbn. by rewrite Hc.
Qed.

(** C6. An ingress request whose tunnel has no live link (nothing is
    registered under the tunnel ID, or what is registered is closed) is
    refused at once: [handleHTTP] answers 503 "Service unavailable",
    [handleTCPConnection] returns, which closes the accepted connection;
    neither opens a stream nor changes the state, so nothing is kept for a
    later reconnect. *)
Theorem ingress_without_live_link_rejected
  (json_Marshal : tunnel.StreamHeader -> option (list byte))
  (st : server.State) (service : models.Service) :
  server.connections st !! models.TunnelID service = None
  \/ (exists c, server.connections st !! models.TunnelID service = Some c /\
                tunnel.IsClosed c (server.net st) = true) ->
  (forall r,
     server.Host r <> "" ->
     server.GetServiceByDomain (server.stripPort (server.Host r)) st = Some service ->
     models.PathPrefix service = "/"
     \/ server.HasPrefix (server.URLPath r) (models.PathPrefix service) = true ->
     server.handleHTTP json_Marshal r st
     = (server.HTTPError 503 "Service unavailable", st)) /\
  server.handleTCPConnection json_Marshal service st
  = (server.TCPClosed, server.GoesOn st).
Proof.
  intros Hdead. apply GetConnection_not_live in Hdead. split.
  - intros r Hhost Hsvc Hpath. rewrite (handleHTTP_resolved _ _ _ _ Hhost Hsvc Hpath).
    destruct (server.GetConnection (models.TunnelID service) st) as [[c|] b];
      cbn in Hdead; by subst.
  - unfold server.handleTCPConnection.
    destruct (server.GetConnection (models.TunnelID service) st) as [[c|] b];
      cbn in Hdead; by subst.
Qed.

Lemma ingress_without_live_link_rejected_witness :
  server.handleHTTP plainjson.Marshal scenario.request scenario.fresh
  = (server.HTTPError 503 "Service unavailable", scenario.fresh) /\
  server.handleTCPConnection plainjson.Marshal scenario.sshService scenario.fresh
  = (server.TCPClosed, server.GoesOn scenario.fresh).
Proof.
  split.
  - apply (ingress_without_live_link_rejected plainjson.Marshal scenario.fresh
             scenario.appService).
    + left. reflexivity.
    + discriminate.
    + reflexivity.
    + left. reflexivity.
  - apply (ingress_without_live_link_rejected plainjson.Marshal scenario.fresh
             scenario.sshService).
    left. reflexivity.
Defined.

(** The same for a tunnel whose registered connection has been closed by the
    probe: the design's fifth scenario. *)
Example ingress_after_stale_link :
  server.handleHTTP plainjson.Marshal scenario.request
    (server.performHealthChecks (fun _ => scenario.staleTime) scenario.connectedA)
  = (server.HTTPError 503 "Service unavailable",
     server.performHealthChecks (fun _ => scenario.staleTime) scenario.connectedA).
Proof. vm_compute. reflexivity. Qed.

(** [wrapStreamWithHeader] does not look at the stream it is given: it opens
    a stream on a connection object of its own, whose session is nil. *)
Lemma wrapStreamWithHeader_panics json_Marshal stream header n :
  server.wrapStreamWithHeader json_Marshal stream header n
  = (Panic, {| tunnel.conns := tunnel.conns n ++ [tunnel.zeroConnection];
               tunnel.streams := tunnel.streams n |}).
Proof.
  unfold server.wrapStreamWithHeader, tunnel.allocConn, tunnel.OpenStream, tunnel.Open.
  cbn. rewrite lookup_app_r by lia. by rewrite Nat.sub_diag.
Qed.

Lemma Open_Ok conn stream n n1 :
  tunnel.Open conn n = (Ok stream, n1) ->
  stream = length (tunnel.streams n) /\
  n1 = {| tunnel.conns := tunnel.conns n;
          tunnel.streams := tunnel.streams n ++
            [{| tunnel.parent := conn; tunnel.written := [];
                tunnel.streamClosed := false |}] |}.
Proof.
  unfold tunnel.Open. destruct (tunnel.conns n !! conn) as [x|]; [|done].
  destruct (tunnel.closed x); [done|]. destruct (tunnel.session x) as [s|]; [|done].
  destruct (tunnel.shutdown s); [done|]. by intros [= <- <-].
Qed.

(** C1 on the code.  Whenever an ingress request finds a live link and
    opens a stream on it, the handler panics inside [wrapStreamWithHeader],
    and the stream that was opened on the live link is closed with no byte
    written to it: the agent sees no stream header on it.  The panic of the
    HTTP handler is recovered by the HTTP server; that of the TCP handler
    ends the process. *)
Theorem ingress_header_never_reaches_stream
  (json_Marshal : tunnel.StreamHeader -> option (list byte))
  (st : server.State) (service : models.Service)
  (conn : tunnel.ConnID) (stream : tunnel.StreamID) (n1 : tunnel.Net) :
  server.GetConnection (models.TunnelID service) st = (Some conn, true) ->
  tunnel.Open conn (server.net st) = (Ok stream, n1) ->
  (forall r,
     server.Host r <> "" ->
     server.GetServiceByDomain (server.stripPort (server.Host r)) st = Some service ->
     models.PathPrefix service = "/"
     \/ server.HasPrefix (server.URLPath r) (models.PathPrefix service) = true ->
     exists st',
       server.handleHTTP json_Marshal r st = (server.HandlerPanic, st') /\
       tunnel.streams (server.net st') !! stream
       = Some {| tunnel.parent := conn; tunnel.written := [];
                 tunnel.streamClosed := true |}) /\
  (exists st',
     server.handleTCPConnection json_Marshal service st
     = (server.TCPPanic, server.ProcessEnds st') /\
     tunnel.streams (server.net st') !! stream
     = Some {| tunnel.parent := conn; tunnel.written := [];
               tunnel.streamClosed := true |}).
Proof.
  intros Hget Hopen.
  assert (Hclose : forall header,
    tunnel.streams
      (tunnel.streamClose stream
         (server.wrapStreamWithHeader json_Marshal stream header n1).2) !! stream
    = Some {| tunnel.parent := conn; tunnel.written := [];
              tunnel.streamClosed := true |}).
  { intros header. rewrite wrapStreamWithHeader_panics.
    apply Open_Ok in Hopen as [-> ->]. unfold tunnel.streamClose. cbn.
    rewrite lookup_app_r by lia. rewrite Nat.sub_diag. cbn.
    rewrite list_lookup_insert_eq; [done|]. rewrite length_app. cbn. lia. }
  split.
  - intros r Hhost Hsvc Hpath. rewrite (handleHTTP_resolved _ _ _ _ Hhost Hsvc Hpath).
    rewrite Hget, Hopen.
    specialize (Hclose {| tunnel.Type_ := "http";
                          tunnel.Target := models.TargetAddr service |}).
    rewrite wrapStreamWithHeader_panics in *. eexists. split; [reflexivity|].
    exact Hclose.
  - unfold server.handleTCPConnection. rewrite Hget, Hopen.
    specialize (Hclose {| tunnel.Type_ := "tcp";
                          tunnel.Target := models.TargetAddr service |}).
    rewrite wrapStreamWithHeader_panics in *. eexists. split; [reflexivity|].
    exact Hclose.
Qed.

Lemma ingress_header_never_reaches_stream_witness :
  exists st',
    server.handleHTTP plainjson.Marshal scenario.request scenario.connectedA
    = (server.HandlerPanic, st') /\
    tunnel.streams (server.net st') !! 0%nat
    = Some {| tunnel.parent := 0%nat; tunnel.written := [];
              tunnel.streamClosed := true |}.
Proof.
  destruct (ingress_header_never_reaches_stream plainjson.Marshal
              scenario.connectedA scenario.appService 0%nat 0%nat
              (tunnel.Open 0%nat (server.net scenario.connectedA)).2)
    as [Hhttp _].
  - reflexivity.
  - reflexivity.
  - apply (Hhttp scenario.request).
    + discriminate.
    + reflexivity.
    + left. reflexivity.
Defined.

(** ** The framed channel as a byte stream *)

(** C7 on the code.  On an open channel, a [Read] that takes the rest of the
    current frame is followed by a [Read] that returns [(0, io.EOF)], whether
    or not further frames have arrived; only the [Read] after that one moves
    on to the next frame. *)
Theorem Read_frame_boundary_is_EOF (buflen : nat) (frame : list byte)
  (rest : list (list byte)) :
  frame <> [] ->
  (length frame <= buflen)%nat ->
  tunnel.Reads 2 buflen
    {| tunnel.inbound := frame :: rest; tunnel.wsDown := false;
       tunnel.reader := None |}
  = ([tunnel.Returned frame None; tunnel.Returned [] (Some tunnel.EOF)],
     {| tunnel.inbound := rest; tunnel.wsDown := false; tunnel.reader := None |}).
Proof.
  intros Hne Hlen. destruct frame as [|b frame]; [done|].
  cbn [tunnel.Reads tunnel.Read tunnel.reader tunnel.inbound tunnel.wsDown
       tunnel.messageRead].
  rewrite firstn_all2, skipn_all2 by done. reflexivity.
Qed.

Lemma Read_frame_boundary_is_EOF_witness :
  tunnel.Reads 2 4 scenario.twoFrames
  = ([tunnel.Returned [x01; x02] None; tunnel.Returned [] (Some tunnel.EOF)],
     {| tunnel.inbound := [[x03]]; tunnel.wsDown := false; tunnel.reader := None |}).
Proof.
  apply (Read_frame_boundary_is_EOF 4 [x01; x02] [[x03]]).
  - discriminate.
  - cbn. lia.
Defined.

(** Three reads over two frames: the second frame is served by the third read. *)
Example Read_two_frames :
  (tunnel.Reads 3 4 scenario.twoFrames).1
  = [tunnel.Returned [x01; x02] None;
     tunnel.Returned [] (Some tunnel.EOF);
     tunnel.Returned [x03] None].
Proof. reflexivity. Qed.

(** ** The bidirectional copy *)

Lemma copyStep_closed_src src dst :
  tunnel.rdClosed src = true ->
  tunnel.copyStep src dst = tunnel.Finished (Some tunnel.ErrUseOfClosedConn) src.
Proof. intros H. unfold tunnel.copyStep. by rewrite H. Qed.

(** C9, as the code has it.  When the copy of one direction returns, on the
    end of its source or on an error, both connections are closed in both
    halves; the other direction, if it is still running, cannot block any
    more, and its next step ends it with an error and forwards nothing. *)
Theorem copy_end_closes_both_sides (g : tunnel.Goroutine)
  (st st' : tunnel.CopyState) :
  tunnel.step g st = Some st' ->
  tunnel.statusOf g st' <> tunnel.Running ->
  tunnel.fullyClosed (tunnel.conn1 st') = true /\
  tunnel.fullyClosed (tunnel.conn2 st') = true /\
  (tunnel.statusOf (tunnel.other g) st' = tunnel.Running ->
   exists st'',
     tunnel.step (tunnel.other g) st' = Some st'' /\
     tunnel.statusOf (tunnel.other g) st''
     = tunnel.Done (Some tunnel.ErrUseOfClosedConn) /\
     tunnel.sent (tunnel.conn1 st'') = tunnel.sent (tunnel.conn1 st') /\
     tunnel.sent (tunnel.conn2 st'') = tunnel.sent (tunnel.conn2 st')).
Proof.
  intros Hstep Hdone. destruct g; cbn [tunnel.step] in Hstep.
  - destruct (tunnel.status1 st); [|done].
    destruct (tunnel.copyStep (tunnel.conn2 st) (tunnel.conn1 st)) as [src dst|err src|];
      [|injection Hstep as <-|done].
    { injection Hstep as <-. by cbn in Hdone. }
    split; [done|]. split; [done|]. cbn. intros ->.
    eexists. split; [reflexivity|]. done.
  - destruct (tunnel.status2 st); [|done].
    destruct (tunnel.copyStep (tunnel.conn1 st) (tunnel.conn2 st)) as [src dst|err src|];
      [|injection Hstep as <-|done].
    { injection Hstep as <-. by cbn in Hdone. }
    split; [done|]. split; [done|]. cbn. intros ->.
    eexists. split; [reflexivity|]. done.
Qed.

Lemma copy_end_closes_both_sides_witness :
  let st' := tunnel.run [tunnel.G1]
               (tunnel.startCopy scenario.client scenario.finishedStream) in
  tunnel.fullyClosed (tunnel.conn1 st') = true /\
  tunnel.fullyClosed (tunnel.conn2 st') = true.
Proof.
  destruct (copy_end_closes_both_sides tunnel.G1
              (tunnel.startCopy scenario.client scenario.finishedStream)
              (tunnel.run [tunnel.G1]
                 (tunnel.startCopy scenario.client scenario.finishedStream)))
    as (H1 & H2 & _).
  - reflexivity.
  - discriminate.
  - split; [exact H1 | exact H2].
Defined.

(** C9, as stated, on a client that still has a byte to send while the
    stream's far end has finished: the copy from the stream ends on EOF, and
    instead of closing only the write half of the client's connection the
    code closes both connections, so the copy from the client ends with an
    error and the byte is never forwarded. *)
Lemma copy_half_close_counterexample :
  let st1 := tunnel.run [tunnel.G1]
               (tunnel.startCopy scenario.client scenario.finishedStream) in
  let st2 := tunnel.run [tunnel.G1; tunnel.G2]
               (tunnel.startCopy scenario.client scenario.finishedStream) in
  tunnel.status1 st1 = tunnel.Done None /\
  tunnel.rdClosed (tunnel.conn1 st1) = true /\
  tunnel.wrClosed (tunnel.conn2 st1) = true /\
  ~ spec_half_close st1 /\
  tunnel.sent (tunnel.conn2 st2) = [] /\
  tunnel.CopyBidirectional_result st2 = Some (Some tunnel.ErrUseOfClosedConn).
Proof.
  cbv zeta. repeat split; try reflexivity.
  intros H. destruct (H eq_refl) as (_ & Hrd & _). discriminate Hrd.
Qed.

(** * Further properties of the code *)

(** ** Connections *)

Lemma Close_lookup c x n :
  tunnel.conns n !! c = Some x ->
  tunnel.closed x = false ->
  tunnel.conns (tunnel.Close c n) !! c
  = Some {| tunnel.session := (fun _ => {| tunnel.shutdown := true |}) <$> tunnel.session x;
            tunnel.token := tunnel.token x; tunnel.closed := true;
            tunnel.lastPing := tunnel.lastPing x; tunnel.outbox := tunnel.outbox x;
            tunnel.wsFault := tunnel.wsFault x |}.
Proof.
  intros Hx Hopen. unfold tunnel.Close. rewrite Hx, Hopen. cbn.
  rewrite list_lookup_insert_eq; [done|]. by eapply lookup_lt_Some.
Qed.

Lemma Close_closed c x n :
  tunnel.conns n !! c = Some x -> tunnel.closed x = true -> tunnel.Close c n = n.
Proof. intros Hx Hc. unfold tunnel.Close. by rewrite Hx, Hc. Qed.

(** X1. [Close] is idempotent, and once a connection is closed it refuses
    every operation with "connection closed": [Open] opens no stream and
    [SendMessage] writes no frame, whatever the state of the session and of
    the websocket. *)
Theorem closed_connection_refuses (c : tunnel.ConnID) (x : tunnel.Connection)
  (n : tunnel.Net) :
  tunnel.conns n !! c = Some x ->
  let n' := tunnel.Close c n in
  tunnel.Close c n' = n' /\
  tunnel.IsClosed c n' = true /\
  tunnel.Open c n' = (Err tunnel.ErrConnectionClosed, n') /\
  (forall msg, tunnel.SendMessage msg c n' = (Some tunnel.ErrConnectionClosed, n')) /\
  tunnel.streams n' = tunnel.streams n.
Proof.
  intros Hx n'.
  assert (Hx' : exists x', tunnel.conns n' !! c = Some x' /\ tunnel.closed x' = true).
  { subst n'. destruct (tunnel.closed x) eqn:Hc.
    - rewrite (Close_closed _ _ _ Hx Hc). eauto.
    - rewrite (Close_lookup _ _ _ Hx Hc). eauto. }
  destruct Hx' as (x' & Hx' & Hc').
  split; [by apply (Close_closed _ x')|]. split; [apply IsClosed_Close|].
  split; [unfold tunnel.Open; by rewrite Hx', Hc'|].
  split; [intros msg; unfold tunnel.SendMessage; by rewrite Hx', Hc'|].
  subst n'. unfold tunnel.Close. rewrite Hx. by destruct (tunnel.closed x).
Qed.

Lemma closed_connection_refuses_witness :
  let n' := tunnel.Close 0%nat (server.net scenario.connectedA) in
  tunnel.Open 0%nat n' = (Err tunnel.ErrConnectionClosed, n') /\
  tunnel.Ping 0%nat n' = (Some tunnel.ErrConnectionClosed, n').
Proof.
  destruct (closed_connection_refuses 0%nat (tunnel.newConnection "tok1" 1)
              (server.net scenario.connectedA)) as (_ & _ & Ho & Hs & _).
  - reflexivity.
  - split; [exact Ho | apply Hs].
Defined.

Lemma IsClosed_UpdateLastPing c c' now n :
  tunnel.IsClosed c' (tunnel.UpdateLastPing c now n) = tunnel.IsClosed c' n.
Proof.
  unfold tunnel.UpdateLastPing, tunnel.IsClosed.
  destruct (tunnel.conns n !! c) as [x|] eqn:E; [|done]. cbn.
  destruct (decide (c = c')) as [<-|Hne].
  - rewrite list_lookup_insert_eq by (by eapply lookup_lt_Some). by rewrite E.
  - by rewrite list_lookup_insert_ne.
Qed.

Lemma IsClosed_setEnv c c' f n :
  (forall x, tunnel.closed (f x) = tunnel.closed x) ->
  tunnel.IsClosed c' (server.setEnv c f n) = tunnel.IsClosed c' n.
Proof.
  intros Hf. unfold server.setEnv, tunnel.IsClosed.
  destruct (tunnel.conns n !! c) as [x|] eqn:E; [|done]. cbn.
  destruct (decide (c = c')) as [<-|Hne].
  - rewrite list_lookup_insert_eq by (by eapply lookup_lt_Some). by rewrite E, Hf.
  - by rewrite list_lookup_insert_ne.
Qed.

Lemma IsClosed_healthCheck_mono now T c c' st :
  tunnel.IsClosed c' (server.net st) = true ->
  tunnel.IsClosed c' (server.net (server.healthCheck now T c st)) = true.
Proof.
  intros H. unfold server.healthCheck.
  destruct (tunnel.IsClosed c (server.net st)); [done|].
  destruct (_ >? _); [rewrite recordCheck_net; cbn; by apply IsClosed_Close_mono|].
  pose proof (IsClosed_SendMessage pingMessage c c' (server.net st)) as Hs.
  unfold tunnel.Ping. fold pingMessage.
  destruct (tunnel.SendMessage pingMessage c (server.net st)) as [[e|] n1]; cbn in *.
  - rewrite recordCheck_net. cbn. apply IsClosed_Close_mono. by rewrite Hs.
  - by rewrite Hs.
Qed.

(** X2. No action of the server or of its environment reopens a connection:
    an allocated connection object that is closed stays closed under every
    event, so [IsClosed] is a one-way flag. *)
Theorem closed_is_permanent (ev : server.Event) (st : server.State)
  (c : tunnel.ConnID) :
  (c < length (tunnel.conns (server.net st)))%nat ->
  tunnel.IsClosed c (server.net st) = true ->
  tunnel.IsClosed c (server.net (server.apply_event ev st)) = true.
Proof.
  intros Hlt Hc.
  destruct ev;
    cbn [server.apply_event tunnel.allocConn server.setNet server.net
         server.DeleteTunnel server.CleanupOldChecks server.setConnections snd];
    try unfold server.unregisterConnection; rewrite ?recordCheck_net; try done.
  - unfold server.registerConnection. cbn [server.net server.setNet server.setConnections
                                           server.connections].
    assert (Ha : tunnel.IsClosed c
              {| tunnel.conns := tunnel.conns (server.net st) ++
                                   [tunnel.newConnection tok now];
                 tunnel.streams := tunnel.streams (server.net st) |} = true).
    { pose proof (IsClosed_allocConn_old (tunnel.newConnection tok now) c
                    (server.net st) Hlt) as H. cbn in H. by rewrite H. }
    destruct (server.connections st !! tunnelID); [by apply IsClosed_Close_mono | done].
  - by apply IsClosed_Close_mono.
  - by rewrite IsClosed_UpdateLastPing.
  - by rewrite IsClosed_SendMessage.
  - by apply IsClosed_healthCheck_mono.
  - by rewrite IsClosed_setEnv.
  - by rewrite IsClosed_setEnv.
  - pose proof (IsClosed_allocConn_old tunnel.zeroConnection c (server.net st) Hlt) as H.
    cbn in H. by rewrite H.
  - unfold tunnel.IsClosed in *. by rewrite conns_Open.
  - unfold tunnel.IsClosed in *. by rewrite conns_streamWrite.
  - unfold tunnel.IsClosed in *. by rewrite conns_streamClose.
Qed.

Lemma closed_is_permanent_witness :
  tunnel.IsClosed 0%nat
    (server.net (server.apply_event (server.EvUpdateLastPing 0%nat 5)
                   scenario.displaced)) = true.
Proof.
  apply (closed_is_permanent (server.EvUpdateLastPing 0%nat 5) scenario.displaced 0%nat).
  - vm_compute. lia.
  - reflexivity.
Defined.

(** ** Handshake, registration and lookup *)

Lemma GetTunnelByToken_Some tok st t :
  server.GetTunnelByToken tok st = Some t ->
  t ∈ server.tunnels st /\ models.Token t = tok.
Proof.
  unfold server.GetTunnelByToken. intros H. apply find_some in H as [Hin Heq].
  split; [by apply list_elem_of_In | by apply String.eqb_eq].
Qed.

(** X3. Registering a connection for one tunnel, and unregistering a tunnel,
    leave the lookups of every other tunnel as they were: the connection
    found and whether it counts as connected. *)
Theorem register_leaves_other_tunnels (st : server.State) (T T' tok : string)
  (now : Z) :
  server.reachable st ->
  T' <> T ->
  server.GetConnection T' (server.apply_event (server.EvRegister T tok now) st)
  = server.GetConnection T' st /\
  server.GetConnection T' (server.unregisterConnection T now st)
  = server.GetConnection T' st.
Proof.
  intros Hr Hne. destruct (reachable_wf st Hr) as [Halloc Hinj]. split.
  - unfold server.GetConnection.
    cbn [server.apply_event tunnel.allocConn]. unfold server.registerConnection.
    cbn [server.connections server.setConnections server.setNet server.net].
    rewrite lookup_insert_ne by done.
    destruct (server.connections st !! T') as [c'|] eqn:E'; [|done].
    f_equal. f_equal.
    pose proof (Halloc _ _ E') as Hlt.
    pose proof (IsClosed_allocConn_old (tunnel.newConnection tok now) c'
                  (server.net st) Hlt) as Hold. cbn in Hold.
    destruct (server.connections st !! T) as [existing|] eqn:E; [|done].
    rewrite IsClosed_Close_ne; [done|].
    intros ->. apply Hne. by apply (Hinj T' T c').
  - unfold server.GetConnection, server.unregisterConnection.
    rewrite recordCheck_connections, recordCheck_net. cbn.
    by rewrite lookup_delete_ne.
Qed.

Lemma register_leaves_other_tunnels_witness :
  server.GetConnection "T2"
    (server.apply_event (server.EvRegister "T1" "tok1" 2) scenario.connectedA)
  = server.GetConnection "T2" scenario.connectedA.
Proof.
  assert (Hr : server.reachable scenario.connectedA).
  { apply server.reachable_step, server.reachable_step, server.reachable_init. }
  apply (register_leaves_other_tunnels scenario.connectedA "T1" "T2" "tok1" 2 Hr).
  discriminate.
Defined.

(** X4. A handshake that is not accepted changes nothing: an empty token is
    answered 400 and an unknown one 401, and in every case other than
    acceptance the registry, the connection objects and the ledger are as
    before, so a failed handshake cannot displace a live link.  A handshake
    is accepted only for the tunnel whose stored token is the presented one. *)
Theorem failed_handshake_changes_nothing (tok : string) (upgraded sessionOk : bool)
  (now : Z) (st : server.State) :
  let r := server.HandleWebSocket_accept tok upgraded sessionOk now st in
  (tok = "" -> r = (server.Rejected 400, st)) /\
  (tok <> "" -> server.GetTunnelByToken tok st = None ->
   r = (server.Rejected 401, st)) /\
  ((forall T c, r.1 <> server.Accepted T c) -> r.2 = st) /\
  (forall T c, r.1 = server.Accepted T c ->
     tok <> "" /\ upgraded = true /\ sessionOk = true /\
     exists t, t ∈ server.tunnels st /\ models.Token t = tok /\ models.ID t = T).
Proof.
  cbv zeta. unfold server.HandleWebSocket_accept.
  destruct (String.eqb_spec tok "") as [->|Hne].
  { repeat split; try done. }
  split; [done|]. split; [by intros _ ->|].
  destruct (server.GetTunnelByToken tok st) as [t|] eqn:Ht; [|by repeat split].
  destruct upgraded; [|by repeat split]. destruct sessionOk; [|by repeat split].
  cbn. split.
  - intros H. by destruct (H (models.ID t) (length (tunnel.conns (server.net st)))).
  - intros T c [= <- <-]. repeat split; try done.
    apply GetTunnelByToken_Some in Ht as [Hin Htok]. by exists t.
Qed.






(** ** Catalog lookups and HTTP routing *)

(** X6. [GetTunnelByToken] finds a tunnel of the table whose token is the
    presented one; it finds none exactly when no tunnel has that token; and
    when tokens are unique, as the schema requires, it finds every tunnel by
    its own token. *)
Theorem GetTunnelByToken_spec (tok : string) (st : server.State) :
  (forall t, server.GetTunnelByToken tok st = Some t ->
             t ∈ server.tunnels st /\ models.Token t = tok) /\
  (server.GetTunnelByToken tok st = None <->
   forall t, t ∈ server.tunnels st -> models.Token t <> tok) /\
  (NoDup (models.Token <$> server.tunnels st) ->
   forall t, t ∈ server.tunnels st -> models.Token t = tok ->
             server.GetTunnelByToken tok st = Some t).
Proof.
  split; [intros t; apply GetTunnelByToken_Some|].
  unfold server.GetTunnelByToken. split.
  - split.
    + intros H t Hin Htok. apply list_elem_of_In in Hin.
      pose proof (find_none _ _ H t Hin) as Hf. cbn in Hf.
      apply String.eqb_neq in Hf. done.
    + intros H. destruct (find _ _) as [t|] eqn:E; [|done].
      apply find_some in E as [Hin Heq]. apply String.eqb_eq in Heq.
      apply list_elem_of_In in Hin. by destruct (H t Hin).
  - induction (server.tunnels st) as [|a l IH]; intros Hnd t Hin Htok.
    { by apply elem_of_nil in Hin. }
    cbn in Hnd. apply NoDup_cons in Hnd as [Ha Hnd]. cbn [find].
    destruct (String.eqb_spec (models.Token a) tok) as [Heq|Hneq].
    + apply elem_of_cons in Hin as [->|Hin]; [done|].
      exfalso. apply Ha. apply list_elem_of_fmap. exists t. split; [congruence|done].
    + apply elem_of_cons in Hin as [->|Hin]; [done|]. by apply IH.
Qed.

Lemma LastIndex_absent (s : string) (c : ascii) :
  ~ In c (list_ascii_of_string s) -> server.LastIndex s c = None.
Proof.
  induction s as [|a s IH]; intros H; [done|].
  cbn in *. rewrite IH by tauto.
  destruct (Ascii.eqb_spec a c); [|done]. tauto.
Qed.

Lemma LastIndex_last (h p : string) (c : ascii) :
  ~ In c (list_ascii_of_string p) ->
  server.LastIndex (h ++ String c p) c = Some (String.length h).
Proof.
  intros H. induction h as [|a h IH].
  - change (server.LastIndex (String c p) c = Some 0%nat).
    cbn [server.LastIndex].
    rewrite (LastIndex_absent p c H). by rewrite Ascii.eqb_refl.
  - change (server.LastIndex (String a (h ++ String c p)) c
            = Some (S (String.length h))).
    cbn [server.LastIndex]. by rewrite IH.
Qed.

Lemma substring_prefix (h rest : string) :
  substring 0 (String.length h) (h ++ rest) = h.
Proof.
  induction h as [|a h IH].
  - by destruct rest.
  - change (substring 0 (S (String.length h)) (String a (h ++ rest)) = String a h).
    cbn [substring]. by rewrite IH.
Qed.

(** X7. Removing the port: a host of the form [name:port], where [port] has
    no colon, is cut to [name] (everything before its last colon), and a
    host without any colon is left as it is. *)
Theorem stripPort_spec (name port : string) :
  ~ In ":"%char (list_ascii_of_string port) ->
  server.stripPort (name ++ String ":"%char port) = name /\
  (~ In ":"%char (list_ascii_of_string name) -> server.stripPort name = name).
Proof.
  intros Hp. unfold server.stripPort. split.
  - rewrite (LastIndex_last name port _ Hp). apply substring_prefix.
  - intros Hn. by rewrite (LastIndex_absent name _ Hn).
Qed.

Lemma stripPort_spec_witness :
  server.stripPort "app.example.com:8080" = "app.example.com"%string.
Proof.
  destruct (stripPort_spec "app.example.com" "8080") as [H _]; [|exact H].
  cbn. intros H. repeat (destruct H as [H|H]; [discriminate H|]). exact H.
Defined.

(** X8. Every HTTP request is either refused with 400 "Missing Host header",
    404 "Service not found" or 404 "Path not found", or it has been resolved
    to a service of the catalog that is of type http, enabled, whose domain
    is the request's host without the port and whose path prefix is ["/"]
    or a prefix of the request path. *)
Theorem handleHTTP_routes_to_catalog
  (json_Marshal : tunnel.StreamHeader -> option (list byte))
  (r : server.Request) (st : server.State) :
  let outcome := (server.handleHTTP json_Marshal r st).1 in
  outcome = server.HTTPError 400 "Missing Host header" \/
  outcome = server.HTTPError 404 "Service not found" \/
  outcome = server.HTTPError 404 "Path not found" \/
  exists service,
    service ∈ server.services st /\
    models.Type_ service = "http"%string /\
    models.Domain service = server.stripPort (server.Host r) /\
    models.Enabled service = true /\
    (models.PathPrefix service = "/"%string
     \/ server.HasPrefix (server.URLPath r) (models.PathPrefix service) = true).
Proof.
  cbv zeta. unfold server.handleHTTP.
  destruct (String.eqb_spec (server.Host r) ""); [by left|].
  destruct (server.GetServiceByDomain _ st) as [service|] eqn:Hsvc; [|by right; left].
  pose proof Hsvc as Hfind. unfold server.GetServiceByDomain in Hfind.
  apply find_some in Hfind as [Hin Hf].
  apply andb_prop in Hf as [Hf Hen]. apply andb_prop in Hf as [Hty Hdom].
  apply String.eqb_eq in Hty, Hdom. rewrite Hen. cbn [negb].
  destruct (String.eqb_spec (models.PathPrefix service) "") as [|].
  - destruct (String.eqb_spec (models.PathPrefix service) "/") as [Hp|Hp];
      [congruence|]. cbn [negb andb].
    destruct (server.HasPrefix _ _) eqn:Hpre; cbn [negb]; [|by right; right; left].
    right; right; right. exists service.
    split; [by apply list_elem_of_In|]. auto.
  - destruct (String.eqb_spec (models.PathPrefix service) "/") as [Hp|Hp];
      cbn [negb andb].
    + right; right; right. exists service.
      split; [by apply list_elem_of_In|]. auto.
    + destruct (server.HasPrefix _ _) eqn:Hpre; cbn [negb]; [|by right; right; left].
      right; right; right. exists service.
      split; [by apply list_elem_of_In|]. auto.
Qed.

(** X9. [handleHTTP] never answers 503 "Service disabled": the catalog query
    returns enabled services only, so the test of [service.Enabled] never
    fails. *)
Theorem handleHTTP_never_service_disabled
  (json_Marshal : tunnel.StreamHeader -> option (list byte))
  (r : server.Request) (st : server.State) :
  (server.handleHTTP json_Marshal r st).1 <> server.HTTPError 503 "Service disabled".
Proof.
  unfold server.handleHTTP.
  destruct (String.eqb (server.Host r) ""); [done|].
  destruct (server.GetServiceByDomain _ st) as [service|] eqn:Hsvc; [|done].
  rewrite (GetServiceByDomain_enabled _ _ _ Hsvc). cbn [negb].
  destruct (_ && _); [done|].
  destruct (server.GetConnection _ st) as [[conn|] [|]]; try done.
  destruct (tunnel.Open conn (server.net st)) as [[stream| |] n1]; try done.
  rewrite wrapStreamWithHeader_panics. done.
Qed.

(** X10. Ingress never touches the registry, the ledger or the catalog, and
    it never changes a connection object: in the state the server goes on
    in after [handleHTTP] (whatever its outcome, a recovered panic included)
    or after a [handleTCPConnection] that returns, the connection map, the
    check rows, the tunnels and the services are as before, and every
    connection object is as it was.  A [handleTCPConnection] that does not
    return has panicked, which ends the process; this happens exactly when
    the tunnel has a live link and opening a stream on it does not fail, so
    the TCP handler never reaches the copy. *)
Theorem ingress_leaves_registry_and_ledger
  (json_Marshal : tunnel.StreamHeader -> option (list byte))
  (st : server.State) :
  (forall st',
     (exists r, st' = (server.handleHTTP json_Marshal r st).2)
     \/ (exists service,
           (server.handleTCPConnection json_Marshal service st).2
           = server.GoesOn st') ->
     server.connections st' = server.connections st /\
     server.checks st' = server.checks st /\
     server.tunnels st' = server.tunnels st /\
     server.services st' = server.services st /\
     forall c x, tunnel.conns (server.net st) !! c = Some x ->
                 tunnel.conns (server.net st') !! c = Some x) /\
  (forall service,
     ((exists last,
         (server.handleTCPConnection json_Marshal service st).2
         = server.ProcessEnds last) <->
      (exists conn,
         server.GetConnection (models.TunnelID service) st = (Some conn, true) /\
         forall e, (tunnel.Open conn (server.net st)).1 <> Err e)) /\
     ((server.handleTCPConnection json_Marshal service st).1 = server.TCPPanic <->
      exists last,
        (server.handleTCPConnection json_Marshal service st).2
        = server.ProcessEnds last) /\
     forall s,
       (server.handleTCPConnection json_Marshal service st).1 <> server.TCPCopying s).
Proof.
  assert (Hopen : forall conn stream n1 c x,
            tunnel.Open conn (server.net st) = (stream, n1) ->
            tunnel.conns (server.net st) !! c = Some x ->
            tunnel.conns n1 !! c = Some x).
  { intros conn stream n1 c x Ho Hx.
    pose proof (conns_Open conn (server.net st)) as H. rewrite Ho in H. cbn in H.
    by rewrite H. }
  assert (Hwrap : forall conn stream n1 s h c x,
            tunnel.Open conn (server.net st) = (stream, n1) ->
            tunnel.conns (server.net st) !! c = Some x ->
            tunnel.conns (tunnel.streamClose s
              (server.wrapStreamWithHeader json_Marshal s h n1).2) !! c = Some x).
  { intros conn stream n1 s h c x Ho Hx. rewrite wrapStreamWithHeader_panics.
    rewrite conns_streamClose. cbn. apply lookup_app_l_Some. by eapply Hopen. }
  split.
  - intros st' [[r ->]|[service Hst']].
    + unfold server.handleHTTP.
      destruct (String.eqb (server.Host r) ""); [done|].
      destruct (server.GetServiceByDomain _ st) as [service|]; [|done].
      destruct (negb _); [done|]. destruct (_ && _); [done|].
      destruct (server.GetConnection _ st) as [[conn|] [|]]; try done.
      destruct (tunnel.Open conn (server.net st)) as [[stream| |] n1] eqn:Ho;
        try (repeat split; try done; intros c x Hx; cbn; by eapply Hopen).
      pose proof (fun c x =>
                    Hwrap conn (Ok stream) n1 stream
                      {| tunnel.Type_ := "http";
                         tunnel.Target := models.TargetAddr service |} c x Ho) as Hw.
      rewrite wrapStreamWithHeader_panics in *.
      repeat split; try done. all: intros c x Hx; by apply Hw.
    + unfold server.handleTCPConnection in Hst'.
      destruct (server.GetConnection _ st) as [[conn|] [|]];
        try (cbn in Hst'; by injection Hst' as <-).
      destruct (tunnel.Open conn (server.net st)) as [[stream| |] n1] eqn:Ho.
      * by rewrite wrapStreamWithHeader_panics in Hst'.
      * cbn in Hst'. injection Hst' as <-.
        repeat split; try done. intros c x Hx; cbn; by eapply Hopen.
      * done.
  - intros service. unfold server.handleTCPConnection.
    destruct (server.GetConnection _ st) as [[conn|] [|]] eqn:Hget.
    2-4: (split; [split; [by intros [last ?] | by intros (conn' & ? & _)]|];
          split; [split; [done | by intros [last ?]] | done]).
    destruct (tunnel.Open conn (server.net st)) as [[stream|e|] n1] eqn:Ho.
    + rewrite wrapStreamWithHeader_panics. cbn.
      split; [split|split; [split|]]; try done.
      * intros _. exists conn. split; [done|]. by rewrite Ho.
      * intros _. by eexists.
      * intros _. by eexists.
    + cbn. split; [split|split; [split|]]; try done.
      * by intros [last ?].
      * intros (conn' & [= <-] & Hne). rewrite Ho in Hne. by destruct (Hne e).
      * by intros [last ?].
    + cbn. split; [split|split; [split|]]; try done.
      * intros _. exists conn. split; [done|]. by rewrite Ho.
      * intros _. by eexists.
      * intros _. by eexists.
Qed.

Lemma ingress_leaves_registry_and_ledger_witness :
  server.checks (server.handleHTTP plainjson.Marshal scenario.request
                   scenario.connectedA).2
  = server.checks scenario.connectedA.
Proof.
  destruct (ingress_leaves_registry_and_ledger plainjson.Marshal scenario.connectedA)
    as [Hhttp _].
  destruct (Hhttp (server.handleHTTP plainjson.Marshal scenario.request
                     scenario.connectedA).2) as (_ & Hchk & _).
  - left. by exists scenario.request.
  - exact Hchk.
Defined.

(** The design's first scenario over TCP: with agent A connected, a client
    that connects to the listener of the ssh service makes the handler
    panic, and the process ends. *)
Example tcp_ingress_ends_process :
  exists last,
    server.handleTCPConnection plainjson.Marshal scenario.sshService
      scenario.connectedA
    = (server.TCPPanic, server.ProcessEnds last).
Proof. by eexists. Qed.

(** ** The ledger and the rest of the tunnel manager *)

Lemma filter_sublist {A} (f : A -> bool) (l : list A) :
  List.filter f l `sublist_of` l.
Proof.
  induction l as [|a l IH]; [done|]. cbn.
  destruct (f a); [by apply sublist_skip | by apply sublist_cons].
Qed.

Lemma filter_filter_same {A} (f : A -> bool) (l : list A) :
  List.filter f (List.filter f l) = List.filter f l.
Proof.
  induction l as [|a l IH]; [done|]. cbn.
  destruct (f a) eqn:E; [|done]. cbn. by rewrite E, IH.
Qed.

(** X11. [CleanupOldChecks] keeps exactly the rows created at or after the
    cutoff, in their order, and touches nothing else; running it twice is
    the same as running it once.  The daily cleanup keeps every row that is
    at most 180 days old. *)
Theorem cleanup_keeps_recent_rows (cutoff : Z) (st : server.State) :
  let st' := server.CleanupOldChecks cutoff st in
  (forall chk, chk ∈ server.checks st' <->
               chk ∈ server.checks st /\ cutoff <= models.CreatedAt chk) /\
  server.checks st' `sublist_of` server.checks st /\
  server.CleanupOldChecks cutoff st' = st' /\
  server.connections st' = server.connections st /\
  server.net st' = server.net st /\
  (forall now chk,
     chk ∈ server.checks st ->
     now - 180 * 24 * 3600 * tunnel.Second <= models.CreatedAt chk ->
     chk ∈ server.checks (manager.cleanupTick now st)).
Proof.
  cbv zeta. split; [|split; [|split; [|split; [|split]]]]; try done.
  - intros chk. cbn. rewrite !list_elem_of_In, filter_In.
    split; intros [H1 H2]; (split; [done|]).
    + apply negb_true_iff in H2. lia.
    + apply negb_true_iff. lia.
  - apply filter_sublist.
  - unfold server.CleanupOldChecks. cbn. by rewrite filter_filter_same.
  - intros now chk Hin Hage. cbn. apply list_elem_of_In, filter_In.
    split; [by apply list_elem_of_In|].
    apply negb_true_iff. unfold manager.maxCheckAge, manager.Hour. lia.
Qed.

Lemma Stop_fold_connections l st :
  server.connections
    (fold_left (fun st (e : string * tunnel.ConnID) =>
                  server.setNet (tunnel.Close e.2 (server.net st)) st) l st)
  = server.connections st /\
  server.checks
    (fold_left (fun st (e : string * tunnel.ConnID) =>
                  server.setNet (tunnel.Close e.2 (server.net st)) st) l st)
  = server.checks st.
Proof.
  revert st. induction l as [|e l IH]; intros st; [done|].
  cbn. destruct (IH (server.setNet (tunnel.Close e.2 (server.net st)) st)) as [H1 H2].
  by rewrite H1, H2.
Qed.

Lemma Stop_fold_closed l c st :
  c ∈ l.*2 \/ tunnel.IsClosed c (server.net st) = true ->
  tunnel.IsClosed c
    (server.net
       (fold_left (fun st (e : string * tunnel.ConnID) =>
                     server.setNet (tunnel.Close e.2 (server.net st)) st) l st))
  = true.
Proof.
  revert st. induction l as [|e l IH]; intros st H.
  { destruct H as [H|H]; [by apply elem_of_nil in H | done]. }
  cbn. apply IH. cbn. cbn in H. destruct H as [H|H].
  - apply elem_of_cons in H as [->|H]; [right; apply IsClosed_Close | by left].
  - right. by apply IsClosed_Close_mono.
Qed.

(** X12. [Stop] closes every registered connection: afterwards no tunnel is
    connected, although every entry is still in the map, and [Stop] itself
    writes no check row. *)
Theorem Stop_closes_every_link (st : server.State) :
  server.connections (server.Stop st) = server.connections st /\
  server.checks (server.Stop st) = server.checks st /\
  (forall T c, server.connections st !! T = Some c ->
               tunnel.IsClosed c (server.net (server.Stop st)) = true) /\
  (forall T, server.IsConnected T (server.Stop st) = false).
Proof.
  unfold server.Stop.
  destruct (Stop_fold_connections (map_to_list (server.connections st)) st) as [Hc Hk].
  assert (Hcl : forall T c, server.connections st !! T = Some c ->
            tunnel.IsClosed c
              (server.net
                 (fold_left (fun st (e : string * tunnel.ConnID) =>
                               server.setNet (tunnel.Close e.2 (server.net st)) st)
                    (map_to_list (server.connections st)) st)) = true).
  { intros T c H. apply Stop_fold_closed. left.
    apply list_elem_of_fmap. exists (T, c). split; [done|].
    by apply elem_of_map_to_list. }
  split; [exact Hc|]. split; [exact Hk|]. split; [exact Hcl|].
  intros T. unfold server.IsConnected, server.GetConnection. rewrite Hc.
  destruct (server.connections st !! T) as [c|] eqn:E; [|done].
  cbn. by rewrite (Hcl T c E).
Qed.

Lemma omap_fst_sublist {A} (P : string * A -> bool) (l : list (string * A)) :
  omap (fun e => if P e then None else Some e.1) l `sublist_of` l.*1.
Proof.
  induction l as [|e l IH]; [done|]. cbn.
  destruct (P e); [by apply sublist_cons | by apply sublist_skip].
Qed.

(** X13. [ListConnectedTunnels] lists exactly the tunnels for which
    [IsConnected] holds, each of them once; the count the health endpoint
    reports is therefore the number of connected tunnels, and at most the
    number of registered ones. *)
Theorem ListConnectedTunnels_spec (st : server.State) :
  (forall T, T ∈ manager.ListConnectedTunnels st <-> server.IsConnected T st = true) /\
  NoDup (manager.ListConnectedTunnels st) /\
  (length (manager.ListConnectedTunnels st) <= size (server.connections st))%nat.
Proof.
  assert (Hsub : manager.ListConnectedTunnels st
                 `sublist_of` (map_to_list (server.connections st)).*1).
  { unfold manager.ListConnectedTunnels.
    apply (omap_fst_sublist (fun e => tunnel.IsClosed e.2 (server.net st))). }
  split; [|split].
  - intros T. unfold manager.ListConnectedTunnels, server.IsConnected,
      server.GetConnection.
    rewrite list_elem_of_omap. split.
    + intros ([k c] & Hin & Hf). apply elem_of_map_to_list in Hin. cbn in Hf.
      destruct (tunnel.IsClosed c (server.net st)) eqn:E; [done|].
      injection Hf as ->. rewrite Hin. cbn. by rewrite E.
    + destruct (server.connections st !! T) as [c|] eqn:E; [|done]. cbn.
      intros Hc. apply negb_true_iff in Hc. exists (T, c).
      split; [by apply elem_of_map_to_list|]. cbn. by rewrite Hc.
  - exact (sublist_NoDup _ _ (NoDup_fst_map_to_list (server.connections st)) Hsub).
  - apply sublist_length in Hsub. rewrite length_fmap in Hsub.
    by rewrite length_map_to_list in Hsub.
Qed.

Lemma healthCheck_rows now T c st :
  server.tunnels (server.healthCheck now T c st) = server.tunnels st /\
  server.services (server.healthCheck now T c st) = server.services st /\
  exists added,
    server.checks (server.healthCheck now T c st) = server.checks st ++ added /\
    (length added <= 1)%nat /\
    Forall (fun chk => models.Status chk = "down"%string /\
                       is_Some (models.Error chk) /\
                       models.LatencyMs chk = None /\
                       models.CheckTunnelID chk = T) added.
Proof.
  assert (Hrow : forall err st0, exists added,
    server.checks (server.recordCheck (server.downCheck T (Some err) now) st0)
    = server.checks st0 ++ added /\
    (length added <= 1)%nat /\
    Forall (fun chk => models.Status chk = "down"%string /\
                       is_Some (models.Error chk) /\
                       models.LatencyMs chk = None /\
                       models.CheckTunnelID chk = T) added).
  { intros err st0. rewrite recordCheck_downCheck.
    destruct (server.tunnelExists T st0).
    - eexists [_]. split; [done|]. split; [done|]. repeat constructor. by eexists.
    - exists []. rewrite app_nil_r. auto. }
  unfold server.healthCheck.
  destruct (tunnel.IsClosed c (server.net st)).
  { repeat split; try done. exists []. rewrite app_nil_r. auto. }
  destruct (_ >? _).
  { rewrite recordCheck_tunnels, recordCheck_services.
    split; [done|]. split; [done|].
    apply (Hrow _ (server.setNet (tunnel.Close c (server.net st)) st)). }
  destruct (tunnel.Ping c (server.net st)) as [[e|] n1].
  - rewrite recordCheck_tunnels, recordCheck_services.
    split; [done|]. split; [done|].
    apply (Hrow _ (server.setNet (tunnel.Close c n1) st)).
  - repeat split; try done. exists []. rewrite app_nil_r. auto.
Qed.

(** X14. A probe tick never changes the connection map and never writes an
    up row: whatever the snapshot and the clock, the registered entries are
    as before (a link the probe closes stays registered), the catalog is
    untouched, and the rows appended, at most one per snapshot entry, are
    down rows that carry an error text, no latency, and the tunnel ID of an
    entry of the snapshot. *)
Theorem probe_writes_only_down_rows (clock : string -> Z)
  (snapshot : list (string * tunnel.ConnID)) (st : server.State) :
  let st' := server.performHealthChecks_over clock snapshot st in
  server.connections st' = server.connections st /\
  server.tunnels st' = server.tunnels st /\
  server.services st' = server.services st /\
  exists added,
    server.checks st' = server.checks st ++ added /\
    (length added <= length snapshot)%nat /\
    Forall (fun chk => models.Status chk = "down"%string /\
                       is_Some (models.Error chk) /\
                       models.LatencyMs chk = None /\
                       models.CheckTunnelID chk ∈ snapshot.*1) added.
Proof.
  cbv zeta. revert st. induction snapshot as [|[T c] l IH]; intros st.
  { repeat split; try done. exists []. rewrite app_nil_r. auto. }
  change (server.performHealthChecks_over clock ((T, c) :: l) st)
    with (server.performHealthChecks_over clock l
            (server.healthCheck (clock T) T c st)).
  destruct (IH (server.healthCheck (clock T) T c st))
    as (Hc & Ht & Hs & a2 & Ha2 & Hl2 & Hf2).
  destruct (healthCheck_rows (clock T) T c st) as (Ht1 & Hs1 & a1 & Ha1 & Hl1 & Hf1).
  rewrite Hc, Ht, Hs, healthCheck_connections, Ht1, Hs1.
  repeat split; try done.
  exists (a1 ++ a2). split; [by rewrite Ha2, Ha1, app_assoc|].
  split; [rewrite length_app; cbn; lia|].
  apply Forall_app. split.
  - eapply Forall_impl; [exact Hf1|]. intros chk (H1 & H2 & H3 & H4).
    repeat split; try done. rewrite H4. cbn. apply list_elem_of_here.
  - eapply Forall_impl; [exact Hf2|]. intros chk (H1 & H2 & H3 & H4).
    repeat split; try done. cbn. by apply list_elem_of_further.
Qed.

(** X15. The server's control reader: a pong sets the connection's last
    ping time to the time of receipt and writes nothing; a ping from the
    agent is answered with a pong and, when the tunnel still has its row in
    the tunnels table, recorded as an up row with the measured latency (when
    the tunnel has been deleted the insert is refused, the error is logged,
    no row is written and the reader goes on); a ping does not refresh the
    last ping time, and ends the reader without a row when the pong cannot
    be sent; any other message type leaves the state as it is. *)
Theorem control_message_effects (T : string) (c : tunnel.ConnID)
  (x : tunnel.Connection) (msgType : string) (latency now : Z)
  (st : server.State) :
  tunnel.conns (server.net st) !! c = Some x ->
  let r := server.handleControlMessage T c msgType latency now st in
  (msgType = "pong"%string ->
   r.1 = true /\ tunnel.LastPing c (server.net r.2) = now /\
   tunnel.IsClosed c (server.net r.2) = tunnel.closed x /\
   server.checks r.2 = server.checks st /\
   server.connections r.2 = server.connections st) /\
  (msgType = "ping"%string ->
   tunnel.LastPing c (server.net r.2) = tunnel.lastPing x /\
   (tunnel.closed x = false -> tunnel.wsFault x = None ->
    r.1 = true /\
    server.checks r.2
    = (if server.tunnelExists T st
       then server.checks st ++ [server.pingCheck T latency now]
       else server.checks st) /\
    server.connections r.2 = server.connections st /\
    tunnel.outbox <$> tunnel.conns (server.net r.2) !! c
    = Some (tunnel.outbox x ++ [{| tunnel.msgType := "pong"; tunnel.msgTarget := "" |}])) /\
   (tunnel.closed x = true \/ is_Some (tunnel.wsFault x) -> r = (false, st))) /\
  (msgType <> "ping"%string -> msgType <> "pong"%string -> r = (true, st)).
Proof.
  intros Hx. cbv zeta.
  assert (Hlt : (c < length (tunnel.conns (server.net st)))%nat)
    by (by eapply lookup_lt_Some).
  split; [|split].
  - intros ->. cbn. unfold tunnel.UpdateLastPing, tunnel.LastPing, tunnel.IsClosed.
    rewrite Hx. cbn. by rewrite list_lookup_insert_eq.
  - intros ->. cbn [server.handleControlMessage String.eqb Ascii.eqb Bool.eqb].
    unfold tunnel.Pong, tunnel.SendMessage. rewrite Hx.
    destruct (tunnel.closed x) eqn:Hc.
    { cbn. unfold tunnel.LastPing. rewrite Hx. repeat split; try done.
      destruct st; reflexivity. }
    destruct (tunnel.wsFault x) as [e|] eqn:Hf.
    { cbn. unfold tunnel.LastPing. rewrite Hx. repeat split; try done.
      - intros [?|[? ?]]; [done|]. destruct st; reflexivity. }
    cbn [fst snd].
    rewrite recordCheck_net, recordCheck_pingCheck, recordCheck_connections.
    rewrite (tunnelExists_tunnels T st) by reflexivity.
    unfold tunnel.LastPing.
    cbn [server.net server.setNet server.checks server.connections
         tunnel.setConn tunnel.conns].
    rewrite list_lookup_insert_eq by done. cbn [tunnel.lastPing tunnel.outbox fmap
                                                option_fmap option_map].
    repeat split; try done. intros [?|[? ?]]; done.
  - intros Hping Hpong. unfold server.handleControlMessage.
    destruct (String.eqb_spec msgType "ping"); [done|].
    by destruct (String.eqb_spec msgType "pong").
Qed.

Lemma control_message_effects_witness :
  (let r := server.handleControlMessage "T1" 0%nat "ping" 3 50 scenario.connectedA in
   tunnel.LastPing 0%nat (server.net r.2) = 1 /\
   server.checks r.2
   = server.checks scenario.connectedA ++ [server.pingCheck "T1" 3 50]) /\
  (let r := server.handleControlMessage "T1" 0%nat "ping" 3 50 scenario.deletedT1 in
   r.1 = true /\ server.checks r.2 = server.checks scenario.deletedT1).
Proof.
  split.
  - destruct (control_message_effects "T1" 0%nat (tunnel.newConnection "tok1" 1)
                "ping" 3 50 scenario.connectedA) as (_ & Hping & _).
    + reflexivity.
    + destruct (Hping eq_refl) as (Hlast & Hok & _).
      destruct (Hok eq_refl eq_refl) as (_ & Hchk & _).
      split; [exact Hlast | exact Hchk].
  - destruct (control_message_effects "T1" 0%nat (tunnel.newConnection "tok1" 1)
                "ping" 3 50 scenario.deletedT1) as (_ & Hping & _).
    + reflexivity.
    + destruct (Hping eq_refl) as (_ & Hok & _).
      destruct (Hok eq_refl eq_refl) as (Hgo & Hchk & _).
      split; [exact Hgo | exact Hchk].
Defined.

(** ** The byte stream of a WebSocketConn *)

(** One [Read]: the bytes returned are the next bytes of the stream, at most
    a buffer full; and unless nothing is pending, the bound on the reads that
    are left goes down when the buffer is not empty. *)
Lemma Read_step (buflen : nat) (w : tunnel.WebSocketConn) :
  dataOf (tunnel.Read buflen w).1 ++ pendingBytes (tunnel.Read buflen w).2
  = pendingBytes w /\
  (length (dataOf (tunnel.Read buflen w).1) <= buflen)%nat /\
  ((1 <= buflen)%nat ->
   readsLeft w = O \/ (readsLeft (tunnel.Read buflen w).2 < readsLeft w)%nat).
Proof.
  destruct w as [inb down [r|]];
    unfold tunnel.Read, pendingBytes, readsLeft, list_sum;
    cbn [tunnel.reader tunnel.inbound tunnel.wsDown].
  - destruct r as [|b r]; cbn [tunnel.messageRead].
    + cbn. split; [done|]. split; [lia|]. intros _. right. lia.
    + cbn [fst snd dataOf tunnel.reader tunnel.inbound default].
      split; [by rewrite app_assoc, firstn_skipn|].
      split; [apply firstn_le_length|]. intros Hb. right.
      rewrite length_skipn. cbn [length]. lia.
  - destruct inb as [|f fs].
    + cbn. split; [by destruct down|]. split; [destruct down; cbn; lia|].
      intros _. by left.
    + cbn [tunnel.reader tunnel.inbound tunnel.wsDown].
      destruct f as [|b f]; cbn [tunnel.messageRead].
      * cbn. split; [done|]. split; [lia|]. intros _. right. lia.
      * cbn [fst snd dataOf tunnel.reader tunnel.inbound default concat map
             fold_right].
        split; [by rewrite app_assoc, firstn_skipn|].
        split; [apply firstn_le_length|]. intros Hb. right.
        rewrite length_skipn. cbn [length]. lia.
Qed.

Lemma Reads_S k buflen w :
  tunnel.Reads (S k) buflen w
  = ((tunnel.Read buflen w).1 :: (tunnel.Reads k buflen (tunnel.Read buflen w).2).1,
     (tunnel.Reads k buflen (tunnel.Read buflen w).2).2).
Proof.
  cbn [tunnel.Reads]. destruct (tunnel.Read buflen w) as [o w1]. cbn [fst snd].
  by destruct (tunnel.Reads k buflen w1) as [os w2].
Qed.

(** X16. [Read] neither loses, duplicates nor reorders bytes: over any
    number of reads, the bytes handed to the caller followed by what is
    still pending are the bytes that were pending at the start (the rest of
    the current frame, then the frames in arrival order), and no read
    returns more than the buffer holds. *)
Theorem Read_preserves_byte_stream (k buflen : nat) (w : tunnel.WebSocketConn) :
  concat (dataOf <$> (tunnel.Reads k buflen w).1)
  ++ pendingBytes (tunnel.Reads k buflen w).2
  = pendingBytes w /\
  Forall (fun o => (length (dataOf o) <= buflen)%nat) (tunnel.Reads k buflen w).1.
Proof.
  revert w. induction k as [|k IH]; intros w; [done|].
  rewrite Reads_S. cbn [fst snd fmap list_fmap concat].
  destruct (Read_step buflen w) as (Hd & Hl & _).
  destruct (IH (tunnel.Read buflen w).2) as [IH1 IH2].
  split; [|by constructor].
  rewrite <- app_assoc. change (list_fmap _ _ dataOf ?l) with (dataOf <$> l).
  by rewrite IH1.
Qed.

(** X17. With a buffer of at least one byte, everything that is pending is
    delivered after [readsLeft] reads (one per frame boundary in addition to
    those that return bytes): the caller that reads on past the end-of-file
    results gets every byte of every frame. *)
Theorem Read_delivers_everything (k buflen : nat) (w : tunnel.WebSocketConn) :
  (1 <= buflen)%nat ->
  (readsLeft w <= k)%nat ->
  concat (dataOf <$> (tunnel.Reads k buflen w).1) = pendingBytes w /\
  pendingBytes (tunnel.Reads k buflen w).2 = [].
Proof.
  intros Hb. revert w. induction k as [|k IH]; intros w Hk.
  - assert (H0 : readsLeft w = O) by lia.
    destruct w as [inb down [r|]]; unfold readsLeft in H0; cbn in H0; [lia|].
    destruct inb as [|f fs]; [done|]. cbn in H0. lia.
  - rewrite Reads_S. cbn [fst snd fmap list_fmap concat].
    change (list_fmap _ _ dataOf ?l) with (dataOf <$> l).
    destruct (Read_step buflen w) as (Hd & _ & Hm). specialize (Hm Hb).
    destruct (IH (tunnel.Read buflen w).2) as [IH1 IH2].
    { destruct Hm as [H0|Hlt]; [|lia].
      destruct w as [inb down [r|]]; unfold readsLeft in H0; cbn in H0; [lia|].
      destruct inb as [|f fs]; [|cbn in H0; lia].
      unfold tunnel.Read. cbn. unfold readsLeft. cbn. lia. }
    split; [by rewrite IH1|done].
Qed.

Lemma Read_delivers_everything_witness :
  concat (dataOf <$> (tunnel.Reads 7 4 scenario.twoFrames).1) = [x01; x02; x03].
Proof.
  destruct (Read_delivers_everything 7 4 scenario.twoFrames) as [H _].
  - lia.
  - vm_compute. lia.
  - exact H.
Defined.

(** ** What the bidirectional copy forwards *)

Lemma copyStep_cases src dst :
  (tunnel.copyStep src dst = tunnel.Waiting) \/
  (exists err, tunnel.copyStep src dst = tunnel.Finished err src) \/
  (exists err c rest,
     tunnel.inbox src = c :: rest /\
     tunnel.copyStep src dst
     = tunnel.Finished err
         {| tunnel.inbox := rest; tunnel.sent := tunnel.sent src;
            tunnel.rdClosed := tunnel.rdClosed src;
            tunnel.wrClosed := tunnel.wrClosed src |}) \/
  (exists bs rest,
     tunnel.inbox src = tunnel.Data bs :: rest /\
     tunnel.copyStep src dst
     = tunnel.Copied
         {| tunnel.inbox := rest; tunnel.sent := tunnel.sent src;
            tunnel.rdClosed := tunnel.rdClosed src;
            tunnel.wrClosed := tunnel.wrClosed src |}
         {| tunnel.inbox := tunnel.inbox dst; tunnel.sent := tunnel.sent dst ++ bs;
            tunnel.rdClosed := tunnel.rdClosed dst;
            tunnel.wrClosed := tunnel.wrClosed dst |}).
Proof.
  unfold tunnel.copyStep. destruct (tunnel.rdClosed src); [right; left; eauto|].
  destruct (tunnel.inbox src) as [|[bs| |] rest]; [by left | | right; left; eauto |].
  - destruct (tunnel.wrClosed dst).
    + right; right; left. eauto.
    + right; right; right. eauto.
  - right; right; left. eauto.
Qed.

(** Forward direction, from [conn1] to [conn2]: what has been written to
    [conn2] is what was there followed by the leading data chunks taken from
    the inbox of [conn1]; a chunk is taken without being written only by the
    step that ends the copy. *)
Lemma step_forward (st0 st st' : tunnel.CopyState) (g : tunnel.Goroutine) :
  tunnel.step g st = Some st' ->
  (exists chunks lost,
     tunnel.inbox (tunnel.conn1 st0)
     = asData chunks ++ lost ++ tunnel.inbox (tunnel.conn1 st) /\
     tunnel.sent (tunnel.conn2 st) = tunnel.sent (tunnel.conn2 st0) ++ concat chunks /\
     (tunnel.status2 st = tunnel.Running -> lost = [])) ->
  exists chunks lost,
    tunnel.inbox (tunnel.conn1 st0)
    = asData chunks ++ lost ++ tunnel.inbox (tunnel.conn1 st') /\
    tunnel.sent (tunnel.conn2 st') = tunnel.sent (tunnel.conn2 st0) ++ concat chunks /\
    (tunnel.status2 st' = tunnel.Running -> lost = []).
Proof.
  intros Hstep (chunks & lost & Hin & Hsent & Hlost).
  destruct g; cbn [tunnel.step] in Hstep.
  - destruct (tunnel.status1 st); [|done].
    destruct (tunnel.copyStep (tunnel.conn2 st) (tunnel.conn1 st))
      as [src dst|err src|] eqn:E; [| |done]; injection Hstep as <-;
      destruct (copyStep_cases (tunnel.conn2 st) (tunnel.conn1 st))
        as [H|[[e H]|[(e & c & rest & Hi & H)|(bs & rest & Hi & H)]]];
      rewrite H in E; try discriminate E; injection E as <-; try subst;
      exists chunks, lost; cbn; auto.
  - destruct (tunnel.status2 st) eqn:Hs; [|done]. rewrite (Hlost eq_refl) in Hin.
    cbn [app] in Hin.
    destruct (tunnel.copyStep (tunnel.conn1 st) (tunnel.conn2 st))
      as [src dst|err src|] eqn:E; [| |done]; injection Hstep as <-;
      destruct (copyStep_cases (tunnel.conn1 st) (tunnel.conn2 st))
        as [H|[[e H]|[(e & c & rest & Hi & H)|(bs & rest & Hi & H)]]];
      rewrite H in E; try discriminate E; injection E as <-; try subst.
    + exists (chunks ++ [bs]), []. cbn. rewrite Hin, Hi, Hsent.
      unfold asData. rewrite map_app, concat_app, <- !app_assoc. cbn.
      by rewrite app_nil_r.
    + exists chunks, []. cbn. auto.
    + exists chunks, [c]. cbn. rewrite Hin, Hi. split; [done|]. split; [done|]. done.
Qed.

(** The same for the direction from [conn2] to [conn1]. *)
Lemma step_backward (st0 st st' : tunnel.CopyState) (g : tunnel.Goroutine) :
  tunnel.step g st = Some st' ->
  (exists chunks lost,
     tunnel.inbox (tunnel.conn2 st0)
     = asData chunks ++ lost ++ tunnel.inbox (tunnel.conn2 st) /\
     tunnel.sent (tunnel.conn1 st) = tunnel.sent (tunnel.conn1 st0) ++ concat chunks /\
     (tunnel.status1 st = tunnel.Running -> lost = [])) ->
  exists chunks lost,
    tunnel.inbox (tunnel.conn2 st0)
    = asData chunks ++ lost ++ tunnel.inbox (tunnel.conn2 st') /\
    tunnel.sent (tunnel.conn1 st') = tunnel.sent (tunnel.conn1 st0) ++ concat chunks /\
    (tunnel.status1 st' = tunnel.Running -> lost = []).
Proof.
  intros Hstep (chunks & lost & Hin & Hsent & Hlost).
  destruct g; cbn [tunnel.step] in Hstep.
  - destruct (tunnel.status1 st) eqn:Hs; [|done]. rewrite (Hlost eq_refl) in Hin.
    cbn [app] in Hin.
    destruct (tunnel.copyStep (tunnel.conn2 st) (tunnel.conn1 st))
      as [src dst|err src|] eqn:E; [| |done]; injection Hstep as <-;
      destruct (copyStep_cases (tunnel.conn2 st) (tunnel.conn1 st))
        as [H|[[e H]|[(e & c & rest & Hi & H)|(bs & rest & Hi & H)]]];
      rewrite H in E; try discriminate E; injection E as <-; try subst.
    + exists (chunks ++ [bs]), []. cbn. rewrite Hin, Hi, Hsent.
      unfold asData. rewrite map_app, concat_app, <- !app_assoc. cbn.
      by rewrite app_nil_r.
    + exists chunks, []. cbn. auto.
    + exists chunks, [c]. cbn. rewrite Hin, Hi. split; [done|]. split; [done|]. done.
  - destruct (tunnel.status2 st); [|done].
    destruct (tunnel.copyStep (tunnel.conn1 st) (tunnel.conn2 st))
      as [src dst|err src|] eqn:E; [| |done]; injection Hstep as <-;
      destruct (copyStep_cases (tunnel.conn1 st) (tunnel.conn2 st))
        as [H|[[e H]|[(e & c & rest & Hi & H)|(bs & rest & Hi & H)]]];
      rewrite H in E; try discriminate E; injection E as <-; try subst;
      exists chunks, lost; cbn; auto.
Qed.

(** X18. Whatever the schedule of the two goroutines, [CopyBidirectional]
    forwards bytes unchanged and in order: what has been written to each
    connection is what was there before followed by the concatenation of the
    first data chunks the other connection had to deliver, none duplicated,
    skipped or reordered. *)
Theorem copy_forwards_in_order (schedule : list tunnel.Goroutine)
  (c1 c2 : tunnel.Conn) :
  let st' := tunnel.run schedule (tunnel.startCopy c1 c2) in
  (exists chunks,
     asData chunks `prefix_of` tunnel.inbox c1 /\
     tunnel.sent (tunnel.conn2 st') = tunnel.sent c2 ++ concat chunks) /\
  (exists chunks,
     asData chunks `prefix_of` tunnel.inbox c2 /\
     tunnel.sent (tunnel.conn1 st') = tunnel.sent c1 ++ concat chunks).
Proof.
  cbv zeta.
  assert (Hrun : forall st0 sched st,
    ((exists chunks lost,
        tunnel.inbox (tunnel.conn1 st0)
        = asData chunks ++ lost ++ tunnel.inbox (tunnel.conn1 st) /\
        tunnel.sent (tunnel.conn2 st) = tunnel.sent (tunnel.conn2 st0) ++ concat chunks /\
        (tunnel.status2 st = tunnel.Running -> lost = [])) /\
     (exists chunks lost,
        tunnel.inbox (tunnel.conn2 st0)
        = asData chunks ++ lost ++ tunnel.inbox (tunnel.conn2 st) /\
        tunnel.sent (tunnel.conn1 st) = tunnel.sent (tunnel.conn1 st0) ++ concat chunks /\
        (tunnel.status1 st = tunnel.Running -> lost = []))) ->
    ((exists chunks lost,
        tunnel.inbox (tunnel.conn1 st0)
        = asData chunks ++ lost ++ tunnel.inbox (tunnel.conn1 (tunnel.run sched st)) /\
        tunnel.sent (tunnel.conn2 (tunnel.run sched st))
        = tunnel.sent (tunnel.conn2 st0) ++ concat chunks /\
        (tunnel.status2 (tunnel.run sched st) = tunnel.Running -> lost = [])) /\
     (exists chunks lost,
        tunnel.inbox (tunnel.conn2 st0)
        = asData chunks ++ lost ++ tunnel.inbox (tunnel.conn2 (tunnel.run sched st)) /\
        tunnel.sent (tunnel.conn1 (tunnel.run sched st))
        = tunnel.sent (tunnel.conn1 st0) ++ concat chunks /\
        (tunnel.status1 (tunnel.run sched st) = tunnel.Running -> lost = [])))).
  { intros st0 sched. induction sched as [|g sched IH]; intros st [Hf Hb]; [done|].
    cbn [tunnel.run]. destruct (tunnel.step g st) as [st1|] eqn:E.
    - apply IH. split; [by eapply step_forward | by eapply step_backward].
    - by apply IH. }
  destruct (Hrun (tunnel.startCopy c1 c2) schedule (tunnel.startCopy c1 c2))
    as [(ch1 & l1 & Hi1 & Hs1 & _) (ch2 & l2 & Hi2 & Hs2 & _)].
  { split; exists [], []; cbn; by rewrite ?app_nil_r. }
  cbn in Hi1, Hi2, Hs1, Hs2. split.
  - exists ch1. split; [|done]. rewrite Hi1. by eexists.
  - exists ch2. split; [|done]. rewrite Hi2. by eexists.
Qed.

(** ** Stream headers on the agent's side and on a live link *)

(** X19. No cut-off header is accepted: on a stream that ends anywhere
    inside a header frame, [handleStream]'s reader fails with "failed to
    read header length" or "failed to read header" (or, for the frame of an
    empty body, "invalid header length: 0"), whatever the body is. *)
Theorem truncated_header_rejected
  (json_Unmarshal : list byte -> option tunnel.StreamHeader)
  (body : list byte) (wire : list byte) (k : nat) :
  tunnel.frameHeader body = Ok wire ->
  (k < length wire)%nat ->
  tunnel.decodeHeader json_Unmarshal (take k wire) = Err tunnel.ErrReadHeaderLength \/
  tunnel.decodeHeader json_Unmarshal (take k wire) = Err tunnel.ErrReadHeader \/
  (body = [] /\
   tunnel.decodeHeader json_Unmarshal (take k wire)
   = Err (tunnel.ErrInvalidHeaderLength 0)).
Proof.
  intros Hf Hk. unfold tunnel.decodeHeader.
  unfold tunnel.frameHeader in Hf.
  destruct (Z.gtb_spec (Z.of_nat (length body)) 65535) as [|Hlen]; [done|].
  injection Hf as <-.
  cbn [length] in Hk. rewrite length_app in Hk. cbn [length] in Hk.
  destruct k as [|[|k]]; [by left | by left |].
  right. destruct body as [|b body].
  { right. split; [done|]. cbn in Hk. by replace k with 0%nat by lia. }
  left. cbn [take]. rewrite readHeaderBody_cons. cbv zeta.
  rewrite header_length_bytes by lia.
  destruct (Z.eqb_spec (Z.of_nat (length (b :: body))) 0); [cbn in *; lia|].
  destruct (Z.gtb_spec (Z.of_nat (length (b :: body))) 65535); [lia|].
  cbn [orb]. rewrite Nat2Z.id.
  rewrite ReadFull_short; [done|].
  rewrite length_take, length_app. cbn [length] in *. lia.
Qed.

Lemma truncated_header_rejected_witness :
  tunnel.decodeHeader plainjson.Unmarshal (take 3 [x00; x01; x31; x0a])
  = Err tunnel.ErrReadHeader.
Proof.
  destruct (truncated_header_rejected plainjson.Unmarshal [x31]
              [x00; x01; x31; x0a] 3) as [H|[H|[H _]]].
  - reflexivity.
  - cbn. lia.
  - discriminate H.
  - exact H.
  - discriminate H.
Defined.

(** X20. Dispatch on the agent: for a well-formed header frame followed by
    any payload, [handleStream] with the handlers the client registers hands
    the header and the untouched payload to the handler when the type is
    "http" or "tcp", and fails with "no handler for stream type" for every
    other type. *)
Theorem agent_dispatches_http_and_tcp
  (json_Marshal : tunnel.StreamHeader -> option (list byte))
  (json_Unmarshal : list byte -> option tunnel.StreamHeader)
  (header : tunnel.StreamHeader) (body wire payload : list byte) :
  json_Marshal header = Some body ->
  json_Unmarshal body = Some header ->
  1 <= Z.of_nat (length body) ->
  tunnel.encodeHeader json_Marshal header = Ok wire ->
  tunnel.handleStream json_Unmarshal client.registeredHandlers (wire ++ payload)
  = if decide (tunnel.Type_ header = "http"%string \/ tunnel.Type_ header = "tcp"%string)
    then Ok (header, payload)
    else Err (tunnel.ErrNoHandler (tunnel.Type_ header)).
Proof.
  intros Hm Hu Hlen He. unfold tunnel.encodeHeader in He. rewrite Hm in He.
  assert (Hmax : Z.of_nat (length body) <= 65535).
  { unfold tunnel.frameHeader in He.
    destruct (Z.gtb_spec (Z.of_nat (length body)) 65535); [done | lia]. }
  rewrite frameHeader_Ok in He by done. injection He as <-.
  unfold tunnel.handleStream, tunnel.decodeHeader.
  cbn [app]. rewrite <- app_assoc. cbn [app].
  rewrite readHeaderBody_body; [| apply header_length_bytes; lia | lia].
  cbn. rewrite Hu. unfold client.registeredHandlers.
  destruct (decide (tunnel.Type_ header ∈ _)) as [Hin|Hnin];
    destruct (decide (_ \/ _)) as [Hor|Hnor]; try done.
  - exfalso. apply Hnor. set_solver.
  - exfalso. apply Hnin. set_solver.
Qed.

Lemma agent_dispatches_http_and_tcp_witness :
  exists wire,
    tunnel.encodeHeader plainjson.Marshal scenario.header = Ok wire /\
    tunnel.handleStream plainjson.Unmarshal client.registeredHandlers (wire ++ [x47])
    = Ok (scenario.header, [x47]).
Proof.
  eexists. split; [reflexivity|].
  apply (agent_dispatches_http_and_tcp plainjson.Marshal plainjson.Unmarshal
           scenario.header _ _ [x47] eq_refl).
  - reflexivity.
  - vm_compute. discriminate.
  - reflexivity.
Defined.

(** X21. [StreamManager.OpenStream] on its own connection: on a closed
    connection or a session that has shut down it fails with "failed to open
    stream" and changes nothing; on a live one it opens one new stream, and
    either the marshalled header fits and the stream then carries exactly the
    header frame, ready for payload, or the header is longer than 65535
    bytes and the stream is closed again with nothing written. *)
Theorem OpenStream_on_own_connection
  (json_Marshal : tunnel.StreamHeader -> option (list byte))
  (c : tunnel.ConnID) (x : tunnel.Connection) (header : tunnel.StreamHeader)
  (body : list byte) (n : tunnel.Net) :
  tunnel.conns n !! c = Some x ->
  json_Marshal header = Some body ->
  (tunnel.closed x = true \/ tunnel.session x = Some {| tunnel.shutdown := true |} ->
   tunnel.OpenStream json_Marshal c header n = (Err tunnel.ErrOpenStream, n)) /\
  (tunnel.closed x = false ->
   tunnel.session x = Some {| tunnel.shutdown := false |} ->
   (Z.of_nat (length body) <= 65535 ->
    exists wire,
      tunnel.encodeHeader json_Marshal header = Ok wire /\
      tunnel.OpenStream json_Marshal c header n
      = (Ok (length (tunnel.streams n)),
         {| tunnel.conns := tunnel.conns n;
            tunnel.streams := tunnel.streams n ++
              [{| tunnel.parent := c; tunnel.written := wire;
                  tunnel.streamClosed := false |}] |})) /\
   (65535 < Z.of_nat (length body) ->
    tunnel.OpenStream json_Marshal c header n
    = (Err (tunnel.ErrHeaderTooLarge (Z.of_nat (length body))),
       {| tunnel.conns := tunnel.conns n;
          tunnel.streams := tunnel.streams n ++
            [{| tunnel.parent := c; tunnel.written := [];
                tunnel.streamClosed := true |}] |}))).
Proof.
  intros Hx Hm. unfold tunnel.OpenStream, tunnel.Open. rewrite Hx. split.
  - intros [Hc|Hs]; [by rewrite Hc|].
    destruct (tunnel.closed x); [done|]. by rewrite Hs.
  - intros Hc Hs. rewrite Hc, Hs. cbn [tunnel.shutdown]. rewrite Hm.
    assert (Hnew : forall st : tunnel.Stream,
              (tunnel.streams n ++ [st]) !! length (tunnel.streams n) = Some st).
    { intros st. rewrite lookup_app_r by lia. by rewrite Nat.sub_diag. }
    assert (Hins : forall st st' : tunnel.Stream,
              <[length (tunnel.streams n) := st']> (tunnel.streams n ++ [st])
              = tunnel.streams n ++ [st']).
    { intros st st'. rewrite insert_app_r_alt by lia. by rewrite Nat.sub_diag. }
    split.
    + intros Hlen. unfold tunnel.encodeHeader. rewrite Hm.
      rewrite frameHeader_Ok by done. eexists. split; [reflexivity|].
      unfold tunnel.streamWrite. cbn [tunnel.streams tunnel.conns].
      rewrite Hnew. cbn [tunnel.streamClosed tunnel.parent tunnel.written orb].
      unfold tunnel.IsClosed. cbn [tunnel.conns]. rewrite Hx, Hc.
      by rewrite Hins.
    + intros Hlen. rewrite frameHeader_too_large by done.
      unfold tunnel.streamClose. cbn [tunnel.streams tunnel.conns].
      rewrite Hnew. cbn [tunnel.parent tunnel.written]. by rewrite Hins.
Qed.

Lemma OpenStream_on_own_connection_witness :
  exists wire,
    tunnel.encodeHeader plainjson.Marshal scenario.header = Ok wire /\
    tunnel.streamWritten 0%nat
      (tunnel.OpenStream plainjson.Marshal 0%nat scenario.header
         (server.net scenario.connectedA)).2 = wire.
Proof.
  destruct (OpenStream_on_own_connection plainjson.Marshal 0%nat
              (tunnel.newConnection "tok1" 1) scenario.header _
              (server.net scenario.connectedA) eq_refl eq_refl) as [_ Hlive].
  destruct (Hlive eq_refl eq_refl) as [Hfit _].
  destruct Hfit as (wire & He & Ho).
  - vm_compute. discriminate.
  - exists wire. split; [exact He|]. rewrite Ho. reflexivity.
Defined.

(** ** The table of TCP listeners *)

Lemma RemoveTCPService_delete service ls :
  proxy.RemoveTCPService service ls = delete (models.ListenAddr service) ls.
Proof.
  unfold proxy.RemoveTCPService.
  destruct (ls !! models.ListenAddr service) eqn:E; [done|]. by rewrite delete_id.
Qed.

(** X22. Adding and removing TCP services.  A service that is not an
    enabled TCP service with a listen address is accepted without a
    listener.  A second service on an address that already has a listener is
    refused with "TCP listener already exists" and the first listener
    stays.  When the address is free and can be bound, the listener is filed
    under it, and removing the service again restores the table.  Removal
    goes by address alone: it removes whatever listener is on the listen
    address of the service it is given. *)
Theorem AddTCPService_RemoveTCPService (canListen : string -> bool)
  (service : models.Service) (ls : gmap string models.Service) :
  let addr := models.ListenAddr service in
  (proxy.wantsListener service = false ->
   proxy.AddTCPService canListen service ls = (None, ls)) /\
  (proxy.wantsListener service = true ->
   (forall first, ls !! addr = Some first ->
      proxy.AddTCPService canListen service ls
      = (Some (proxy.ErrListenerExists addr), ls)) /\
   (ls !! addr = None -> canListen addr = false ->
      proxy.AddTCPService canListen service ls
      = (Some (proxy.ErrListenFailed addr), ls)) /\
   (ls !! addr = None -> canListen addr = true ->
      proxy.AddTCPService canListen service ls = (None, <[addr := service]> ls) /\
      proxy.RemoveTCPService service (<[addr := service]> ls) = ls)) /\
  (forall other, models.ListenAddr other = addr ->
     proxy.RemoveTCPService other ls !! addr = None) /\
  (forall addr', addr' <> addr ->
     proxy.RemoveTCPService service ls !! addr' = ls !! addr' /\
     (proxy.AddTCPService canListen service ls).2 !! addr' = ls !! addr').
Proof.
  cbv zeta. unfold proxy.AddTCPService, proxy.startTCPListener.
  split; [by intros ->|]. split; [|split].
  - intros ->. split; [|split].
    + by intros first ->.
    + by intros -> ->.
    + intros Hn Hc. rewrite Hn, Hc. split; [done|].
      rewrite RemoveTCPService_delete. by apply delete_insert_id.
  - intros other Ho. rewrite RemoveTCPService_delete, Ho. apply lookup_delete_eq.
  - intros addr' Hne. split.
    + rewrite RemoveTCPService_delete. by apply lookup_delete_ne.
    + destruct (proxy.wantsListener service); [|done].
      destruct (ls !! models.ListenAddr service); [done|].
      destruct (canListen _); [|done]. cbn. by apply lookup_insert_ne.
Qed.

(** X23. The listener table stays well formed: adding a service, removing
    a service and starting the listeners of a list of services only ever
    leave listeners that are filed under the listen address of an enabled
    TCP service with a non-empty listen address. *)
Theorem listeners_stay_well_formed (canListen : string -> bool)
  (ls : gmap string models.Service) :
  listeners_wf ls ->
  (forall service, listeners_wf (proxy.AddTCPService canListen service ls).2) /\
  (forall service, listeners_wf (proxy.RemoveTCPService service ls)) /\
  (forall svcs, listeners_wf (proxy.startTCPListeners_over canListen svcs ls)).
Proof.
  assert (Hadd : forall ls service,
            listeners_wf ls ->
            listeners_wf (proxy.AddTCPService canListen service ls).2).
  { clear ls. intros ls service Hwf. unfold proxy.AddTCPService, proxy.startTCPListener.
    destruct (proxy.wantsListener service) eqn:Hw; [|done].
    destruct (ls !! models.ListenAddr service); [done|].
    destruct (canListen _); [|done]. cbn.
    intros addr svc. rewrite lookup_insert. case_decide.
    - intros [= <-]. by subst.
    - apply Hwf. }
  intros Hwf. split; [intros service; by apply Hadd|]. split.
  - intros service addr svc. rewrite RemoveTCPService_delete, lookup_delete.
    case_decide; [done|]. apply Hwf.
  - intros svcs. revert ls Hwf. induction svcs as [|s svcs IH]; intros ls Hwf; [done|].
    cbn. apply IH. specialize (Hadd ls s Hwf). unfold proxy.AddTCPService in Hadd.
    by destruct (proxy.wantsListener s).
Qed.

Lemma listeners_stay_well_formed_witness :
  listeners_wf (proxy.startTCPListeners_over (fun _ => true)
                  [scenario.appService; scenario.sshService] ∅).
Proof.
  destruct (listeners_stay_well_formed (fun _ => true) ∅) as (_ & _ & H).
  - intros addr service. by rewrite lookup_empty.
  - apply H.
Defined.

(** X24. Starting the listeners at startup: from an empty table, the
    listener on an address that can be bound is the first service, in the
    order the services are visited, that is an enabled TCP service with that
    non-empty listen address; addresses that cannot be bound, and addresses
    no such service names, get no listener. *)
Theorem startTCPListeners_first_wins (canListen : string -> bool)
  (svcs : list models.Service) (addr : string) :
  proxy.startTCPListeners_over canListen svcs ∅ !! addr
  = if canListen addr
    then find (fun s => proxy.wantsListener s
                        && String.eqb (models.ListenAddr s) addr) svcs
    else None.
Proof.
  assert (H : forall ls,
    proxy.startTCPListeners_over canListen svcs ls !! addr
    = match ls !! addr with
      | Some s => Some s
      | None =>
          if canListen addr
          then find (fun s => proxy.wantsListener s
                              && String.eqb (models.ListenAddr s) addr) svcs
          else None
      end).
  { induction svcs as [|s svcs IH]; intros ls.
    - cbn. destruct (ls !! addr); [done|]. by destruct (canListen addr).
    - cbn [proxy.startTCPListeners_over fold_left find].
      change (fold_left _ svcs ?l) with (proxy.startTCPListeners_over canListen svcs l).
      rewrite IH. unfold proxy.startTCPListener.
      destruct (proxy.wantsListener s) eqn:Hw; cbn [andb]; [|done].
      destruct (String.eqb_spec (models.ListenAddr s) addr) as [<-|Hne].
      + destruct (ls !! models.ListenAddr s) eqn:E; cbn [snd]; [by rewrite E|].
        destruct (canListen (models.ListenAddr s)); cbn [snd].
        * by rewrite lookup_insert_eq.
        * by rewrite E.
      + destruct (ls !! models.ListenAddr s) eqn:E; cbn [snd]; [done|].
        destruct (canListen (models.ListenAddr s)); cbn [snd]; [|done].
        by rewrite lookup_insert_ne. }
  rewrite H. by rewrite lookup_empty.
Qed.

(** ** The REST handlers *)

Lemma validateCreateService_None (req : api.CreateServiceRequest) :
  api.validateCreateService req = None ->
  (api.reqType req = "http"%string \/ api.reqType req = "tcp"%string) /\
  api.reqTargetAddr req <> ""%string /\
  (api.reqType req = "http"%string -> api.reqDomain req <> ""%string) /\
  (api.reqType req = "tcp"%string -> api.reqListenAddr req <> ""%string).
Proof.
  unfold api.validateCreateService.
  destruct (String.eqb_spec (api.reqType req) "http") as [Hh|Hh];
    destruct (String.eqb_spec (api.reqType req) "tcp") as [Ht|Ht];
    destruct (String.eqb_spec (api.reqTargetAddr req) "") as [Ha|Ha];
    destruct (String.eqb_spec (api.reqDomain req) "") as [Hd|Hd];
    destruct (String.eqb_spec (api.reqListenAddr req) "") as [Hl|Hl];
    cbn [negb andb]; intros H; try discriminate H;
    (split; [tauto|]); (split; [done|]); split; intros; congruence.
Qed.

(** X25. What [createService] stores: a request that passes validation
    gives a record of type http or tcp, for the tunnel of the URL, with a
    target address, a path prefix and a TLS mode that are not empty (the
    defaults ["/"] and ["terminate"] when the request leaves them out), a
    domain if it is an HTTP service and a listen address if it is a TCP
    service; a TCP service that is enabled is one [AddTCPService] starts a
    listener for.  A request the validation refuses gets one of its four
    messages. *)
Theorem createService_record_valid (id tunnelID : string)
  (req : api.CreateServiceRequest) :
  (forall service,
     api.createService_record id tunnelID req = Ok service ->
     (models.Type_ service = "http"%string \/ models.Type_ service = "tcp"%string) /\
     models.ServiceID service = id /\
     models.TunnelID service = tunnelID /\
     models.TargetAddr service <> ""%string /\
     models.PathPrefix service <> ""%string /\
     models.TLSMode service <> ""%string /\
     (models.Type_ service = "http"%string -> models.Domain service <> ""%string) /\
     (models.Type_ service = "tcp"%string -> models.ListenAddr service <> ""%string) /\
     (models.Type_ service = "tcp"%string -> models.Enabled service = true ->
      proxy.wantsListener service = true)) /\
  (forall msg,
     api.createService_record id tunnelID req = Err msg ->
     msg = "Type must be 'http' or 'tcp'"%string \/
     msg = "Target address is required"%string \/
     msg = "Domain is required for HTTP services"%string \/
     msg = "Listen address is required for TCP services"%string).
Proof.
  split.
  - intros service. unfold api.createService_record.
    destruct (api.validateCreateService req) eqn:Hv; [done|].
    apply validateCreateService_None in Hv as (Hty & Hta & Hd & Hl).
    intros [= <-]. unfold api.newService, proxy.wantsListener.
    cbn [models.Type_ models.ServiceID models.TunnelID models.TargetAddr
         models.PathPrefix models.TLSMode models.Domain models.ListenAddr
         models.Enabled].
    split; [done|]. split; [done|]. split; [done|]. split; [done|].
    split; [by destruct (String.eqb_spec (api.reqPathPrefix req) "")|].
    split; [by destruct (String.eqb_spec (api.reqTLSMode req) "")|].
    split; [done|]. split; [done|].
    intros Ht He. rewrite Ht, He. cbn.
    by destruct (String.eqb_spec (api.reqListenAddr req) "") as [Hl'|]; [destruct (Hl Ht)|].
  - intros msg. unfold api.createService_record, api.validateCreateService.
    destruct (negb _ && negb _); [intros [= <-]; tauto|].
    destruct (String.eqb (api.reqTargetAddr req) ""); [intros [= <-]; tauto|].
    destruct (_ && _); [intros [= <-]; tauto|].
    destruct (_ && _); [intros [= <-]; tauto|]. done.
Qed.

(** X26. The row limit of [getChecks] is always between 1 and 1000: a
    parsed value in that range is used as it is, and every other value, like
    a missing or unparsable one, gives 100 (it is not clamped). *)
Theorem checksLimit_range (parsed : option Z) :
  1 <= api.checksLimit parsed <= 1000 /\
  (forall l, parsed = Some l -> 1 <= l <= 1000 -> api.checksLimit parsed = l) /\
  (forall l, parsed = Some l -> l < 1 \/ 1000 < l -> api.checksLimit parsed = 100) /\
  (parsed = None -> api.checksLimit parsed = 100).
Proof.
  unfold api.checksLimit.
  destruct parsed as [l|];
    [destruct (Z.gtb_spec l 0); destruct (Z.leb_spec l 1000); cbn [andb]|];
    (split; [lia|]);
    (split; [intros l' Hl' Hr; try discriminate Hl'; injection Hl' as <-; lia|]);
    (split; [intros l' Hl' Hr; try discriminate Hl'; injection Hl' as <-; lia|]);
    intros Hnone; try discriminate Hnone; done.
Qed.

Lemma applyUpdate_fields service req :
  models.Type_ (api.applyUpdate service req).1 = models.Type_ service /\
  models.ListenAddr (api.applyUpdate service req).1
  = default (models.ListenAddr service) (api.updListenAddr req) /\
  models.Enabled (api.applyUpdate service req).1
  = default (models.Enabled service) (api.updEnabled req) /\
  models.TargetAddr (api.applyUpdate service req).1
  = default (models.TargetAddr service) (api.updTargetAddr req).
Proof. done. Qed.

(** X27. What [updateService] does to the listeners.  An update that sets
    neither the listen address nor the enabled flag, or that is for a
    service that is not of type tcp, leaves the table as it is, so a
    running listener keeps the record it was started with even when the
    stored target address has changed.  For a TCP service with a listen
    address, an update that disables it removes the listener on the old
    address and starts none; an update after which it is enabled, with a new
    non-empty listen address that is free once the old listener is gone and
    can be bound, moves the listener there, under the updated record. *)
Theorem updateService_listener_changes (canListen : string -> bool)
  (service : models.Service) (req : api.UpdateServiceRequest)
  (ls : gmap string models.Service) :
  let r := api.updateService_listeners canListen service req ls in
  r.1 = (api.applyUpdate service req).1 /\
  (api.updListenAddr req = None -> api.updEnabled req = None -> r.2 = ls) /\
  (models.Type_ service <> "tcp"%string -> r.2 = ls) /\
  (models.Type_ service = "tcp"%string ->
   models.ListenAddr service <> ""%string ->
   api.updEnabled req = Some false ->
   r.2 = delete (models.ListenAddr service) ls) /\
  (forall b,
     models.Type_ service = "tcp"%string ->
     models.ListenAddr service <> ""%string ->
     api.updListenAddr req = Some b ->
     b <> ""%string ->
     default (models.Enabled service) (api.updEnabled req) = true ->
     delete (models.ListenAddr service) ls !! b = None ->
     canListen b = true ->
     r.2 = <[b := (api.applyUpdate service req).1]>
             (delete (models.ListenAddr service) ls)).
Proof.
  cbv zeta. unfold api.updateService_listeners.
  destruct (api.applyUpdate service req) as [updated restart] eqn:E.
  pose proof (applyUpdate_fields service req) as (Hty & Hla & Hen & _).
  rewrite E in Hty, Hla, Hen. cbn [fst] in Hty, Hla, Hen.
  assert (Hrestart : restart
            = match api.updEnabled req, api.updListenAddr req with
              | Some _, _ | None, Some _ => String.eqb (models.Type_ service) "tcp"
              | None, None => false
              end).
  { unfold api.applyUpdate in E. by injection E as _ <-. }
  split; [by destruct restart|]. split; [|split; [|split]].
  - intros Hl He. rewrite Hl, He in Hrestart. by subst restart.
  - intros Hnt. apply String.eqb_neq in Hnt. rewrite Hnt in Hrestart.
    subst restart. by destruct (api.updEnabled req), (api.updListenAddr req).
  - intros Ht Ha He. apply String.eqb_eq in Ht. rewrite He, Ht in Hrestart.
    subst restart. apply String.eqb_neq in Ha. rewrite Ha. cbn [negb snd].
    rewrite RemoveTCPService_delete. cbn [models.ListenAddr].
    unfold proxy.AddTCPService, proxy.wantsListener.
    rewrite Hen, He. cbn. by rewrite andb_false_r.
  - intros b Ht Ha Hb Hbne Hena Hfree Hcan.
    pose proof Ht as Ht'. apply String.eqb_eq in Ht'. rewrite Hb, Ht' in Hrestart.
    assert (restart = true) as -> by (by destruct (api.updEnabled req)).
    apply String.eqb_neq in Ha. rewrite Ha. cbn [negb snd].
    rewrite RemoveTCPService_delete. cbn [models.ListenAddr].
    rewrite Hb in Hla. cbn in Hla.
    unfold proxy.AddTCPService, proxy.wantsListener, proxy.startTCPListener.
    rewrite Hty, Ht', Hen, Hena, Hla. apply String.eqb_neq in Hbne. rewrite Hbne.
    cbn [andb negb]. by rewrite Hfree, Hcan.
Qed.

(** ** The client's reconnect loop *)

Lemma wrap64_small (z : Z) : - 2 ^ 63 <= z < 2 ^ 63 -> client.wrap64 z = z.
Proof. intros H. unfold client.wrap64. rewrite Z.mod_small; lia. Qed.

Lemma backoffAfterFailure_min (b : Z) :
  0 <= b <= client.maxBackoff ->
  client.backoffAfterFailure b = Z.min (b * 2) client.maxBackoff.
Proof.
  intros H. unfold client.backoffAfterFailure.
  assert (Hm : client.maxBackoff = 300000000000) by reflexivity.
  rewrite wrap64_small by (rewrite Hm in H; lia).
  destruct (Z.gtb_spec (b * 2) client.maxBackoff); lia.
Qed.

Lemma backoffAfter_snoc attempts connected :
  client.backoffAfter (attempts ++ [connected])
  = client.afterAttempt (client.backoffAfter attempts) connected.
Proof. unfold client.backoffAfter. by rewrite fold_left_app. Qed.

Lemma backoffAfter_bounds attempts :
  tunnel.Second <= client.backoffAfter attempts <= client.maxBackoff.
Proof.
  assert (Hm : client.maxBackoff = 300000000000) by reflexivity.
  assert (Hs : tunnel.Second = 1000000000) by reflexivity.
  induction attempts as [|a l IH] using rev_ind; [cbn; lia|].
  rewrite backoffAfter_snoc. destruct a; cbn [client.afterAttempt]; [lia|].
  rewrite backoffAfterFailure_min by lia. lia.
Qed.

(** X28. The reconnect backoff: after any sequence of attempts it lies
    between one second and five minutes; a successful attempt resets it to
    one second; and after [n] failures in a row since the start or since the
    last success it is [2^n] seconds, capped at five minutes.  The doubling
    never overflows. *)
Theorem reconnect_backoff (attempts : list bool) (n : nat) :
  tunnel.Second <= client.backoffAfter attempts <= client.maxBackoff /\
  client.backoffAfter (attempts ++ [true]) = tunnel.Second /\
  client.backoffAfter (repeat false n)
  = Z.min (2 ^ Z.of_nat n * tunnel.Second) (300 * tunnel.Second) /\
  client.backoffAfter (attempts ++ [true] ++ repeat false n)
  = Z.min (2 ^ Z.of_nat n * tunnel.Second) (300 * tunnel.Second).
Proof.
  assert (Hm : client.maxBackoff = 300 * tunnel.Second) by reflexivity.
  assert (Hs : tunnel.Second = 1000000000) by reflexivity.
  assert (Hfail : forall l,
            client.backoffAfter l = tunnel.Second ->
            client.backoffAfter (l ++ repeat false n)
            = Z.min (2 ^ Z.of_nat n * tunnel.Second) (300 * tunnel.Second)).
  { intros l Hl. induction n as [|k IH].
    - rewrite app_nil_r, Hl. cbn. lia.
    - cbn [repeat]. rewrite repeat_cons, app_assoc, backoffAfter_snoc, IH.
      cbn [client.afterAttempt].
      pose proof (Z.pow_pos_nonneg 2 (Z.of_nat k)) as Hpos.
      rewrite backoffAfterFailure_min by lia.
      rewrite Nat2Z.inj_succ, Z.pow_succ_r by lia. lia. }
  split; [apply backoffAfter_bounds|].
  split; [by rewrite backoffAfter_snoc|]. split.
  - apply (Hfail []). reflexivity.
  - rewrite app_assoc. apply Hfail. by rewrite backoffAfter_snoc.
Qed.
